(** * BLT-Hackathons: the fetch-and-aggregate pipeline of [fetch_stats.py]

    A shallow embedding of [src/fetch_stats.py] and the properties its
    specification states about it.

    Modelling conventions.
    - A timezone-aware [datetime] is the number of microseconds since
      0001-01-01T00:00:00Z (Python's resolution and origin); a calendar
      date is its proleptic Gregorian ordinal, as [date.toordinal()] gives
      it.  [date.isoformat()] is injective, so a dictionary keyed by ISO date
      strings is a map keyed by ordinals.  The times of the records the API
      sends are timezone-aware, written with Z.  The times of the
      configuration are strings that [fromisoformat] may refuse, or read
      without an offset: such an offset-naive datetime has a date, and
      Python raises TypeError when it is compared with an aware one.
    - Python [str] values are Rocq strings (the UTF-8 bytes).  The tokens the
      code looks for are pure ASCII, and no character outside ASCII lowers to
      a string holding one of them, so lowering the letters A-Z is
      [str.lower()] as far as those tests can tell.
    - JSON payloads of the upstream API are records with the fields the code
      reads; a field read with [.get] is an [option].
    - Python integers that only count are [nat]. *)

From Stdlib Require Import ZArith Ascii String.
From stdpp Require Import gmap strings list fin_maps sorting.

Local Open Scope Z_scope.

(** ** Outcomes of a call *)

Inductive exn : Type :=
| OverflowError      (* datetime arithmetic left the range of years 1..9999 *)
| AttributeError     (* a method called on None *)
| KeyError           (* a subscript on a missing key *)
| ValueError         (* a string that fromisoformat rejects *)
| TypeError          (* an offset-naive datetime compared with an aware one; None iterated *)
| OtherException.    (* anything else that is neither HTTPError nor URLError *)

Inductive result (A : Type) : Type :=
| Val (a : A)        (* the call returns a *)
| Raise (e : exn)    (* the call raises e *)
| Diverge.           (* the call has not returned within the fuel given *)

Arguments Val {A} a.
Arguments Raise {A} e.
Arguments Diverge {A}.

(** ** Dates and times *)

Abbreviation datetime := Z (only parsing).
Abbreviation date := Z (only parsing).

Definition us_per_day : Z := 86400000000.
Definition datetime_max : datetime := 3652059 * us_per_day - 1.
Definition date_max : date := 3652059.            (* date(9999, 12, 31) *)

(** [dt.date()], as an ordinal. *)
Definition date_of (dt : datetime) : date := dt / us_per_day + 1.

(** [timedelta(minutes=n)] *)
Definition timedelta_minutes (n : Z) : Z := n * 60000000.

(** [dt - delta]: Python raises OverflowError outside the datetime range. *)
Definition datetime_sub (dt : datetime) (delta : Z) : result datetime :=
  let r := dt - delta in
  if (0 <=? r) && (r <=? datetime_max) then Val r else Raise OverflowError.

(** [a <= x <= b] *)
Definition between (a x b : datetime) : bool := (a <=? x) && (x <=? b).

(** What [datetime.fromisoformat] returns: a datetime with a UTC offset (the
    instant it denotes) or one without (its wall-clock reading). *)
Inductive pydatetime : Type :=
| Aware (instant : datetime)
| Naive (wall : datetime).

(** The reading [dt.date()] is taken from. *)
Definition wall_clock (dt : pydatetime) : datetime :=
  match dt with Aware t => t | Naive t => t end.

(** [bound <= x] and [x <= bound] for the time [x] of a record, which is
    aware. *)
Definition bound_le (bound : pydatetime) (x : datetime) : result bool :=
  match bound with
  | Aware t => Val (t <=? x)
  | Naive _ => Raise TypeError
  end.

Definition le_bound (x : datetime) (bound : pydatetime) : result bool :=
  match bound with
  | Aware t => Val (x <=? t)
  | Naive _ => Raise TypeError
  end.

(** [start_dt <= x <= end_dt], a chained comparison: [x <= end_dt] is
    evaluated only when [start_dt <= x] holds. *)
Definition between_bounds (start_dt : pydatetime) (x : datetime) (end_dt : pydatetime)
    : result bool :=
  match bound_le start_dt x with
  | Val true => le_bound x end_dt
  | r => r
  end.

(** [for x in l: acc = f(acc, x)], for a body that may raise. *)
Fixpoint fold_result {A B} (f : B → A → result B) (acc : B) (l : list A) : result B :=
  match l with
  | [] => Val acc
  | x :: l' =>
      match f acc x with
      | Val acc' => fold_result f acc' l'
      | Raise e => Raise e
      | Diverge => Diverge
      end
  end.

(** ** Strings *)

Definition ascii_lower (c : ascii) : ascii :=
  let n := nat_of_ascii c in
  if ((65 <=? n) && (n <=? 90))%nat then ascii_of_nat (n + 32) else c.

Fixpoint lower (s : string) : string :=
  match s with
  | EmptyString => EmptyString
  | String c s' => String (ascii_lower c) (lower s')
  end.

(** [needle in hay] *)
Fixpoint str_in (needle hay : string) : bool :=
  if String.prefix needle hay then true
  else match hay with
       | EmptyString => false
       | String _ hay' => str_in needle hay'
       end.

(** [s.endswith(suffix)] *)
Fixpoint endswith (s suffix : string) : bool :=
  if String.eqb s suffix then true
  else match s with
       | EmptyString => false
       | String _ s' => endswith s' suffix
       end.

(** ** Raw records *)

Record User : Type := {
  login : string;
  avatar_url : option string;
  user_html_url : option string
}.

Record PullRequest : Type := {
  pr_number : Z;
  pr_title : option string;
  pr_created_at : datetime;
  pr_updated_at : datetime;
  pr_merged_at : option datetime;
  pr_user : User;
  pr_html_url : option string;
  pr_repository : option string
}.

Record Review : Type := {
  rv_id : option Z;
  rv_user : User;
  rv_state : option string;
  rv_submitted_at : option datetime;
  rv_html_url : option string;
  rv_repository : option string;
  rv_pull_request_url : option string;
  rv_pull_request_title : option string
}.

Record Issue : Type := {
  is_pull_request : bool;            (* "pull_request" in item *)
  is_state : string;
  is_created_at : datetime;
  is_closed_at : option datetime;
  is_repository : option string
}.

Record RepoData : Type := {
  rd_full_name : option string;
  rd_description : option string;
  rd_stargazers_count : Z;
  rd_forks_count : Z;
  rd_language : option string;
  rd_html_url : option string
}.

(** ** Aggregates *)

Record ReviewSummary : Type := {
  rs_id : option Z;
  rs_state : option string;
  rs_submitted_at : option datetime;
  rs_html_url : string;
  rs_pull_request_url : string;
  rs_pull_request_title : string
}.

Record Participant : Type := {
  username : string;
  avatar : string;
  url : string;
  mergedCount : nat;
  prCount : nat;
  reviewCount : nat;
  reviews : list ReviewSummary
}.

Record DayBucket : Type := { day_total : nat; day_merged : nat }.

Record RepoStat : Type := {
  repo_total : nat;
  repo_merged : nat;
  repo_issues : nat;
  repo_closedIssues : nat
}.

Record Stats : Type := {
  totalPRs : nat;
  mergedPRs : nat;
  totalIssues : nat;
  closedIssues : nat;
  participantCount : nat;
  leaderboard : list Participant;
  reviewLeaderboard : list Participant;
  repoStats : gmap string RepoStat;
  dailyActivity : gmap Z DayBucket;
  dailyMergedPRs : gmap Z nat;
  repoData : option (list RepoData)
}.

Definition zero_day : DayBucket := {| day_total := 0; day_merged := 0 |}.
Definition zero_repo : RepoStat :=
  {| repo_total := 0; repo_merged := 0; repo_issues := 0; repo_closedIssues := 0 |}.

(** ** [process_hackathon_stats] *)

Module Aggregator.

(** The pre-population loop (lines 222-227):
    [while current_date <= end_date: daily[current_date] = zero; current_date += 1 day].
    The first argument counts the iterations still allowed; [build_daily_activity]
    passes the number of days of the range, which [daily_loop_unfold] shows
    is always enough. *)
Fixpoint daily_loop (n : nat) (current_date end_date : date)
    (daily_activity : gmap Z DayBucket) : result (gmap Z DayBucket) :=
  match n with
  | O => if current_date <=? end_date then Diverge else Val daily_activity
  | S n' =>
      if current_date <=? end_date then
        let daily_activity := <[current_date := zero_day]> daily_activity in
        if date_max <=? current_date then Raise OverflowError
        else daily_loop n' (current_date + 1) end_date daily_activity
      else Val daily_activity
  end.

Definition build_daily_activity (start_dt end_dt : datetime)
    : result (gmap Z DayBucket) :=
  let current_date := date_of start_dt in
  let end_date := date_of end_dt in
  daily_loop (Z.to_nat (end_date - current_date + 1)) current_date end_date ∅.

(** Bot and Copilot tests (lines 242-244 and 292-293). *)
Definition is_bot (username : string) : bool :=
  str_in "[bot]" username || endswith (lower username) "bot".

Definition is_copilot_login (username : string) : bool :=
  str_in "copilot" (lower username).

Definition is_copilot_pr (username title : string) : bool :=
  str_in "copilot" (lower username) || str_in "copilot" (lower title).

(** The participants dictionary keeps insertion order, and the leaderboards
    depend on it: an association list in first-seen order. *)
Definition p_mem (u : string) (ps : list Participant) : bool :=
  existsb (λ p, bool_decide (username p = u)) ps.

Definition p_alter (f : Participant → Participant) (u : string)
    (ps : list Participant) : list Participant :=
  (λ p, if bool_decide (username p = u) then f p else p) <$> ps.

Definition new_participant (u : User) : Participant :=
  {| username := login u;
     avatar := default "" (avatar_url u);
     url := default ("https://github.com/" +:+ login u) (user_html_url u);
     mergedCount := 0; prCount := 0; reviewCount := 0; reviews := [] |}.

Definition p_ensure (u : User) (ps : list Participant) : list Participant :=
  if p_mem (login u) ps then ps else ps ++ [new_participant u].

Definition incr_pr (is_merged : bool) (p : Participant) : Participant :=
  {| username := username p; avatar := avatar p; url := url p;
     mergedCount := if is_merged then S (mergedCount p) else mergedCount p;
     prCount := S (prCount p);
     reviewCount := reviewCount p; reviews := reviews p |}.

Definition add_review (s : ReviewSummary) (p : Participant) : Participant :=
  {| username := username p; avatar := avatar p; url := url p;
     mergedCount := mergedCount p; prCount := prCount p;
     reviewCount := S (reviewCount p); reviews := reviews p ++ [s] |}.

Record Acc : Type := {
  total_prs : nat;
  merged_prs : nat;
  repo_stats : gmap string RepoStat;
  daily_activity : gmap Z DayBucket;
  daily_merged_prs : gmap Z nat;
  participants : list Participant
}.

Definition repo_ensure (k : string) (rs : gmap string RepoStat) : gmap string RepoStat :=
  match rs !! k with Some _ => rs | None => <[k := zero_repo]> rs end.

Definition repo_add_pr (is_merged : bool) (r : RepoStat) : RepoStat :=
  {| repo_total := S (repo_total r);
     repo_merged := if is_merged then S (repo_merged r) else repo_merged r;
     repo_issues := repo_issues r; repo_closedIssues := repo_closedIssues r |}.

Definition repo_add_issue (closed : bool) (r : RepoStat) : RepoStat :=
  {| repo_total := repo_total r; repo_merged := repo_merged r;
     repo_issues := S (repo_issues r);
     repo_closedIssues := if closed then S (repo_closedIssues r) else repo_closedIssues r |}.

Definition day_add_total (b : DayBucket) : DayBucket :=
  {| day_total := S (day_total b); day_merged := day_merged b |}.
Definition day_add_merged (b : DayBucket) : DayBucket :=
  {| day_total := day_total b; day_merged := S (day_merged b) |}.

Definition pr_title_str (pr : PullRequest) : string := default "" (pr_title pr).

(** A pull request credits its author (line 272). *)
Definition pr_credited (pr : PullRequest) : bool :=
  negb (is_bot (login (pr_user pr)))
  && negb (is_copilot_pr (login (pr_user pr)) (pr_title_str pr)).

(** The test of line 261,
    [created_date in daily_activity and start_dt <= created_at <= end_dt]:
    the comparison is made only for a date of the series. *)
Definition created_in_window (start_dt end_dt : pydatetime) (a : Acc) (pr : PullRequest)
    : result bool :=
  if bool_decide (is_Some (daily_activity a !! date_of (pr_created_at pr)))
  then between_bounds start_dt (pr_created_at pr) end_dt
  else Val false.

(** One iteration of [for pr in prs] (lines 239-287), given the outcome
    [counted] of the test of line 261.  The merge date is
    [pr["merged_at"][:10]], the first ten characters of a timestamp that the
    API writes as YYYY-MM-DDThh:mm:ssZ: its UTC date. *)
Definition pr_update (counted : bool) (a : Acc) (pr : PullRequest) : Acc :=
  let is_merged := bool_decide (is_Some (pr_merged_at pr)) in
  let repo_key := default "unknown" (pr_repository pr) in
  let repo_stats := alter (repo_add_pr is_merged) repo_key (repo_ensure repo_key (repo_stats a)) in
  let created_at := pr_created_at pr in
  let created_date := date_of created_at in
  let daily :=
    if counted
    then alter day_add_total created_date (daily_activity a)
    else daily_activity a in
  let '(daily, daily_merged) :=
    match pr_merged_at pr with
    | Some merged_at =>
        let merged_date := date_of merged_at in
        (alter day_add_merged merged_date daily,
         <[merged_date := S (default 0%nat (daily_merged_prs a !! merged_date))]>
           (daily_merged_prs a))
    | None => (daily, daily_merged_prs a)
    end in
  let participants :=
    if pr_credited pr
    then p_alter (incr_pr is_merged) (login (pr_user pr)) (p_ensure (pr_user pr) (participants a))
    else participants a in
  {| total_prs := S (total_prs a);
     merged_prs := if is_merged then S (merged_prs a) else merged_prs a;
     repo_stats := repo_stats;
     daily_activity := daily;
     daily_merged_prs := daily_merged;
     participants := participants |}.

(** The iteration as the code runs it: an exception of the comparison of
    line 261 leaves the function, and what the loop had counted is lost
    with it. *)
Definition pr_iteration (start_dt end_dt : pydatetime) (a : Acc) (pr : PullRequest)
    : result Acc :=
  match created_in_window start_dt end_dt a pr with
  | Val counted => Val (pr_update counted a pr)
  | Raise e => Raise e
  | Diverge => Diverge
  end.

(** The iteration for a window of two aware datetimes, where the test of
    line 261 is a boolean. *)
Definition pr_step (start_dt end_dt : datetime) (a : Acc) (pr : PullRequest) : Acc :=
  pr_update
    (bool_decide (is_Some (daily_activity a !! date_of (pr_created_at pr)))
     && between start_dt (pr_created_at pr) end_dt)
    a pr.

Definition review_state (r : Review) : string := default "" (rv_state r).

Definition review_summary (r : Review) : ReviewSummary :=
  {| rs_id := rv_id r;
     rs_state := rv_state r;
     rs_submitted_at := rv_submitted_at r;
     rs_html_url := default "" (rv_html_url r);
     rs_pull_request_url := default (default "" (rv_html_url r)) (rv_pull_request_url r);
     rs_pull_request_title := default "" (rv_pull_request_title r) |}.

(** The three [continue] guards of the review loop (lines 296-305). *)
Definition review_excluded (r : Review) : bool :=
  is_bot (login (rv_user r)) || is_copilot_login (login (rv_user r))
  || bool_decide (review_state r = "DISMISSED").

Definition review_in_window (start_dt end_dt : datetime) (r : Review) : bool :=
  match rv_submitted_at r with
  | None => false
  | Some submitted_at => between start_dt submitted_at end_dt
  end.

Definition review_counts (start_dt end_dt : datetime) (r : Review) : bool :=
  negb (review_excluded r) && review_in_window start_dt end_dt r.

(** One iteration of [for review in all_reviews] (lines 290-332). *)
Definition review_iteration (start_dt end_dt : pydatetime) (ps : list Participant)
    (r : Review) : result (list Participant) :=
  if review_excluded r then Val ps
  else match rv_submitted_at r with
       | None => Val ps
       | Some submitted_at =>
           match between_bounds start_dt submitted_at end_dt with
           | Val inside =>
               if negb inside then Val ps
               else Val (p_alter (add_review (review_summary r)) (login (rv_user r))
                           (p_ensure (rv_user r) ps))
           | Raise e => Raise e
           | Diverge => Diverge
           end
       end.

(** The iteration for a window of two aware datetimes. *)
Definition review_step (start_dt end_dt : datetime) (ps : list Participant)
    (r : Review) : list Participant :=
  if review_excluded r then ps
  else match rv_submitted_at r with
       | None => ps
       | Some submitted_at =>
           if negb (between start_dt submitted_at end_dt) then ps
           else p_alter (add_review (review_summary r)) (login (rv_user r))
                  (p_ensure (rv_user r) ps)
       end.

(** One iteration of [for issue in issues] (lines 337-345). *)
Definition issue_step (a : gmap string RepoStat * nat * nat) (i : Issue)
    : gmap string RepoStat * nat * nat :=
  let '(repo_stats, total_issues, closed_issues) := a in
  let repo_key := default "unknown" (is_repository i) in
  let closed := bool_decide (is_state i = "closed") in
  (alter (repo_add_issue closed) repo_key (repo_ensure repo_key repo_stats),
   S total_issues,
   if closed then S closed_issues else closed_issues).

(** [sorted(l, key=key, reverse=True)]: the stable sort into descending key
    order.  Stability and order determine the result, whatever the sorting
    algorithm; this one inserts from the right. *)
Fixpoint insert_desc {A} (key : A → nat) (x : A) (l : list A) : list A :=
  match l with
  | [] => [x]
  | y :: l' => if (key x <? key y)%nat then y :: insert_desc key x l' else x :: l
  end.

Definition sorted_desc {A} (key : A → nat) (l : list A) : list A :=
  foldr (insert_desc key) [] l.

(** The participants after both loops. *)
Definition participants_of (prs : list PullRequest) (all_reviews : list Review)
    (start_dt end_dt : datetime) (a0 : Acc) : list Participant :=
  foldl (review_step start_dt end_dt)
        (participants (foldl (pr_step start_dt end_dt) a0 prs)) all_reviews.

Definition init_acc (daily : gmap Z DayBucket) (repositories : list string) : Acc :=
  {| total_prs := 0; merged_prs := 0;
     repo_stats := foldl (λ m r, <[r := zero_repo]> m) ∅ repositories;
     daily_activity := daily;
     daily_merged_prs := ∅;
     participants := [] |}.

(** The dictionary returned at lines 359-370, from what the loops leave. *)
Definition stats_record (a : Acc) (participants : list Participant)
    (issue_totals : gmap string RepoStat * nat * nat) : Stats :=
  let '(repo_stats, total_issues, closed_issues) := issue_totals in
  {| totalPRs := total_prs a;
     mergedPRs := merged_prs a;
     totalIssues := total_issues;
     closedIssues := closed_issues;
     participantCount := length participants;
     leaderboard :=
       sorted_desc mergedCount
         (filter (λ p, (0 < mergedCount p)%nat) participants);
     reviewLeaderboard :=
       sorted_desc reviewCount
         (filter (λ p, (0 < reviewCount p)%nat) participants);
     repoStats := repo_stats;
     dailyActivity := daily_activity a;
     dailyMergedPRs := daily_merged_prs a;
     repoData := None |}.

Definition process_hackathon_stats (prs : list PullRequest) (all_reviews : list Review)
    (issues : list Issue) (start_dt end_dt : pydatetime) (repositories : list string)
    : result Stats :=
  match build_daily_activity (wall_clock start_dt) (wall_clock end_dt) with
  | Val daily0 =>
      let a0 := init_acc daily0 repositories in
      match fold_result (pr_iteration start_dt end_dt) a0 prs with
      | Val a =>
          match fold_result (review_iteration start_dt end_dt) (participants a)
                  all_reviews with
          | Val participants =>
              Val (stats_record a participants
                     (foldl issue_step (repo_stats a, 0%nat, 0%nat) issues))
          | Raise e => Raise e
          | Diverge => Diverge
          end
      | Raise e => Raise e
      | Diverge => Diverge
      end
  | Raise e => Raise e
  | Diverge => Diverge
  end.

End Aggregator.

(** ** The world outside the process

    Requests, sleeps and the log lines that report a skipped or failed unit
    are recorded in order of occurrence (newest first); the upstream API and
    the clock answer as functions of everything that happened before. *)

Inductive sort_param : Type := SortCreated | SortUpdated.

(** The paginated listings the code reads, each a base URL. *)
Inductive listing : Type :=
| OrgReposL (org : string)                       (* /orgs/{org}/repos?type=public *)
| PullsL (owner repo : string) (sort : sort_param) (* /repos/{o}/{r}/pulls?state=all&sort=..&direction=desc *)
| ReviewsL (owner repo : string) (pr_number : Z) (* /repos/{o}/{r}/pulls/{n}/reviews *)
| IssuesL (owner repo : string).                 (* /repos/{o}/{r}/issues?state=all&sort=created&direction=desc *)

Inductive api_url : Type :=
| PageUrl (base_url : listing) (page : nat)      (* {base_url}&per_page=100&page={page} *)
| RepoUrl (owner repo : string).                 (* /repos/{owner}/{repo} *)

(** An element of an organization listing: [r["full_name"]], when present. *)
Record OrgRepo : Type := { or_full_name : option string }.

Definition item (l : listing) : Type :=
  match l with
  | OrgReposL _ => OrgRepo
  | PullsL _ _ _ => PullRequest
  | ReviewsL _ _ _ => Review
  | IssuesL _ _ => Issue
  end.

(** The object that /repos/{owner}/{repo} answers with: the keys the code
    reads, each absent or present, and whether the object has any other key
    (an object without keys is falsy). *)
Record RepoBody : Type := {
  rb_full_name : option string;
  rb_description : option string;
  rb_stargazers_count : option Z;
  rb_forks_count : option Z;
  rb_language : option string;
  rb_html_url : option string;
  rb_other_keys : bool
}.

(** What [json.loads] gives for a well-formed body of each URL. *)
Definition json (u : api_url) : Type :=
  match u with
  | PageUrl l _ => list (item l)
  | RepoUrl _ _ => RepoBody
  end.

(** What one [urlopen] + [read] + [json.loads] does. *)
Inductive outcome (A : Type) : Type :=
| Success (body : A)
| HTTPError (code : Z) (rate_limit_reset : option Z)   (* e.code, X-RateLimit-Reset *)
| URLError
| Failure (e : exn).    (* raises something else: a body that is not JSON, a read timeout *)

Arguments Success {A} body.
Arguments HTTPError {A} code rate_limit_reset.
Arguments URLError {A}.
Arguments Failure {A} e.

Inductive log_line : Type :=
| WarnNoRepositories (name : string)             (* line 440 *)
| ErrorOrgRepos (organization : string) (e : exn) (* line 421 *)
| ErrorFailedHackathon (slug : string) (e : exn). (* line 595 *)

Inductive event : Type :=
| Request (u : api_url) (authorization : option string)
| Sleep (milliseconds : Z)
| Log (l : log_line).

(** A key of an object of the configuration: absent, null, or holding a
    value. *)
Inductive field (A : Type) : Type :=
| Absent
| Null
| Value (a : A).

Arguments Absent {A}.
Arguments Null {A}.
Arguments Value {A} a.

(** A time string of the configuration, by what
    [datetime.fromisoformat(x.replace("Z", "+00:00"))] makes of it. *)
Inductive time_string : Type :=
| Unparsable                   (* fromisoformat raises ValueError *)
| Parses (dt : pydatetime).

(** The snapshot echoes the two time strings of the event, which have been
    parsed by then. *)
Record Snapshot : Type := {
  lastUpdated : option datetime;
  snap_slug : string;
  snap_name : string;
  snap_startTime : pydatetime;
  snap_endTime : pydatetime;
  snap_repositories : list string;
  snap_stats : Stats
}.

(** A file under hackathon-data/: a snapshot, or something [json.load] rejects. *)
Inductive file : Type :=
| JsonFile (s : Snapshot)
| Unreadable.

Record SummaryEntry : Type := {
  se_slug : string; se_name : string;
  se_startTime : field time_string; se_endTime : field time_string
}.

Record Summary : Type := {
  sm_lastUpdated : datetime;
  sm_repositories : nat;
  sm_hackathonName : string;
  sm_startTime : field time_string;
  sm_endTime : field time_string;
  sm_hackathons : list SummaryEntry
}.

Record world : Type := {
  events : list event;                        (* newest first *)
  files : gmap string file;                   (* hackathon-data/{slug}.json, by slug *)
  stats_json : option Summary;                (* stats.json *)
  org_repos_cache : gmap string (list string) (* the dictionary created at line 568 *)
}.

Record environment : Type := {
  respond : list event → ∀ u : api_url, option string → outcome (json u);
  clock : list event → datetime               (* datetime.now(timezone.utc) *)
}.

(** ** Configuration document *)

(** [organization] is read with [.get] and tested for truth only, so an
    absent key and null are one case; [repositories] is passed to [list]
    and iterated, which null does not allow. *)
Record GithubConfig : Type := {
  organization : option string;
  repositories : field (list string)
}.

(** An event of the configuration.  A slug and a name, when present, are
    strings. *)
Record Hackathon : Type := {
  slug : option string;
  name : option string;
  startTime : field time_string;
  endTime : field time_string;
  github : field GithubConfig
}.

(** ** A state and exception monad over the world *)

Definition M (A : Type) : Type := world → result A * world.

Definition ret {A} (a : A) : M A := λ w, (Val a, w).
Definition raise {A} (e : exn) : M A := λ w, (Raise e, w).
Definition diverge {A} : M A := λ w, (Diverge, w).

(** A computation that does not touch the world. *)
Definition lift {A} (r : result A) : M A := λ w, (r, w).

Definition bind {A B} (m : M A) (f : A → M B) : M B :=
  λ w, match m w with
       | (Val a, w') => f a w'
       | (Raise e, w') => (Raise e, w')
       | (Diverge, w') => (Diverge, w')
       end.

Notation "'let*' x ':=' m 'in' f" := (bind m (λ x, f))
  (at level 10, x name, m at level 100, f at level 200).
Notation "'let*' ' p ':=' m 'in' f" := (bind m (λ p, f))
  (at level 10, p strict pattern, m at level 100, f at level 200).

(** [try: m except Exception as e: handler(e)].  Every [exn] is an
    [Exception]; [sys.exit] is modelled apart, in [main]. *)
Definition try_except {A} (m : M A) (handler : exn → M A) : M A :=
  λ w, match m w with
       | (Raise e, w') => handler e w'
       | r => r
       end.

Definition add_event (e : event) (w : world) : world :=
  {| events := e :: events w; files := files w;
     stats_json := stats_json w; org_repos_cache := org_repos_cache w |}.

Definition sleep (milliseconds : Z) : M unit :=
  λ w, (Val tt, add_event (Sleep milliseconds) w).

Definition log (l : log_line) : M unit :=
  λ w, (Val tt, add_event (Log l) w).

Definition get_world : M world := λ w, (Val w, w).

Definition write_file (slug : string) (s : Snapshot) : M unit :=
  λ w, (Val tt, {| events := events w; files := <[slug := JsonFile s]> (files w);
                   stats_json := stats_json w; org_repos_cache := org_repos_cache w |}).

Definition write_summary (s : Summary) : M unit :=
  λ w, (Val tt, {| events := events w; files := files w;
                   stats_json := Some s; org_repos_cache := org_repos_cache w |}).

Definition cache_store (org : string) (repos : list string) : M unit :=
  λ w, (Val tt, {| events := events w; files := files w; stats_json := stats_json w;
                   org_repos_cache := <[org := repos]> (org_repos_cache w) |}).

Definition cache_reset : M unit :=
  λ w, (Val tt, {| events := events w; files := files w; stats_json := stats_json w;
                   org_repos_cache := ∅ |}).

(** [for x in l: s = body(s, x)] *)
Fixpoint for_each {A S} (l : list A) (body : S → A → M S) (s : S) : M S :=
  match l with
  | [] => ret s
  | x :: l' => let* s' := body s x in for_each l' body s'
  end.

Definition unix_epoch : datetime := 719162 * us_per_day.     (* 1970-01-01T00:00:00Z *)
Definition per_page : nat := 100.

(** [s.split(sep)] for a one-character separator *)
Fixpoint split_on (sep : ascii) (s : string) : list string :=
  match s with
  | EmptyString => [EmptyString]
  | String c s' =>
      if Ascii.eqb c sep then EmptyString :: split_on sep s'
      else match split_on sep s' with
           | [] => [String c EmptyString]
           | p :: ps => String c p :: ps
           end
  end.

Module Fetcher.
Section WithEnvironment.

Variable env : environment.

Definition now : M datetime := λ w, (Val (clock env (events w)), w).

(** [int(time.time())]: the seconds since 1970, truncated towards zero. *)
Definition time_time : M Z := let* t := now in ret ((t - unix_epoch) ÷ 1000000).

(** One [urlopen(req, timeout=30)] with the body read and parsed. *)
Definition urlopen (u : api_url) (authorization : option string) : M (outcome (json u)) :=
  λ w, (Val (respond env (events w) u authorization),
        add_event (Request u authorization) w).

(** The headers of [make_request] (lines 56-61): only the credential varies. *)
Definition authorization_of (token : string) : option string :=
  if bool_decide (token = "") then None else Some ("Bearer " +:+ token).

(** [for attempt in range(retry_count)] (lines 63-89), from [attempt] on,
    with [remaining = retry_count - attempt] iterations to go. *)
Fixpoint make_request_loop (u : api_url) (token : string) (retry_count : nat)
    (remaining : nat) (attempt : nat) : M (option (json u)) :=
  match remaining with
  | O => ret None
  | S remaining' =>
      let* o := urlopen u (authorization_of token) in
      match o with
      | Success body => ret (Some body)
      | HTTPError code reset =>
          if (code =? 429) || (code =? 403) then
            let* t := time_time in
            let wait := match reset with
                        | Some reset => Z.max (reset - t + 5) 10
                        | None => 60
                        end in
            let* _ := sleep (1000 * Z.min wait 300) in
            make_request_loop u token retry_count remaining' (S attempt)
          else if code =? 404 then ret None
          else if Z.of_nat attempt <? Z.of_nat retry_count - 1 then
            let* _ := sleep (1000 * (5 * (Z.of_nat attempt + 1))) in
            make_request_loop u token retry_count remaining' (S attempt)
          else ret None
      | URLError =>
          if Z.of_nat attempt <? Z.of_nat retry_count - 1 then
            let* _ := sleep (1000 * (5 * (Z.of_nat attempt + 1))) in
            make_request_loop u token retry_count remaining' (S attempt)
          else ret None
      | Failure e => raise e
      end
  end.

Definition make_request (u : api_url) (token : string) (retry_count : nat)
    : M (option (json u)) :=
  make_request_loop u token retry_count retry_count 0.

(** [while True] of [fetch_all_pages] (lines 98-112); [fuel] bounds the
    number of pages requested. *)
Fixpoint fetch_pages_loop (fuel : nat) (base_url : listing) (token : string)
    (page : nat) (all_items : list (item base_url)) : M (list (item base_url)) :=
  match fuel with
  | O => diverge
  | S fuel' =>
      let* items := make_request (PageUrl base_url page) token 3 in
      match items with
      | None => ret all_items
      | Some [] => ret all_items
      | Some items =>
          let all_items := all_items ++ items in
          if (length items <? per_page)%nat then ret all_items
          else let* _ := sleep 200 in fetch_pages_loop fuel' base_url token (S page) all_items
      end
  end.

Definition fetch_all_pages (fuel : nat) (base_url : listing) (token : string)
    : M (list (item base_url)) :=
  fetch_pages_loop fuel base_url token 1 [].

Definition fetch_org_repos (fuel : nat) (org : string) (token : string)
    : M (list string) :=
  let* repos := fetch_all_pages fuel (OrgReposL org) token in
  ret (omap or_full_name repos).

Definition set_pr_repository (repository : string) (pr : PullRequest) : PullRequest :=
  {| pr_number := pr_number pr; pr_title := pr_title pr;
     pr_created_at := pr_created_at pr; pr_updated_at := pr_updated_at pr;
     pr_merged_at := pr_merged_at pr; pr_user := pr_user pr;
     pr_html_url := pr_html_url pr; pr_repository := Some repository |}.

(** [relevant_by_creation or relevant_by_merge] (lines 158-160 and 193-195):
    both comparisons are evaluated, the second when the record has the
    time. *)
Definition relevant (start_dt end_dt : pydatetime) (created_at : datetime)
    (other_at : option datetime) : result bool :=
  match between_bounds start_dt created_at end_dt with
  | Val by_creation =>
      match other_at with
      | Some t =>
          match between_bounds start_dt t end_dt with
          | Val by_other => Val (by_creation || by_other)
          | r => r
          end
      | None => Val by_creation
      end
  | r => r
  end.

(** The value of the test for a window of two aware datetimes. *)
Definition pr_relevant (start_dt end_dt : datetime) (pr : PullRequest) : bool :=
  between start_dt (pr_created_at pr) end_dt
  || match pr_merged_at pr with
     | Some merged_at => between start_dt merged_at end_dt
     | None => false
     end.

(** [since and updated_at < since] (line 154) *)
Definition before_watermark (since : option datetime) (pr : PullRequest) : bool :=
  match since with
  | Some since => pr_updated_at pr <? since
  | None => false
  end.

(** [for pr in all_prs] with its [break] (lines 143-162). *)
Fixpoint filter_pull_requests (repository : string) (start_dt end_dt : pydatetime)
    (since : option datetime) (all_prs filtered : list PullRequest)
    : result (list PullRequest) :=
  match all_prs with
  | [] => Val filtered
  | pr :: rest =>
      if before_watermark since pr then Val filtered
      else
        match relevant start_dt end_dt (pr_created_at pr) (pr_merged_at pr) with
        | Val is_relevant =>
            filter_pull_requests repository start_dt end_dt since rest
              (if is_relevant
               then filtered ++ [set_pr_repository repository pr]
               else filtered)
        | Raise e => Raise e
        | Diverge => Diverge
        end
  end.

Definition fetch_pull_requests (fuel : nat) (owner repo : string)
    (start_dt end_dt : pydatetime) (token : string) (since : option datetime)
    : M (list PullRequest) :=
  let sort := match since with Some _ => SortUpdated | None => SortCreated end in
  let* all_prs := fetch_all_pages fuel (PullsL owner repo sort) token in
  lift (filter_pull_requests (owner +:+ "/" +:+ repo) start_dt end_dt since all_prs []).

Definition fetch_reviews_for_pr (fuel : nat) (owner repo : string) (pr_number : Z)
    (token : string) : M (list Review) :=
  fetch_all_pages fuel (ReviewsL owner repo pr_number) token.

Definition set_issue_repository (repository : string) (i : Issue) : Issue :=
  {| is_pull_request := is_pull_request i; is_state := is_state i;
     is_created_at := is_created_at i; is_closed_at := is_closed_at i;
     is_repository := Some repository |}.

(** The value of the test for a window of two aware datetimes. *)
Definition issue_relevant (start_dt end_dt : datetime) (i : Issue) : bool :=
  between start_dt (is_created_at i) end_dt
  || match is_closed_at i with
     | Some closed_at => between start_dt closed_at end_dt
     | None => false
     end.

(** [for item in all_items] (lines 183-197). *)
Fixpoint filter_issues (repository : string) (start_dt end_dt : pydatetime)
    (all_items filtered : list Issue) : result (list Issue) :=
  match all_items with
  | [] => Val filtered
  | item :: rest =>
      if is_pull_request item then filter_issues repository start_dt end_dt rest filtered
      else
        match relevant start_dt end_dt (is_created_at item) (is_closed_at item) with
        | Val is_relevant =>
            filter_issues repository start_dt end_dt rest
              (if is_relevant
               then filtered ++ [set_issue_repository repository item]
               else filtered)
        | Raise e => Raise e
        | Diverge => Diverge
        end
  end.

Definition fetch_issues (fuel : nat) (owner repo : string)
    (start_dt end_dt : pydatetime) (token : string) : M (list Issue) :=
  let* all_items := fetch_all_pages fuel (IssuesL owner repo) token in
  lift (filter_issues (owner +:+ "/" +:+ repo) start_dt end_dt all_items []).

(** [if data:] for the object of a repository (line 207) *)
Definition truthy (data : RepoBody) : bool :=
  bool_decide (is_Some (rb_full_name data)) || bool_decide (is_Some (rb_description data))
  || bool_decide (is_Some (rb_stargazers_count data))
  || bool_decide (is_Some (rb_forks_count data))
  || bool_decide (is_Some (rb_language data)) || bool_decide (is_Some (rb_html_url data))
  || rb_other_keys data.

Definition fetch_repo_metadata (owner repo : string) (token : string)
    : M (option RepoData) :=
  let* data := make_request (RepoUrl owner repo) token 3 in
  match data with
  | Some data =>
      if truthy data then
        ret (Some {| rd_full_name := rb_full_name data;
                     rd_description := rb_description data;
                     rd_stargazers_count := default 0 (rb_stargazers_count data);
                     rd_forks_count := default 0 (rb_forks_count data);
                     rd_language := rb_language data;
                     rd_html_url := rb_html_url data |})
      else ret None
  | None => ret None
  end.

End WithEnvironment.
End Fetcher.

(** ** [process_hackathon] and [main] *)

(** Whether the caller passed the shared dictionary, or left the default None. *)
Inductive cache_arg : Type := NoCache | SharedCache.

Inductive exit_status : Type :=
| Completed
| Exited (code : Z).       (* sys.exit(code) *)

Module Pipeline.
Section WithEnvironment.

Variable env : environment.
Variable fuel : nat.       (* pages a single listing may take *)

Import Fetcher.

(** [d[key]] for the slug and the name *)
Definition subscript {A} (key : option A) : M A :=
  match key with Some a => ret a | None => raise KeyError end.

(** [d[key]] for a key that may hold null: the value, None for null *)
Definition subscript_field {A} (key : field A) : M (option A) :=
  match key with
  | Absent => raise KeyError
  | Null => ret None
  | Value a => ret (Some a)
  end.

(** [d.get(key)] *)
Definition dict_get {A} (key : field A) : option A :=
  match key with Value a => Some a | _ => None end.

(** Lines 383-385: [hackathon_config.get("github", {})], then
    [.get("organization")] and [list(.get("repositories", []))] of it. *)
Definition github_settings (github : field GithubConfig)
    : M (option string * list string) :=
  match github with
  | Absent => ret (None, [])
  | Null => raise AttributeError
  | Value github_config =>
      match repositories github_config with
      | Absent => ret (organization github_config, [])
      | Null => raise TypeError
      | Value explicit_repos => ret (organization github_config, explicit_repos)
      end
  end.

(** [datetime.fromisoformat(x.replace("Z", "+00:00"))]: None has no method
    [replace]. *)
Definition fromisoformat (x : option time_string) : M pydatetime :=
  match x with
  | None => raise AttributeError
  | Some Unparsable => raise ValueError
  | Some (Parses dt) => ret dt
  end.

Definition is_hackathon_active (start_time end_time : option time_string) : M bool :=
  let* t := now env in
  let* end_dt := fromisoformat end_time in
  lift (le_bound t end_dt).

Definition load_existing_data (slug : string) : M (option Snapshot) :=
  let* w := get_world in
  match files w !! slug with
  | Some (JsonFile s) => ret (Some s)
  | Some Unreadable => ret None
  | None => ret None
  end.

(** The watermark of an incremental update (lines 392-399). *)
Definition watermark (existing_data : option Snapshot) : M (option datetime) :=
  match existing_data with
  | Some existing_data =>
      match lastUpdated existing_data with
      | Some last_updated =>
          let* since := lift (datetime_sub last_updated (timedelta_minutes 5)) in
          ret (Some since)
      | None => ret None
      end
  | None => ret None
  end.

(** Lines 408-441.  [list({*repositories, *org_repos})] lists a set in an
    order Python leaves open; the order of [elements] stands for it, and
    nothing below depends on it. *)
Definition resolve_repositories (name : string) (organization : option string)
    (explicit_repos : list string) (token : string) (cache : cache_arg)
    : M (option (list string)) :=
  let repositories := explicit_repos in
  let* repositories :=
    match organization with
    | None => ret repositories
    | Some organization =>
        if bool_decide (organization = "") then ret repositories
        else
          let* w := get_world in
          let* org_repos :=
            match cache, org_repos_cache w !! organization with
            | SharedCache, Some org_repos => ret org_repos
            | _, _ =>
                try_except
                  (let* org_repos := fetch_org_repos env fuel organization token in
                   let* _ := match org_repos, cache with
                             | _ :: _, SharedCache => cache_store organization org_repos
                             | _, _ => ret tt
                             end in
                   ret org_repos)
                  (λ e, let* _ := log (ErrorOrgRepos organization e) in ret [])
            end in
          match org_repos with
          | [] => ret repositories
          | _ :: _ =>
              ret (elements (list_to_set repositories ∪ list_to_set org_repos : gset string))
          end
    end in
  match repositories with
  | [] => let* _ := log (WarnNoRepositories name) in ret None
  | _ :: _ => ret (Some repositories)
  end.

(** [parts = repo_path.split("/")], when [len(parts) == 2] *)
Definition repo_parts (repo_path : string) : option (string * string) :=
  match split_on "/" repo_path with
  | [owner; repo] => Some (owner, repo)
  | _ => None
  end.

Definition tag_review (repo_path : string) (pr : PullRequest) (r : Review) : Review :=
  {| rv_id := rv_id r; rv_user := rv_user r; rv_state := rv_state r;
     rv_submitted_at := rv_submitted_at r; rv_html_url := rv_html_url r;
     rv_repository := Some repo_path;
     rv_pull_request_url := Some (default "" (pr_html_url pr));
     rv_pull_request_title := Some (default "" (pr_title pr)) |}.

Definition set_repoData (repo_data : list RepoData) (s : Stats) : Stats :=
  {| totalPRs := totalPRs s; mergedPRs := mergedPRs s;
     totalIssues := totalIssues s; closedIssues := closedIssues s;
     participantCount := participantCount s;
     leaderboard := leaderboard s; reviewLeaderboard := reviewLeaderboard s;
     repoStats := repoStats s; dailyActivity := dailyActivity s;
     dailyMergedPRs := dailyMergedPRs s; repoData := Some repo_data |}.

(** Lines 443-459 *)
Definition fetch_all_prs (repositories : list string) (start_dt end_dt : pydatetime)
    (token : string) (since : option datetime)
    : M (list PullRequest * list PullRequest) :=
  for_each repositories
    (λ '(all_prs, new_or_updated_prs) repo_path,
       match repo_parts repo_path with
       | None => ret (all_prs, new_or_updated_prs)
       | Some (owner, repo) =>
           try_except
             (let* prs := fetch_pull_requests env fuel owner repo start_dt end_dt token since in
              ret (all_prs ++ prs,
                   match since with
                   | Some _ => new_or_updated_prs ++ prs
                   | None => new_or_updated_prs
                   end))
             (λ _, ret (all_prs, new_or_updated_prs))
       end)
    ([], []).

(** Lines 466-493 *)
Definition fetch_all_reviews (prs_to_fetch_reviews : list PullRequest) (token : string)
    : M (list Review) :=
  for_each prs_to_fetch_reviews
    (λ all_reviews pr,
       let repo_path := default "" (pr_repository pr) in
       match repo_parts repo_path with
       | None => ret all_reviews
       | Some (owner, repo) =>
           try_except
             (let* reviews := fetch_reviews_for_pr env fuel owner repo (pr_number pr) token in
              ret (all_reviews ++ (tag_review repo_path pr <$> reviews)))
             (λ _, ret all_reviews)
       end)
    [].

(** Lines 495-506 *)
Definition fetch_all_issues (repositories : list string) (start_dt end_dt : pydatetime)
    (token : string) : M (list Issue) :=
  for_each repositories
    (λ all_issues repo_path,
       match repo_parts repo_path with
       | None => ret all_issues
       | Some (owner, repo) =>
           try_except
             (let* issues := fetch_issues env fuel owner repo start_dt end_dt token in
              ret (all_issues ++ issues))
             (λ _, ret all_issues)
       end)
    [].

(** Lines 510-522 *)
Definition fetch_all_metadata (repositories : list string) (token : string)
    : M (list RepoData) :=
  for_each repositories
    (λ repo_data repo_path,
       match repo_parts repo_path with
       | None => ret repo_data
       | Some (owner, repo) =>
           try_except
             (let* meta := fetch_repo_metadata env owner repo token in
              ret (match meta with Some meta => repo_data ++ [meta] | None => repo_data end))
             (λ _, ret repo_data)
       end)
    [].

Definition process_hackathon (hackathon_config : Hackathon) (token : string)
    (cache : cache_arg) : M (option Snapshot) :=
  let* slug := subscript (slug hackathon_config) in
  let* name := subscript (name hackathon_config) in
  let* start_time := subscript_field (startTime hackathon_config) in
  let* end_time := subscript_field (endTime hackathon_config) in
  let* '(organization, explicit_repos) := github_settings (github hackathon_config) in
  let* start_dt := fromisoformat start_time in
  let* end_dt := fromisoformat end_time in
  let* existing_data := load_existing_data slug in
  let* since := watermark existing_data in
  let* resolved := resolve_repositories name organization explicit_repos token cache in
  match resolved with
  | None => ret None
  | Some repositories =>
      let* '(all_prs, new_or_updated_prs) :=
        fetch_all_prs repositories start_dt end_dt token since in
      let prs_to_fetch_reviews :=
        match since with Some _ => new_or_updated_prs | None => all_prs end in
      let* all_reviews := fetch_all_reviews prs_to_fetch_reviews token in
      let* all_issues := fetch_all_issues repositories start_dt end_dt token in
      let* repo_data := fetch_all_metadata repositories token in
      let* stats :=
        lift (Aggregator.process_hackathon_stats
                all_prs all_reviews all_issues start_dt end_dt repositories) in
      let* t := now env in
      ret (Some {| lastUpdated := Some t;
                   snap_slug := slug; snap_name := name;
                   snap_startTime := start_dt; snap_endTime := end_dt;
                   snap_repositories := repositories;
                   snap_stats := set_repoData repo_data stats |})
  end.

(** One iteration of [for hackathon in hackathons] (lines 570-598). *)
Definition main_body (token : string) (hackathon : Hackathon) : M unit :=
  let slug := default "unknown" (slug hackathon) in
  let* active :=
    is_hackathon_active (dict_get (startTime hackathon)) (dict_get (endTime hackathon)) in
  let* w := get_world in
  if negb active && bool_decide (is_Some (files w !! slug)) then ret tt
  else
    try_except
      (let* data := process_hackathon hackathon token SharedCache in
       match data with
       | Some data => write_file slug data
       | None => ret tt
       end)
      (λ e, log (ErrorFailedHackathon slug e)).

Definition main_loop (token : string) (hackathons : list Hackathon) : M unit :=
  for_each hackathons (λ _ hackathon, main_body token hackathon) tt.

(** The explicit list of an event, when its configuration has one. *)
Definition explicit_of (h : Hackathon) : list string :=
  match github h with
  | Value github_config => default [] (dict_get (repositories github_config))
  | _ => []
  end.

(** Lines 602-605:
    [for h in hackathons: for r in h.get("github", {}).get("repositories", [])]. *)
Definition summary_repositories (hackathons : list Hackathon) : result (gset string) :=
  fold_result
    (λ all_repos h,
       match github h with
       | Absent => Val all_repos
       | Null => Raise AttributeError
       | Value github_config =>
           match repositories github_config with
           | Absent => Val all_repos
           | Null => Raise TypeError
           | Value explicit_repos => Val (all_repos ∪ list_to_set explicit_repos)
           end
       end)
    ∅ hackathons.

Definition summary_of (t : datetime) (hackathons : list Hackathon)
    (all_repos : gset string) : Summary :=
  let primary := head hackathons in
  {| sm_lastUpdated := t;
     sm_repositories := size all_repos;
     sm_hackathonName := default "" (primary ≫= name);
     sm_startTime := default (Value Unparsable) (startTime <$> primary);
     sm_endTime := default (Value Unparsable) (endTime <$> primary);
     sm_hackathons :=
       (λ h, {| se_slug := default "" (slug h); se_name := default "" (name h);
                se_startTime := startTime h; se_endTime := endTime h |}) <$> hackathons |}.

(** [config] is [None] when the configuration file does not exist. *)
Definition main (config : option (list Hackathon)) (token : string) : M exit_status :=
  match config with
  | None => ret (Exited 1)
  | Some [] => ret (Exited 1)
  | Some hackathons =>
      let* _ := cache_reset in
      let* _ := main_loop token hackathons in
      let* all_repos := lift (summary_repositories hackathons) in
      let* t := now env in
      let* _ := write_summary (summary_of t hackathons all_repos) in
      ret Completed
  end.

End WithEnvironment.
End Pipeline.

(** * Vocabulary of the properties *)

(** Zero buckets written for the dates of [l]. *)
Definition zero_range (m : gmap Z DayBucket) (l : list Z) : gmap Z DayBucket :=
  foldr (λ d acc, <[d := zero_day]> acc) m l.

(** The date loop of [process_hackathon_stats] ends without stepping past
    [date.max]: the range is empty, or it ends before 9999-12-31. *)
Definition returns_daily (start_dt end_dt : Z) : Prop :=
  date_of end_dt < date_of start_dt ∨ date_of end_dt < date_max.

(** [bool(pr.get("merged_at"))] *)
Definition pr_merged (pr : PullRequest) : bool :=
  bool_decide (is_Some (pr_merged_at pr)).

(** The dictionary read [participants.get(u)]. *)
Definition p_lookup (u : string) (ps : list Participant) : option Participant :=
  List.find (λ p, bool_decide (username p = u)) ps.

(** Logins in the order in which they are first met. *)
Definition first_seen_step (seen : list string) (u : string) : list string :=
  if decide (u ∈ seen) then seen else seen ++ [u].

Definition first_seen (l : list string) : list string :=
  foldl first_seen_step [] l.

(** The pull requests that credit login [u], and the reviews attributed to it. *)
Definition credited_prs (u : string) (prs : list PullRequest) : list PullRequest :=
  filter (λ pr, login (pr_user pr) = u ∧ Aggregator.pr_credited pr) prs.

Definition counted_reviews (u : string) (start_dt end_dt : Z) (rvs : list Review)
    : list Review :=
  filter (λ r, login (rv_user r) = u ∧ Aggregator.review_counts start_dt end_dt r) rvs.

(** The logins credited by the two loops, in the order the loops meet them. *)
Definition credited_logins (prs : list PullRequest) (start_dt end_dt : Z)
    (rvs : list Review) : list string :=
  ((λ pr, login (pr_user pr)) <$> filter (λ pr, Aggregator.pr_credited pr) prs)
  ++ ((λ r, login (rv_user r)) <$> filter (λ r, Aggregator.review_counts start_dt end_dt r) rvs).

(** What a participant record must hold after [prs] and [rvs]. *)
Definition participant_ok (prs : list PullRequest) (start_dt end_dt : Z)
    (rvs : list Review) (p : Participant) : Prop :=
  prCount p = length (credited_prs (username p) prs)
  ∧ mergedCount p = length (filter (λ pr, pr_merged pr) (credited_prs (username p) prs))
  ∧ reviewCount p = length (counted_reviews (username p) start_dt end_dt rvs)
  ∧ reviews p = Aggregator.review_summary <$> counted_reviews (username p) start_dt end_dt rvs.

(** The books are in order after [prs] and [rvs]: the participants are listed
    in first-seen order and each record is right. *)
Definition participants_inv (prs : list PullRequest) (s e : Z) (rvs : list Review)
    (ps : list Participant) : Prop :=
  username <$> ps = first_seen (credited_logins prs s e rvs)
  ∧ ∀ p, p ∈ ps → participant_ok prs s e rvs p.

(** Insert-default-then-mutate, the one way both loops touch [participants]. *)
Definition credit (u : User) (f : Participant → Participant) (ps : list Participant)
    : list Participant :=
  Aggregator.p_alter f (login u) (Aggregator.p_ensure u ps).

(** Descending order of [key]. *)
Definition key_desc {A} (key : A → nat) (x y : A) : Prop := (key y ≤ key x)%nat.

(** [lb] ranks the records of [ps] by [key]: exactly those with a positive
    key, in descending key order, records of equal key in the order of [ps]. *)
Definition ranking_of (key : Participant → nat) (ps lb : list Participant) : Prop :=
  lb ≡ₚ filter (λ p, (0 < key p)%nat) ps
  ∧ (∀ i j p q, (i < j)%nat → lb !! i = Some p → lb !! j = Some q →
       (key q ≤ key p)%nat)
  ∧ (∀ k, filter (λ p, key p = k) lb
          = filter (λ p, key p = k) (filter (λ p, (0 < key p)%nat) ps)).

(** ** Concrete inputs *)

(** The instant [h:m:s] UTC on the day of ordinal [day]. *)
Definition utc (day h m s : Z) : Z :=
  (((day - 1) * 24 + h) * 60 + m) * 60000000 + s * 1000000.

Definition jan_1_2024 : Z := 738886.      (* date(2024, 1, 1).toordinal() *)

Definition user_of (l : string) : User :=
  {| login := l; avatar_url := None; user_html_url := None |}.

Definition pr_of (n : Z) (author title : string) (created updated : Z)
    (merged : option Z) : PullRequest :=
  {| pr_number := n; pr_title := Some title;
     pr_created_at := created; pr_updated_at := updated; pr_merged_at := merged;
     pr_user := user_of author; pr_html_url := None;
     pr_repository := Some "acme/widgets" |}.

Definition review_of (reviewer state : string) (submitted : option Z) : Review :=
  {| rv_id := Some 1; rv_user := user_of reviewer; rv_state := Some state;
     rv_submitted_at := submitted; rv_html_url := None;
     rv_repository := Some "acme/widgets";
     rv_pull_request_url := None; rv_pull_request_title := None |}.

(** The window 2024-01-01T00:00:00Z - 2024-01-03T00:00:00Z. *)
Definition window_start : Z := utc jan_1_2024 0 0 0.
Definition window_end : Z := utc (jan_1_2024 + 2) 0 0 0.

(** Two merged pull requests, on Jan 1 and Jan 2, and a closed issue on Jan 1. *)
Definition scenario_prs : list PullRequest :=
  [ pr_of 1 "alice" "Add widget" (utc jan_1_2024 9 0 0) (utc jan_1_2024 12 0 0)
      (Some (utc jan_1_2024 12 0 0));
    pr_of 2 "bob" "Fix widget" (utc (jan_1_2024 + 1) 9 0 0) (utc (jan_1_2024 + 1) 12 0 0)
      (Some (utc (jan_1_2024 + 1) 12 0 0)) ].

Definition scenario_issues : list Issue :=
  [ {| is_pull_request := false; is_state := "closed";
       is_created_at := utc jan_1_2024 8 0 0;
       is_closed_at := Some (utc jan_1_2024 10 0 0);
       is_repository := Some "acme/widgets" |} ].

(** ["copilot" in title.lower()] *)
Definition title_mentions_copilot (pr : PullRequest) : bool :=
  str_in "copilot" (lower (Aggregator.pr_title_str pr)).

(** The exclusion rule read as a rule on authors: whoever wrote a pull request
    that the bot or Copilot tests match is on no merged-PR leaderboard. *)
Definition excluded_author_never_ranked (prs : list PullRequest) (rvs : list Review)
    (issues : list Issue) (start_dt end_dt : Z) (repos : list string) : Prop :=
  ∀ st pr,
    Aggregator.process_hackathon_stats prs rvs issues (Aware start_dt) (Aware end_dt) repos
      = Val st →
    pr ∈ prs →
    Aggregator.is_bot (login (pr_user pr)) = true
    ∨ Aggregator.is_copilot_pr (login (pr_user pr)) (Aggregator.pr_title_str pr) = true →
    ∀ p, p ∈ leaderboard st → username p ≠ login (pr_user pr).

(** One author, two merged pull requests, one of them titled after Copilot. *)
Definition copilot_title_prs : list PullRequest :=
  [ pr_of 1 "alice" "Apply Copilot suggestions" (utc jan_1_2024 9 0 0)
      (utc jan_1_2024 12 0 0) (Some (utc jan_1_2024 12 0 0));
    pr_of 2 "alice" "Fix widget" (utc (jan_1_2024 + 1) 9 0 0)
      (utc (jan_1_2024 + 1) 12 0 0) (Some (utc (jan_1_2024 + 1) 12 0 0)) ].

(** Bots, a Copilot title, and reviews of every kind. *)
Definition mixed_prs : list PullRequest :=
  [ pr_of 1 "dependabot[bot]" "Bump widget" (utc jan_1_2024 9 0 0)
      (utc jan_1_2024 12 0 0) (Some (utc jan_1_2024 12 0 0));
    pr_of 2 "alice" "Apply Copilot suggestions" (utc jan_1_2024 9 0 0)
      (utc jan_1_2024 12 0 0) (Some (utc jan_1_2024 12 0 0));
    pr_of 3 "bob" "Fix widget" (utc (jan_1_2024 + 1) 9 0 0)
      (utc (jan_1_2024 + 1) 12 0 0) (Some (utc (jan_1_2024 + 1) 12 0 0));
    pr_of 4 "alice" "Add gadget" (utc (jan_1_2024 + 1) 9 0 0)
      (utc (jan_1_2024 + 1) 12 0 0) (Some (utc (jan_1_2024 + 1) 13 0 0));
    pr_of 5 "carol" "Add gizmo" (utc (jan_1_2024 + 1) 9 0 0)
      (utc (jan_1_2024 + 1) 12 0 0) (Some (utc (jan_1_2024 + 1) 14 0 0)) ].

Definition mixed_reviews : list Review :=
  [ review_of "carol" "APPROVED" (Some (utc jan_1_2024 13 0 0));
    review_of "carol" "DISMISSED" (Some (utc jan_1_2024 14 0 0));
    review_of "dave" "COMMENTED" None;
    review_of "dave" "APPROVED" (Some (utc (jan_1_2024 + 5) 14 0 0));
    review_of "some-app-bot" "APPROVED" (Some (utc jan_1_2024 15 0 0));
    review_of "erin" "APPROVED" (Some window_end) ].

(** ** Vocabulary of the fetch properties *)

(** The [sort] parameter of the pull-request listing. *)
Definition sort_of (since : option Z) : sort_param :=
  match since with Some _ => SortUpdated | None => SortCreated end.

(** The records the loop of [fetch_pull_requests] reaches: those before the
    first one whose update time is older than the watermark. *)
Fixpoint fresh_prefix (since : option Z) (all_prs : list PullRequest)
    : list PullRequest :=
  match all_prs with
  | [] => []
  | pr :: rest =>
      if Fetcher.before_watermark since pr then []
      else pr :: fresh_prefix since rest
  end.

(** Newest update first. *)
Definition updated_desc (all_prs : list PullRequest) : Prop :=
  StronglySorted (λ p q, pr_updated_at q ≤ pr_updated_at p) all_prs.

(** A creation or merge time inside [start, end], both ends included. *)
Definition in_closed_window (start_dt end_dt : Z) (pr : PullRequest) : Prop :=
  start_dt ≤ pr_created_at pr ≤ end_dt
  ∨ ∃ merged_at, pr_merged_at pr = Some merged_at ∧ start_dt ≤ merged_at ≤ end_dt.

(** A creation or merge time inside [start, end), the window of the data model. *)
Definition in_half_open_window (start_dt end_dt : Z) (pr : PullRequest) : Prop :=
  start_dt ≤ pr_created_at pr < end_dt
  ∨ ∃ merged_at, pr_merged_at pr = Some merged_at ∧ start_dt ≤ merged_at < end_dt.

(** A pull request opened at the very instant the window ends. *)
Definition pr_at_window_end : PullRequest :=
  pr_of 7 "alice" "Last call" window_end window_end None.

(** An upstream that answers every request the same way, and a clock that
    stands still. *)
Definition fixed_env (answer : ∀ u : api_url, outcome (json u)) (t : Z) : environment :=
  {| respond := λ _ u _, answer u; clock := λ _, t |}.

Definition empty_listing (l : listing) : outcome (list (item l)) := Success [].

(** Nothing upstream: every listing is empty and no repository exists. *)
Definition nothing_upstream : ∀ u : api_url, outcome (json u) :=
  λ u, match u with
       | PageUrl l _ => empty_listing l
       | RepoUrl _ _ => HTTPError 404 None
       end.

(** The first page of every pull-request listing holds [prs]; nothing else
    exists. *)
Definition serving_pulls (prs : list PullRequest) : ∀ u : api_url, outcome (json u) :=
  λ u, match u with
       | PageUrl (PullsL _ _ _) 1 => Success prs
       | PageUrl l _ => empty_listing l
       | RepoUrl _ _ => HTTPError 404 None
       end.

Definition empty_world : world :=
  {| events := []; files := ∅; stats_json := None; org_repos_cache := ∅ |}.

(** A prior snapshot of the scenario, last updated at [t]. *)
Definition snapshot_at (t : Z) : Snapshot :=
  {| lastUpdated := Some t; snap_slug := "widgets"; snap_name := "Widgets";
     snap_startTime := Aware window_start; snap_endTime := Aware window_end;
     snap_repositories := ["acme/widgets"];
     snap_stats :=
       {| totalPRs := 0; mergedPRs := 0; totalIssues := 0; closedIssues := 0;
          participantCount := 0; leaderboard := []; reviewLeaderboard := [];
          repoStats := ∅; dailyActivity := ∅; dailyMergedPRs := ∅;
          repoData := None |} |}.

(** Midday of Jan 2, and three pull requests around it, newest update first. *)
Definition noon_jan_2 : Z := utc (jan_1_2024 + 1) 12 0 0.

Definition incremental_prs : list PullRequest :=
  [ pr_of 3 "alice" "Add widget" (utc jan_1_2024 9 0 0)
      (noon_jan_2 + timedelta_minutes 1) None;
    pr_of 2 "bob" "Fix widget" (utc jan_1_2024 10 0 0)
      (noon_jan_2 - timedelta_minutes 10) None;
    pr_of 1 "carol" "Old widget" (utc jan_1_2024 11 0 0)
      (noon_jan_2 - timedelta_minutes 90) None ].

(** The relevance filter read on the half-open window, for an upstream whose
    listing of acme/widgets is [all_prs]. *)
Definition retained_iff_in_half_open_window (start_dt end_dt : Z)
    (all_prs : list PullRequest) : Prop :=
  ∀ filtered w',
    Fetcher.fetch_pull_requests (fixed_env (serving_pulls all_prs) start_dt) 1
      "acme" "widgets" (Aware start_dt) (Aware end_dt) "" None empty_world
      = (Val filtered, w') →
    ∀ pr, pr ∈ all_prs →
      Fetcher.set_pr_repository "acme/widgets" pr ∈ filtered
      ↔ in_half_open_window start_dt end_dt pr.

(** ** Vocabulary of the request properties *)

(** A failed attempt that is retried after a linear back-off: a URL error, or
    an HTTP error other than 429, 403 and 404. *)
Definition transient {A} (o : outcome A) : Prop :=
  match o with
  | URLError => True
  | HTTPError code _ => code ≠ 429 ∧ code ≠ 403 ∧ code ≠ 404
  | _ => False
  end.

Definition is_request (ev : event) : bool :=
  match ev with Request _ _ => true | _ => false end.

(** An upstream whose bodies are not JSON: [json.loads] raises ValueError. *)
Definition not_json : ∀ u : api_url, outcome (json u) := λ _, Failure ValueError.

(** The wait on HTTP 429 or 403, in milliseconds: what the reset hint says
    plus five seconds, counted from the Unix time read when the answer
    arrives, at least 10 s and at most 300 s; 60 s without hint. *)
Definition rate_limit_wait (reset : option Z) (unix_now : Z) : Z :=
  1000 * Z.min (match reset with
                | Some reset => Z.max (reset - unix_now + 5) 10
                | None => 60
                end) 300.

(** The whole seconds since 1970 of an instant, rounded towards zero. *)
Definition unix_seconds (t : Z) : Z := (t - unix_epoch) ÷ 1000000.

(** What the contract of [make_request] makes of the answer to attempt
    number [attempt] (1, 2 or 3): a result, an exception, or a pause before
    the next attempt. *)
Inductive reaction (A : Type) : Type :=
| Returns (v : option A)
| Raises (e : exn)
| Pauses (milliseconds : Z).

Arguments Returns {A} v.
Arguments Raises {A} e.
Arguments Pauses {A} milliseconds.

Definition reaction_to {A} (o : outcome A) (attempt : Z) (unix_now : Z) : reaction A :=
  match o with
  | Success body => Returns (Some body)
  | Failure e => Raises e
  | HTTPError code reset =>
      if decide (code = 429 ∨ code = 403) then Pauses (rate_limit_wait reset unix_now)
      else if decide (code = 404) then Returns None
      else if decide (attempt < 3) then Pauses (5000 * attempt)
      else Returns None
  | URLError =>
      if decide (attempt < 3) then Pauses (5000 * attempt) else Returns None
  end.

(** One attempt: the request is sent, and the answer is returned, raised, or
    slept on before [next]. *)
Definition attempt_then (env : environment) (u : api_url) (auth : option string)
    (attempt : Z) (next : world → result (option (json u)) * world) (w : world)
    : result (option (json u)) * world :=
  let w1 := add_event (Request u auth) w in
  match reaction_to (respond env (events w) u auth) attempt
          (unix_seconds (clock env (events w1))) with
  | Returns v => (Val v, w1)
  | Raises e => (Raise e, w1)
  | Pauses ms => next (add_event (Sleep ms) w1)
  end.

(** The contract: three attempts at most, None after the pause of the
    third. *)
Definition contract (env : environment) (u : api_url) (auth : option string)
    : world → result (option (json u)) * world :=
  attempt_then env u auth 1
    (attempt_then env u auth 2
       (attempt_then env u auth 3 (λ w, (Val None, w)))).

(** [make_request] read as a function that never raises. *)
Definition make_request_never_raises (env : environment) (u : api_url)
    (token : string) (w : world) : Prop :=
  ∀ e, (Fetcher.make_request env u token 3 w).1 ≠ Raise e.

(** ** Vocabulary of the cache properties *)

(** The URL is a page of the repository listing of [org]. *)
Definition is_org_url (org : string) (u : api_url) : bool :=
  match u with
  | PageUrl (OrgReposL o) _ => bool_decide (o = org)
  | _ => false
  end.

Definition is_org_request (org : string) (ev : event) : bool :=
  match ev with
  | Request u _ => is_org_url org u
  | _ => false
  end.

(** How many requests for the listing of [org] the record holds. *)
Definition org_listing_requests (org : string) (evs : list event) : nat :=
  length (filter (λ ev, is_org_request org ev) evs).

(** A computation that, started with listing [v] cached for [org], leaves
    that entry as it is and asks upstream for no page of the listing. *)
Definition keeps {A} (org : string) (v : list string) (m : M A) : Prop :=
  ∀ w r w',
    org_repos_cache w !! org = Some v → m w = (r, w') →
    org_repos_cache w' !! org = Some v
    ∧ org_listing_requests org (events w') = org_listing_requests org (events w).

(** ** Concrete configurations *)

(** The end time of the event is a string that parses with a UTC offset. *)
Definition has_aware_end (h : Hackathon) : Prop :=
  ∃ end_dt, endTime h = Value (Parses (Aware end_dt)).

(** A time key absent, or holding an instant written with Z. *)
Definition utc_time (t : option Z) : field time_string :=
  match t with
  | Some t => Value (Parses (Aware t))
  | None => Absent
  end.

Definition hackathon_of (slug_ : string) (end_time : option Z)
    (org : option string) (repos : list string) : Hackathon :=
  {| slug := Some slug_; name := Some slug_;
     startTime := utc_time (Some window_start); endTime := utc_time end_time;
     github := Value {| organization := org; repositories := Value repos |} |}.

(** Two events that name the same organization and no repository. *)
Definition two_acme_events : list Hackathon :=
  [ hackathon_of "spring" (Some window_end) (Some "acme") [];
    hackathon_of "summer" (Some window_end) (Some "acme") [] ].

(** The organization listing read as fetched once per run at most, on an
    upstream that answers every request at the first attempt (so that a fetch
    of a one-page listing is one request). *)
Definition listing_fetched_at_most_once (env : environment) (fuel : nat)
    (config : option (list Hackathon)) (token : string) (w : world) (org : string)
    : Prop :=
  (org_listing_requests org (events (Pipeline.main env fuel config token w).2) ≤ 1)%nat.

(** One event whose explicit list names acme/widgets twice, no organization. *)
Definition duplicated_repository : Hackathon :=
  hackathon_of "widgets" (Some window_end) None ["acme/widgets"; "acme/widgets"].

(** An event without an end time, followed by a well-formed one. *)
Definition missing_end_time : list Hackathon :=
  [ hackathon_of "broken" None None ["acme/gadgets"];
    hackathon_of "widgets" (Some window_end) None ["acme/widgets"] ].

(** An event whose end time is a string that [fromisoformat] refuses, and
    one whose end time is written without offset, each followed by a
    well-formed event. *)
Definition event_ending (slug_ : string) (end_time : field time_string) : Hackathon :=
  {| slug := Some slug_; name := Some slug_;
     startTime := utc_time (Some window_start); endTime := end_time;
     github := Value {| organization := None;
                        repositories := Value ["acme/gadgets"] |} |}.

Definition unparsable_end_time : list Hackathon :=
  [ event_ending "broken" (Value Unparsable);
    hackathon_of "widgets" (Some window_end) None ["acme/widgets"] ].

Definition naive_end_time : list Hackathon :=
  [ event_ending "broken" (Value (Parses (Naive window_end)));
    hackathon_of "widgets" (Some window_end) None ["acme/widgets"] ].

(** An event whose start time is missing (a failure inside
    [process_hackathon]), followed by a well-formed one. *)
Definition missing_start_time : list Hackathon :=
  [ {| slug := Some "broken"; name := Some "broken";
       startTime := Absent; endTime := utc_time (Some window_end);
       github := Value {| organization := None;
                          repositories := Value ["acme/gadgets"] |} |};
    hackathon_of "widgets" (Some window_end) None ["acme/widgets"] ].

(** The first page of the listing of every organization holds acme/widgets. *)
Definition serving_org : ∀ u : api_url, outcome (json u) :=
  λ u, match u with
       | PageUrl (OrgReposL _) 1 => Success [ {| or_full_name := Some "acme/widgets" |} ]
       | PageUrl l _ => empty_listing l
       | RepoUrl _ _ => HTTPError 404 None
       end.

(** Every request fails with HTTP 500. *)
Definition server_error : ∀ u : api_url, outcome (json u) := λ _, HTTPError 500 None.

(** The object of acme/widgets. *)
Definition widgets_body : RepoBody :=
  {| rb_full_name := Some "acme/widgets"; rb_description := None;
     rb_stargazers_count := Some 7; rb_forks_count := None;
     rb_language := Some "Python"; rb_html_url := None; rb_other_keys := true |}.

(** An upstream that refuses the first request with HTTP 429 and a reset
    hint 25 s ahead of midday Jan 2, loses the second, and answers the third:
    it goes by the number of requests made so far. *)
Definition flaky_answer (requests_so_far : nat) (u : api_url) : outcome (json u) :=
  match requests_so_far with
  | 0%nat => HTTPError 429 (Some (unix_seconds noon_jan_2 + 25))
  | 1%nat => URLError
  | _ => match u with
         | PageUrl l _ => empty_listing l
         | RepoUrl _ _ => Success widgets_body
         end
  end.

Definition flaky_upstream : environment :=
  {| respond := λ evs u _, flaky_answer (length (filter (λ ev, is_request ev) evs)) u;
     clock := λ _, noon_jan_2 |}.

(** The upstreams and configurations of the examples. *)
Definition scenario_upstream : environment :=
  fixed_env (serving_pulls scenario_prs) noon_jan_2.
Definition incremental_upstream : environment :=
  fixed_env (serving_pulls incremental_prs) noon_jan_2.
Definition window_end_upstream : environment :=
  fixed_env (serving_pulls [pr_at_window_end]) window_start.
Definition org_upstream : environment := fixed_env serving_org noon_jan_2.
Definition failing_upstream : environment := fixed_env server_error noon_jan_2.
Definition silent_upstream : environment := fixed_env nothing_upstream noon_jan_2.
Definition garbled_upstream : environment := fixed_env not_json noon_jan_2.

Definition spring_event : list Hackathon :=
  [hackathon_of "spring" (Some window_end) (Some "acme") []].
Definition summer_event : list Hackathon :=
  [hackathon_of "summer" (Some window_end) (Some "acme") []].

(** * Vocabulary of the further properties *)

(** ** Repository statistics and the daily series *)

(** [pr.get("repository", "unknown")] and [issue.get("repository", "unknown")] *)
Definition pr_repo_key (pr : PullRequest) : string :=
  default "unknown" (pr_repository pr).
Definition issue_repo_key (i : Issue) : string :=
  default "unknown" (is_repository i).

(** [issue["state"] == "closed"] *)
Definition issue_closed (i : Issue) : bool := bool_decide (is_state i = "closed").

(** The counters a repository ends with, counted from the records. *)
Definition repo_stat_of (k : string) (prs : list PullRequest) (issues : list Issue)
    : RepoStat :=
  {| repo_total := length (filter (λ pr, pr_repo_key pr = k) prs);
     repo_merged := length (filter (λ pr, pr_repo_key pr = k ∧ pr_merged pr) prs);
     repo_issues := length (filter (λ i, issue_repo_key i = k) issues);
     repo_closedIssues :=
       length (filter (λ i, issue_repo_key i = k ∧ issue_closed i) issues) |}.

(** Pull requests created on date [d], at an instant inside [s, e]. *)
Definition created_on (s e d : Z) (prs : list PullRequest) : nat :=
  length (filter (λ pr, date_of (pr_created_at pr) = d
                        ∧ between s (pr_created_at pr) e) prs).

(** Pull requests merged on date [d]. *)
Definition merged_on (d : Z) (prs : list PullRequest) : nat :=
  length (filter (λ pr, date_of <$> pr_merged_at pr = Some d) prs).

(** The loops over pull requests and issues, seen from one repository map. *)
Definition repo_bump {A} (keyf : A → string) (upd : A → RepoStat → RepoStat)
    (m : gmap string RepoStat) (x : A) : gmap string RepoStat :=
  alter (upd x) (keyf x) (Aggregator.repo_ensure (keyf x) m).

Definition day_bump (n m : nat) (b : DayBucket) : DayBucket :=
  {| day_total := day_total b + n; day_merged := day_merged b + m |}.

(** ** Pagination and requests *)

(** A page that makes [fetch_all_pages] ask for the next one. *)
Definition full_page {A} (items : list A) : Prop := (per_page ≤ length items)%nat.

(** An answer that is an HTTP error or a URL error. *)
Definition is_error {A} (o : outcome A) : Prop :=
  match o with
  | HTTPError _ _ | URLError => True
  | _ => False
  end.

(** A closed issue that carries no pull-request marker and lies in the window,
    for the examples. *)
Definition issue_of (pull_request : bool) (created : Z) (closed : option Z) : Issue :=
  {| is_pull_request := pull_request; is_state := "open";
     is_created_at := created; is_closed_at := closed; is_repository := None |}.

(** How many requests the record holds. *)
Definition requests_sent (w : world) : nat :=
  length (filter (λ ev, is_request ev) (events w)).

(** A creation or close time inside [start, end], both ends included. *)
Definition issue_in_closed_window (start_dt end_dt : Z) (i : Issue) : Prop :=
  start_dt ≤ is_created_at i ≤ end_dt
  ∨ ∃ closed_at, is_closed_at i = Some closed_at ∧ start_dt ≤ closed_at ≤ end_dt.

(** ** Repository paths, events and runs *)

(** [c in s] for a character. *)
Fixpoint has_char (c : ascii) (s : string) : bool :=
  match s with
  | EmptyString => false
  | String c' s' => Ascii.eqb c' c || has_char c s'
  end.

(** A computation that raises nothing, whatever the world it starts in. *)
Definition never_raises {A} (m : M A) : Prop :=
  ∀ w e w', m w ≠ (Raise e, w').

(** The event has ended at the time the world shows and has a snapshot file. *)
Definition frozen (env : environment) (w : world) (h : Hackathon) : Prop :=
  ∃ end_dt, endTime h = Value (Parses (Aware end_dt))
            ∧ end_dt < clock env (events w)
            ∧ is_Some (files w !! default "unknown" (slug h)).

(** The "github" key of the event can be read the way lines 383-385 and
    603-605 read it: it is absent or an object, and the "repositories" key of
    the object is absent or a list. *)
Definition github_readable (h : Hackathon) : Prop :=
  match github h with
  | Absent => True
  | Null => False
  | Value github_config => repositories github_config ≠ Null
  end.

(** The configuration of the event gives no organization and no repository. *)
Definition names_nothing (h : Hackathon) : Prop :=
  match github h with
  | Value github_config =>
      (organization github_config = None ∨ organization github_config = Some "")
      ∧ ∀ explicit_repos,
          repositories github_config = Value explicit_repos → explicit_repos = []
  | _ => True
  end.

(** Lines 390-538 of [process_hackathon]: what it does once the
    configuration of the event is read and its two times are parsed. *)
Definition process_hackathon_tail (env : environment) (fuel : nat)
    (slug name : string) (start_dt end_dt : pydatetime)
    (organization : option string) (explicit_repos : list string)
    (token : string) (cache : cache_arg) : M (option Snapshot) :=
  let* existing_data := Pipeline.load_existing_data slug in
  let* since := Pipeline.watermark existing_data in
  let* resolved :=
    Pipeline.resolve_repositories env fuel name organization explicit_repos token cache in
  match resolved with
  | None => ret None
  | Some repositories =>
      let* '(all_prs, new_or_updated_prs) :=
        Pipeline.fetch_all_prs env fuel repositories start_dt end_dt token since in
      let prs_to_fetch_reviews :=
        match since with Some _ => new_or_updated_prs | None => all_prs end in
      let* all_reviews := Pipeline.fetch_all_reviews env fuel prs_to_fetch_reviews token in
      let* all_issues :=
        Pipeline.fetch_all_issues env fuel repositories start_dt end_dt token in
      let* repo_data := Pipeline.fetch_all_metadata env repositories token in
      let* stats :=
        lift (Aggregator.process_hackathon_stats
                all_prs all_reviews all_issues start_dt end_dt repositories) in
      let* t := Fetcher.now env in
      ret (Some {| lastUpdated := Some t;
                   snap_slug := slug; snap_name := name;
                   snap_startTime := start_dt; snap_endTime := end_dt;
                   snap_repositories := repositories;
                   snap_stats := Pipeline.set_repoData repo_data stats |})
  end.

(** The snapshot on disk for a slug, as [load_existing_data] reads it. *)
Definition snapshot_on_disk (w : world) (slug : string) : option Snapshot :=
  match files w !! slug with
  | Some (JsonFile s) => Some s
  | _ => None
  end.

(** ** Concrete inputs of the further properties *)

Definition acme_widgets : OrgRepo := {| or_full_name := Some "acme/widgets" |}.

(** A page of one hundred repositories. *)
Definition hundred_repos : list OrgRepo := replicate 100 acme_widgets.

(** An organization listing of one full page and one repository more. *)
Definition full_then_short : ∀ u : api_url, outcome (json u) :=
  λ u, match u with
       | PageUrl (OrgReposL _) 1 => Success hundred_repos
       | PageUrl (OrgReposL _) 2 => Success [acme_widgets]
       | PageUrl l _ => empty_listing l
       | RepoUrl _ _ => HTTPError 404 None
       end.

(** An organization listing whose every page is full. *)
Definition always_full : ∀ u : api_url, outcome (json u) :=
  λ u, match u with
       | PageUrl (OrgReposL _) _ => Success hundred_repos
       | PageUrl l _ => empty_listing l
       | RepoUrl _ _ => HTTPError 404 None
       end.

(** An organization listing of one full page, after which every request
    fails with HTTP 500. *)
Definition full_then_error : ∀ u : api_url, outcome (json u) :=
  λ u, match u with
       | PageUrl (OrgReposL _) 1 => Success hundred_repos
       | _ => HTTPError 500 None
       end.

(** An upstream that refuses every request, each time in another way: the
    first with HTTP 429 and no reset hint, the second with HTTP 403 and a
    reset an hour after midday Jan 2, the others with HTTP 429 and a reset
    that lies 100 s before midday. *)
Definition throttling_answer (requests_so_far : nat) (u : api_url) : outcome (json u) :=
  match requests_so_far with
  | 0%nat => HTTPError 429 None
  | 1%nat => HTTPError 403 (Some (unix_seconds noon_jan_2 + 3600))
  | _ => HTTPError 429 (Some (unix_seconds noon_jan_2 - 100))
  end.

(** The milliseconds slept so far. *)
Definition time_slept (evs : list event) : Z :=
  foldr (λ ev total, match ev with Sleep ms => ms + total | _ => total end) 0 evs.

(** Its clock starts at midday Jan 2 and runs while the program sleeps. *)
Definition throttling_upstream : environment :=
  {| respond :=
       λ evs u _, throttling_answer (length (filter (λ ev, is_request ev) evs)) u;
     clock := λ evs, noon_jan_2 + 1000 * time_slept evs |}.

(** The first page of every issue listing holds [issues]. *)
Definition serving_issues (issues : list Issue) : ∀ u : api_url, outcome (json u) :=
  λ u, match u with
       | PageUrl (IssuesL _ _) 1 => Success issues
       | PageUrl l _ => empty_listing l
       | RepoUrl _ _ => HTTPError 404 None
       end.

(** A pull request seen through the issue listing, an issue created inside
    the window, and one created and closed after it. *)
Definition listed_issues : list Issue :=
  [ issue_of true (utc jan_1_2024 9 0 0) None;
    issue_of false (utc jan_1_2024 10 0 0) None;
    issue_of false (utc (jan_1_2024 + 5) 10 0 0) (Some (utc (jan_1_2024 + 6) 10 0 0)) ].

Definition issues_upstream : environment :=
  fixed_env (serving_issues listed_issues) noon_jan_2.

(** The scenario a week after the window has closed. *)
Definition a_week_later : environment :=
  fixed_env (serving_pulls scenario_prs) (utc (jan_1_2024 + 9) 0 0 0).

(** The data file of the scenario is on disk, written at midday Jan 2. *)
Definition world_with_snapshot : world :=
  {| events := []; files := {[ "widgets" := JsonFile (snapshot_at noon_jan_2) ]};
     stats_json := None; org_repos_cache := ∅ |}.

Definition widgets_event : Hackathon :=
  hackathon_of "widgets" (Some window_end) None ["acme/widgets"].

Definition widgets_of_acme : Hackathon :=
  hackathon_of "widgets" (Some window_end) (Some "acme") ["acme/widgets"].

(** An event whose "github" key holds null. *)
Definition event_with_null_github : Hackathon :=
  {| slug := Some "nulled"; name := Some "nulled";
     startTime := utc_time (Some window_start); endTime := utc_time (Some window_end);
     github := Null |}.

(** An event that names no repository and no organization. *)
Definition bare_event : Hackathon := hackathon_of "bare" (Some window_end) None [].

(** Records of two repositories, one of them not resolved, and one without
    repository. *)
Definition scattered_prs : list PullRequest :=
  [ pr_of 1 "alice" "Add widget" (utc jan_1_2024 9 0 0) (utc jan_1_2024 12 0 0)
      (Some (utc jan_1_2024 12 0 0));
    Fetcher.set_pr_repository "acme/gadgets"
      (pr_of 2 "bob" "Fix gadget" (utc (jan_1_2024 + 1) 9 0 0)
         (utc (jan_1_2024 + 1) 12 0 0) None);
    {| pr_number := 3; pr_title := None;
       pr_created_at := utc (jan_1_2024 + 1) 10 0 0;
       pr_updated_at := utc (jan_1_2024 + 7) 10 0 0;
       pr_merged_at := Some (utc (jan_1_2024 + 7) 10 0 0);
       pr_user := user_of "carol"; pr_html_url := None; pr_repository := None |} ].

(** A computation that leaves the summary alone and, of the data files,
    writes at most those of [slugs]. *)
Definition writes_at_most {A} (slugs : list string) (m : M A) : Prop :=
  ∀ w r w', m w = (r, w') →
    (∀ k, k ∉ slugs → files w' !! k = files w !! k)
    ∧ stats_json w' = stats_json w.

(** [hackathon.get("slug", "unknown")], the name of the data file of an event. *)
Definition file_slug (h : Hackathon) : string := default "unknown" (slug h).

(** The data file of another project is on disk beside the one of the
    scenario. *)
Definition world_with_other_file : world :=
  {| events := [];
     files := {[ "widgets" := JsonFile (snapshot_at noon_jan_2);
                 "gadgets" := Unreadable ]};
     stats_json := None; org_repos_cache := ∅ |}.



(** An event whose explicit list holds a path that is no "owner/repo". *)
Definition event_with_bad_path : Hackathon :=
  hackathon_of "widgets" (Some window_end) None ["acme/widgets"; "widgets"].

(** * Windows of two aware datetimes

    The spec writes every time with Z, so the window of an event is a pair
    of aware datetimes; there no comparison raises, and the loops are folds
    of total functions. *)

Section AwareWindow.
Import Aggregator Fetcher.

Lemma between_bounds_aware (s x e : Z) :
  between_bounds (Aware s) x (Aware e) = Val (between s x e).
Proof. unfold between_bounds, between. simpl. by destruct (s <=? x). Qed.

Lemma pr_iteration_aware (s e : Z) (a : Acc) (pr : PullRequest) :
  pr_iteration (Aware s) (Aware e) a pr = Val (pr_step s e a pr).
Proof.
  unfold pr_iteration, created_in_window, pr_step.
  rewrite between_bounds_aware. by destruct (bool_decide _).
Qed.

Lemma fold_pr_iteration_aware (s e : Z) (prs : list PullRequest) (a : Acc) :
  fold_result (pr_iteration (Aware s) (Aware e)) a prs = Val (foldl (pr_step s e) a prs).
Proof.
  revert a. induction prs as [|pr prs IH]; intros a; simpl; [done|].
  by rewrite pr_iteration_aware, IH.
Qed.

Lemma review_iteration_aware (s e : Z) (ps : list Participant) (r : Review) :
  review_iteration (Aware s) (Aware e) ps r = Val (review_step s e ps r).
Proof.
  unfold review_iteration, review_step. destruct (review_excluded r); [done|].
  destruct (rv_submitted_at r) as [t|]; [|done].
  rewrite between_bounds_aware. by destruct (between s t e).
Qed.

Lemma fold_review_iteration_aware (s e : Z) (rvs : list Review) (ps : list Participant) :
  fold_result (review_iteration (Aware s) (Aware e)) ps rvs
  = Val (foldl (review_step s e) ps rvs).
Proof.
  revert ps. induction rvs as [|r rvs IH]; intros ps; simpl; [done|].
  by rewrite review_iteration_aware, IH.
Qed.

Lemma process_hackathon_stats_aware prs rvs issues (s e : Z) repos :
  process_hackathon_stats prs rvs issues (Aware s) (Aware e) repos
  = match build_daily_activity s e with
    | Val daily0 =>
        let a := foldl (pr_step s e) (init_acc daily0 repos) prs in
        Val (stats_record a (foldl (review_step s e) (participants a) rvs)
               (foldl issue_step (repo_stats a, 0%nat, 0%nat) issues))
    | Raise e => Raise e
    | Diverge => Diverge
    end.
Proof.
  unfold process_hackathon_stats. simpl wall_clock.
  destruct (build_daily_activity s e) as [daily0| |]; [|done..].
  cbv zeta. by rewrite fold_pr_iteration_aware, fold_review_iteration_aware.
Qed.

Lemma relevant_aware (s e created : Z) (other : option Z) :
  relevant (Aware s) (Aware e) created other
  = Val (between s created e
         || match other with Some t => between s t e | None => false end).
Proof.
  unfold relevant. rewrite between_bounds_aware.
  destruct other as [t|]; [by rewrite between_bounds_aware|].
  by rewrite orb_false_r.
Qed.

End AwareWindow.

(** * Properties *)

(** ** The daily activity series *)

Section DailyActivity.
Import Aggregator.

Lemma zero_range_insert (c : Z) (l : list Z) (m : gmap Z DayBucket) :
  zero_range (<[c := zero_day]> m) l = <[c := zero_day]> (zero_range m l).
Proof.
  induction l as [|x l IH]; simpl; [done|].
  rewrite IH. destruct (decide (x = c)) as [->|Hne].
  - by rewrite insert_insert_eq.
  - by rewrite insert_insert_ne.
Qed.

(** The loop's result on a range of [n] days or fewer. *)
Lemma daily_loop_spec (n : nat) (c e : Z) (m : gmap Z DayBucket) :
  e - c + 1 ≤ Z.of_nat n →
  daily_loop n c e m =
    if decide (e < c) then Val m
    else if decide (e < date_max) then
      Val (zero_range m (seqZ c (e - c + 1)))
    else Raise OverflowError.
Proof.
  revert c m. induction n as [|n IH]; intros c m Hn; simpl.
  - destruct (Z.leb_spec c e); [lia|]. rewrite decide_True by lia. done.
  - destruct (Z.leb_spec c e) as [Hce|Hce]; [|rewrite decide_True by lia; done].
    rewrite decide_False by lia.
    destruct (Z.leb_spec date_max c) as [Hmax|Hmax].
    { rewrite decide_False by lia. done. }
    rewrite IH by lia.
    destruct (decide (e < c + 1)) as [Hlast|Hmore].
    + assert (e = c) as -> by lia. rewrite decide_True by lia.
      replace (c - c + 1) with 1 by lia. done.
    + destruct (decide (e < date_max)) as [He|He]; [|done].
      f_equal. rewrite zero_range_insert.
      rewrite (seqZ_cons c (e - c + 1)) by lia.
      replace (Z.succ c) with (c + 1) by lia.
      replace (Z.pred (e - c + 1)) with (e - (c + 1) + 1) by lia.
      done.
Qed.

(** The [while] loop satisfies its own unfolding: the iteration count passed
    by [build_daily_activity] never runs out. *)
Lemma daily_loop_unfold (c e : Z) (m : gmap Z DayBucket) :
  daily_loop (Z.to_nat (e - c + 1)) c e m =
    if c <=? e then
      if date_max <=? c then Raise OverflowError
      else daily_loop (Z.to_nat (e - (c + 1) + 1)) (c + 1) e (<[c := zero_day]> m)
    else Val m.
Proof.
  destruct (Z.leb_spec c e) as [Hce|Hce].
  - replace (Z.to_nat (e - c + 1)) with (S (Z.to_nat (e - (c + 1) + 1))) by lia.
    simpl. destruct (Z.leb_spec c e); [done|lia].
  - replace (Z.to_nat (e - c + 1)) with O by lia. simpl.
    destruct (Z.leb_spec c e); [lia|done].
Qed.

Lemma lookup_zero_range (m : gmap Z DayBucket) (l : list Z) (d : Z) :
  zero_range m l !! d = if decide (d ∈ l) then Some zero_day else m !! d.
Proof.
  induction l as [|x l IH].
  - destruct (decide (d ∈ [])) as [Hin|Hin]; [by apply elem_of_nil in Hin|done].
  - change (zero_range m (x :: l)) with (<[x := zero_day]> (zero_range m l)).
    destruct (decide (x = d)) as [->|Hne].
    + rewrite lookup_insert_eq.
      destruct (decide (d ∈ d :: l)) as [?|Hout]; [done|].
      exfalso. apply Hout. left.
    + rewrite lookup_insert_ne by done. rewrite IH.
      destruct (decide (d ∈ l)) as [Hl|Hl], (decide (d ∈ x :: l)) as [Hxl|Hxl];
        try done.
      * exfalso. apply Hxl. by right.
      * apply elem_of_cons in Hxl as [?|?]; congruence.
Qed.

Lemma build_daily_activity_spec (start_dt end_dt : Z) :
  (returns_daily start_dt end_dt →
     ∃ daily0, build_daily_activity start_dt end_dt = Val daily0
       ∧ ∀ d, daily0 !! d =
           if decide (date_of start_dt ≤ d ≤ date_of end_dt) then Some zero_day else None)
  ∧ (¬ returns_daily start_dt end_dt →
     build_daily_activity start_dt end_dt = Raise OverflowError).
Proof.
  unfold build_daily_activity, returns_daily. rewrite daily_loop_spec by lia.
  split.
  - intros Hret. destruct (decide (date_of end_dt < date_of start_dt)) as [Hlt|Hge].
    + eexists; split; [done|]. intros d. rewrite decide_False by lia. apply lookup_empty.
    + rewrite decide_True by lia. eexists; split; [done|]. intros d.
      rewrite lookup_zero_range, lookup_empty.
      destruct (decide (d ∈ seqZ _ _)) as [Hin|Hin]; rewrite elem_of_seqZ in Hin.
      * rewrite decide_True by lia. done.
      * rewrite decide_False by lia. done.
  - intros Hnot. rewrite decide_False by lia. rewrite decide_False by lia. done.
Qed.

Lemma pr_step_daily_dom start_dt end_dt a pr :
  dom (daily_activity (pr_step start_dt end_dt a pr)) = dom (daily_activity a).
Proof.
  unfold pr_step, pr_update. simpl.
  destruct (pr_merged_at pr); simpl;
    repeat case_match; simpl; rewrite ?dom_alter_L; done.
Qed.

Lemma foldl_pr_step_daily_dom start_dt end_dt prs a :
  dom (daily_activity (foldl (pr_step start_dt end_dt) a prs)) = dom (daily_activity a).
Proof.
  revert a. induction prs as [|pr prs IH]; intros a; simpl; [done|].
  rewrite IH. apply pr_step_daily_dom.
Qed.

End DailyActivity.

(** ** Participants *)

Section Participants.
Import Aggregator.

Lemma filter_none {A} (P : A → Prop) `{!∀ x, Decision (P x)} (l : list A) :
  (∀ x, x ∈ l → ¬ P x) → filter P l = [].
Proof.
  induction l as [|x l IH]; intros Hnone; [done|].
  rewrite filter_cons_False by (apply Hnone; left).
  apply IH. intros y Hy. apply Hnone. by right.
Qed.

Lemma first_seen_snoc (l : list string) (u : string) :
  first_seen (l ++ [u]) = first_seen_step (first_seen l) u.
Proof. unfold first_seen. by rewrite foldl_app. Qed.

Lemma elem_of_first_seen_step (seen : list string) (u v : string) :
  v ∈ first_seen_step seen u ↔ v ∈ seen ∨ v = u.
Proof.
  unfold first_seen_step. destruct (decide (u ∈ seen)) as [Hin|Hin].
  - split; [by left|]. intros [?| ->]; done.
  - rewrite elem_of_app, list_elem_of_singleton. done.
Qed.

Lemma elem_of_first_seen (l : list string) (v : string) :
  v ∈ first_seen l ↔ v ∈ l.
Proof.
  induction l as [|u l IH] using rev_ind.
  - done.
  - rewrite first_seen_snoc, elem_of_first_seen_step, IH.
    rewrite elem_of_app, list_elem_of_singleton. done.
Qed.

Lemma NoDup_first_seen (l : list string) : NoDup (first_seen l).
Proof.
  induction l as [|u l IH] using rev_ind.
  - constructor.
  - rewrite first_seen_snoc. unfold first_seen_step.
    destruct (decide (u ∈ first_seen l)) as [Hin|Hin]; [done|].
    apply NoDup_app. split; [done|]. split.
    + intros x Hx ->%list_elem_of_singleton. done.
    + apply NoDup_singleton.
Qed.

Lemma p_mem_spec (u : string) (ps : list Participant) :
  p_mem u ps = true ↔ u ∈ (username <$> ps).
Proof.
  unfold p_mem. rewrite existsb_exists, list_elem_of_fmap.
  split.
  - intros (p & Hp & Heq). apply bool_decide_eq_true in Heq.
    exists p. split; [done|]. by apply list_elem_of_In.
  - intros (p & -> & Hp). exists p. split; [by apply list_elem_of_In|].
    by apply bool_decide_eq_true.
Qed.

Lemma p_alter_usernames (f : Participant → Participant) (u : string) (ps : list Participant) :
  (∀ p, username (f p) = username p) →
  username <$> p_alter f u ps = username <$> ps.
Proof.
  intros Hf. unfold p_alter. rewrite <- list_fmap_compose.
  apply list_fmap_ext. intros i p _. simpl.
  destruct (bool_decide (username p = u)); [apply Hf|done].
Qed.

Lemma credit_usernames (u : User) (f : Participant → Participant) (ps : list Participant) :
  (∀ p, username (f p) = username p) →
  username <$> credit u f ps = first_seen_step (username <$> ps) (login u).
Proof.
  intros Hf. unfold credit. rewrite p_alter_usernames by done.
  unfold p_ensure, first_seen_step.
  destruct (p_mem (login u) ps) eqn:Hmem.
  - apply p_mem_spec in Hmem. by rewrite decide_True.
  - rewrite decide_False.
    + by rewrite fmap_app.
    + intros Hin%p_mem_spec. congruence.
Qed.

(** Where each record of [credit u f ps] comes from. *)
Lemma elem_of_credit (u : User) (f : Participant → Participant) (ps : list Participant)
    (p' : Participant) :
  p' ∈ credit u f ps →
  (p' ∈ ps ∧ username p' ≠ login u)
  ∨ (∃ p, p ∈ ps ∧ username p = login u ∧ p' = f p)
  ∨ ((login u ∉ (username <$> ps)) ∧ p' = f (new_participant u)).
Proof.
  unfold credit, p_alter. rewrite list_elem_of_fmap. intros (p & -> & Hp).
  unfold p_ensure in Hp. destruct (p_mem (login u) ps) eqn:Hmem.
  - destruct (bool_decide (username p = login u)) eqn:Heq.
    + apply bool_decide_eq_true in Heq. right; left. by exists p.
    + apply bool_decide_eq_false in Heq. by left.
  - apply elem_of_app in Hp as [Hp|Hp%list_elem_of_singleton].
    + destruct (bool_decide (username p = login u)) eqn:Heq.
      * apply bool_decide_eq_true in Heq. right; left. by exists p.
      * apply bool_decide_eq_false in Heq. by left.
    + subst p. simpl. rewrite bool_decide_eq_true_2 by done.
      right; right. split; [|done]. intros Hin%p_mem_spec. congruence.
Qed.

Lemma credited_prs_snoc (u : string) (prs : list PullRequest) (pr : PullRequest) :
  credited_prs u (prs ++ [pr]) =
    credited_prs u prs
    ++ (if decide (login (pr_user pr) = u ∧ pr_credited pr) then [pr] else []).
Proof.
  unfold credited_prs. by rewrite filter_app.
Qed.

Lemma counted_reviews_snoc (u : string) (s e : Z) (rvs : list Review) (r : Review) :
  counted_reviews u s e (rvs ++ [r]) =
    counted_reviews u s e rvs
    ++ (if decide (login (rv_user r) = u ∧ review_counts s e r) then [r] else []).
Proof.
  unfold counted_reviews. by rewrite filter_app.
Qed.

Lemma credited_logins_snoc_pr (prs : list PullRequest) (s e : Z) (pr : PullRequest) :
  credited_logins (prs ++ [pr]) s e [] =
    credited_logins prs s e []
    ++ (if pr_credited pr then [login (pr_user pr)] else []).
Proof.
  unfold credited_logins. rewrite filter_app, fmap_app, filter_cons, !filter_nil.
  simpl. rewrite !app_nil_r. f_equal.
  destruct (pr_credited pr); done.
Qed.

Lemma credited_logins_snoc_review (prs : list PullRequest) (s e : Z)
    (rvs : list Review) (r : Review) :
  credited_logins prs s e (rvs ++ [r]) =
    credited_logins prs s e rvs
    ++ (if review_counts s e r then [login (rv_user r)] else []).
Proof.
  unfold credited_logins. rewrite filter_app, fmap_app, filter_cons, !filter_nil.
  rewrite <- app_assoc. f_equal. f_equal.
  destruct (review_counts s e r); done.
Qed.

(** A login never credited so far has nothing to its name. *)
Lemma not_credited_nil (u : string) (prs : list PullRequest) (s e : Z) (rvs : list Review) :
  u ∉ credited_logins prs s e rvs →
  credited_prs u prs = [] ∧ counted_reviews u s e rvs = [].
Proof.
  unfold credited_logins. rewrite elem_of_app, !list_elem_of_fmap. intros Hnot. split.
  - unfold credited_prs. apply filter_none.
    intros pr Hpr [Hu Hc]. apply Hnot. left. exists pr. split; [done|].
    by apply list_elem_of_filter.
  - unfold counted_reviews. apply filter_none.
    intros r Hr [Hu Hc]. apply Hnot. right. exists r. split; [done|].
    by apply list_elem_of_filter.
Qed.

Lemma pr_step_participants (s e : Z) (a : Acc) (pr : PullRequest) :
  participants (pr_step s e a pr) =
    if pr_credited pr
    then credit (pr_user pr) (incr_pr (pr_merged pr)) (participants a)
    else participants a.
Proof. unfold pr_step, pr_update, pr_merged. destruct (pr_merged_at pr); reflexivity. Qed.

Lemma review_step_credit (s e : Z) (ps : list Participant) (r : Review) :
  review_step s e ps r =
    if review_counts s e r
    then credit (rv_user r) (add_review (review_summary r)) ps
    else ps.
Proof.
  unfold review_step, review_counts, review_in_window.
  destruct (review_excluded r); [done|]. simpl.
  destruct (rv_submitted_at r) as [t|]; [|done].
  destruct (between s t e); done.
Qed.

(** One [credit] keeps the books, whatever the books are. *)
Lemma credit_step_ok (OK OK' : Participant → Prop) (L : list string) (u : User)
    (f : Participant → Participant) (ps : list Participant) :
  username <$> ps = first_seen L →
  (∀ p, p ∈ ps → OK p) →
  (∀ p, username (f p) = username p) →
  (∀ p, username p ≠ login u → OK p → OK' p) →
  (∀ p, username p = login u → OK p → OK' (f p)) →
  (login u ∉ L → OK' (f (new_participant u))) →
  username <$> credit u f ps = first_seen (L ++ [login u])
  ∧ ∀ p', p' ∈ credit u f ps → OK' p'.
Proof.
  intros Hnames Hok Hf Hother Hsame Hnew. split.
  - rewrite credit_usernames by done. by rewrite first_seen_snoc, Hnames.
  - intros p' [[Hin Hne]|[(p & Hin & Heq & ->)|[Hnot ->]]]%elem_of_credit.
    + apply Hother; [done|]. by apply Hok.
    + apply Hsame; [done|]. by apply Hok.
    + apply Hnew. rewrite Hnames in Hnot. by rewrite elem_of_first_seen in Hnot.
Qed.

Lemma pr_loop_inv (s e : Z) (a0 : Acc) (prs : list PullRequest) :
  participants a0 = [] →
  participants_inv prs s e [] (participants (foldl (pr_step s e) a0 prs)).
Proof.
  intros Ha0. induction prs as [|pr prs [IHn IHok]] using rev_ind.
  - simpl. rewrite Ha0. split; [done|]. intros p Hp. by apply elem_of_nil in Hp.
  - rewrite foldl_app. simpl. rewrite pr_step_participants.
    unfold participants_inv. rewrite credited_logins_snoc_pr.
    destruct (pr_credited pr) eqn:Hc.
    + apply credit_step_ok with (OK := participant_ok prs s e []); try done.
      * intros p Hne (H1 & H2 & H3 & H4). unfold participant_ok.
        rewrite credited_prs_snoc, decide_False by (intros [? _]; done).
        by rewrite app_nil_r.
      * intros p Heq (H1 & H2 & H3 & H4). unfold participant_ok. simpl.
        rewrite credited_prs_snoc, decide_True by (by rewrite Heq, Hc).
        rewrite filter_app, !length_app, <- H1, <- H2, H3, H4. simpl.
        rewrite filter_cons, filter_nil.
        destruct (pr_merged pr); simpl; repeat split; lia.
      * intros Hnot. apply not_credited_nil in Hnot as [Hp Hr].
        unfold participant_ok. simpl.
        rewrite credited_prs_snoc, decide_True by (by rewrite Hc).
        rewrite Hp. simpl. rewrite filter_cons, filter_nil.
        destruct (pr_merged pr); done.
    + rewrite app_nil_r. split; [done|]. intros p Hp.
      destruct (IHok p Hp) as (H1 & H2 & H3 & H4). unfold participant_ok.
      rewrite credited_prs_snoc, decide_False by (rewrite Hc; intros [_ []]).
      by rewrite app_nil_r.
Qed.

Lemma review_loop_inv (s e : Z) (prs : list PullRequest) (ps0 : list Participant)
    (rvs : list Review) :
  participants_inv prs s e [] ps0 →
  participants_inv prs s e rvs (foldl (review_step s e) ps0 rvs).
Proof.
  intros H0. induction rvs as [|r rvs [IHn IHok]] using rev_ind; [done|].
  rewrite foldl_app. simpl. rewrite review_step_credit.
  unfold participants_inv. rewrite credited_logins_snoc_review.
  destruct (review_counts s e r) eqn:Hc.
  - apply credit_step_ok with (OK := participant_ok prs s e rvs); try done.
    + intros p Hne (H1 & H2 & H3 & H4). unfold participant_ok.
      rewrite counted_reviews_snoc, decide_False by (intros [? _]; done).
      by rewrite app_nil_r.
    + intros p Heq (H1 & H2 & H3 & H4). unfold participant_ok. simpl.
      rewrite counted_reviews_snoc, decide_True by (by rewrite Heq, Hc).
      rewrite fmap_app, length_app, <- H1, <- H2, <- H3, <- H4. simpl.
      repeat split; lia.
    + intros Hnot. apply not_credited_nil in Hnot as [Hp Hr].
      unfold participant_ok. simpl.
      rewrite counted_reviews_snoc, decide_True by (by rewrite Hc).
      rewrite Hp, Hr. done.
  - rewrite app_nil_r. split; [done|]. intros p Hp.
    destruct (IHok p Hp) as (H1 & H2 & H3 & H4). unfold participant_ok.
    rewrite counted_reviews_snoc, decide_False by (rewrite Hc; intros [_ []]).
    by rewrite app_nil_r.
Qed.

(** The books of [process_hackathon_stats] after its two loops. *)
Lemma participants_of_inv (prs : list PullRequest) (rvs : list Review) (s e : Z) (a0 : Acc) :
  participants a0 = [] →
  participants_inv prs s e rvs (participants_of prs rvs s e a0).
Proof.
  intros Ha0. unfold participants_of. apply review_loop_inv. by apply pr_loop_inv.
Qed.

End Participants.

(** ** The stable descending sort *)

Section Sorting.
Import Aggregator.
Context {A : Type} (key : A → nat).

Lemma insert_desc_perm (x : A) (l : list A) : insert_desc key x l ≡ₚ x :: l.
Proof.
  induction l as [|y l IH]; simpl; [done|].
  destruct (key x <? key y)%nat; [|done].
  rewrite IH. apply Permutation_swap.
Qed.

Lemma sorted_desc_perm (l : list A) : sorted_desc key l ≡ₚ l.
Proof.
  induction l as [|x l IH]; simpl; [done|].
  rewrite insert_desc_perm. by rewrite IH.
Qed.

Lemma insert_desc_sorted (x : A) (l : list A) :
  StronglySorted (key_desc key) l → StronglySorted (key_desc key) (insert_desc key x l).
Proof.
  induction 1 as [|y l Hs IH Hall]; simpl.
  - repeat constructor.
  - destruct (Nat.ltb_spec (key x) (key y)) as [Hlt|Hge].
    + constructor; [done|]. rewrite insert_desc_perm. constructor; [|done].
      unfold key_desc. lia.
    + constructor; [by constructor|]. constructor; [done|].
      eapply Forall_impl; [exact Hall|]. unfold key_desc. intros z Hz; simpl in *. lia.
Qed.

Lemma sorted_desc_sorted (l : list A) : StronglySorted (key_desc key) (sorted_desc key l).
Proof.
  induction l as [|x l IH]; simpl; [constructor|]. by apply insert_desc_sorted.
Qed.

Lemma strongly_sorted_lookup (l : list A) (i j : nat) (x y : A) :
  StronglySorted (key_desc key) l → (i < j)%nat → l !! i = Some x → l !! j = Some y →
  (key y ≤ key x)%nat.
Proof.
  intros Hs. revert i j. induction Hs as [|z l Hs IH Hall]; intros i j Hij Hi Hj.
  - by rewrite lookup_nil in Hi.
  - destruct j as [|j]; [lia|]. simpl in Hj. destruct i as [|i]; simpl in Hi.
    + injection Hi as ->. rewrite Forall_forall in Hall.
      apply (Hall y). by eapply list_elem_of_lookup_2.
    + apply (IH i j); [lia|done|done].
Qed.

Lemma insert_desc_stable (k : nat) (x : A) (l : list A) :
  filter (λ y, key y = k) (insert_desc key x l) = filter (λ y, key y = k) (x :: l).
Proof.
  induction l as [|y l IH]; simpl; [done|].
  destruct (Nat.ltb_spec (key x) (key y)) as [Hlt|Hge]; [|done].
  rewrite (filter_cons _ y), IH, !(filter_cons _ x), (filter_cons _ y).
  destruct (decide (key y = k)) as [Hy|Hy], (decide (key x = k)) as [Hx|Hx];
    try done. lia.
Qed.

Lemma sorted_desc_stable (k : nat) (l : list A) :
  filter (λ y, key y = k) (sorted_desc key l) = filter (λ y, key y = k) l.
Proof.
  induction l as [|x l IH]; simpl; [done|].
  rewrite insert_desc_stable, !(filter_cons _ x), IH. done.
Qed.

End Sorting.

Lemma sorted_desc_ranking (key : Participant → nat) (ps : list Participant) :
  ranking_of key ps
    (Aggregator.sorted_desc key (filter (λ p, (0 < key p)%nat) ps)).
Proof.
  split; [apply sorted_desc_perm|]. split.
  - intros i j p q. apply strongly_sorted_lookup, sorted_desc_sorted.
  - intros k. apply sorted_desc_stable.
Qed.

(** ** [process_hackathon_stats] *)

Section AggregatorFacts.
Import Aggregator.

Lemma pr_step_totals (s e : Z) (a : Acc) (pr : PullRequest) :
  total_prs (pr_step s e a pr) = S (total_prs a)
  ∧ merged_prs (pr_step s e a pr)
    = if pr_merged pr then S (merged_prs a) else merged_prs a.
Proof. unfold pr_step, pr_update, pr_merged. destruct (pr_merged_at pr); done. Qed.

Lemma foldl_pr_step_totals (s e : Z) (prs : list PullRequest) (a : Acc) :
  total_prs (foldl (pr_step s e) a prs) = (total_prs a + length prs)%nat
  ∧ merged_prs (foldl (pr_step s e) a prs)
    = (merged_prs a + length (filter (λ pr, pr_merged pr) prs))%nat.
Proof.
  revert a. induction prs as [|pr prs IH]; intros a; simpl; [lia|].
  destruct (IH (pr_step s e a pr)) as [-> ->].
  destruct (pr_step_totals s e a pr) as [-> ->]. rewrite filter_cons.
  destruct (pr_merged pr); simpl; lia.
Qed.

(** What [process_hackathon_stats] returns, field by field. *)
Lemma stats_fields prs rvs issues (s e : Z) repos daily0 :
  build_daily_activity s e = Val daily0 →
  ∃ st, process_hackathon_stats prs rvs issues (Aware s) (Aware e) repos = Val st
    ∧ totalPRs st = length prs
    ∧ mergedPRs st = length (filter (λ pr, pr_merged pr) prs)
    ∧ dom (dailyActivity st) = dom daily0
    ∧ (prs = [] → dailyActivity st = daily0)
    ∧ ∃ ps, participants_inv prs s e rvs ps
        ∧ participantCount st = length ps
        ∧ leaderboard st
          = sorted_desc mergedCount (filter (λ p, (0 < mergedCount p)%nat) ps)
        ∧ reviewLeaderboard st
          = sorted_desc reviewCount (filter (λ p, (0 < reviewCount p)%nat) ps).
Proof.
  intros Hd. rewrite process_hackathon_stats_aware, Hd. unfold stats_record.
  destruct (foldl issue_step _ issues) as [[rs ti] ci]. eexists. split; [done|]. simpl.
  destruct (foldl_pr_step_totals s e prs (init_acc daily0 repos)) as [-> ->].
  repeat split; try done.
  - apply foldl_pr_step_daily_dom.
  - by intros ->.
  - exists (participants_of prs rvs s e (init_acc daily0 repos)).
    split; [by apply participants_of_inv|]. done.
Qed.

Lemma stats_returns prs rvs issues (s e : Z) repos :
  (returns_daily s e → ∃ st, process_hackathon_stats prs rvs issues (Aware s) (Aware e) repos = Val st)
  ∧ (¬ returns_daily s e →
       process_hackathon_stats prs rvs issues (Aware s) (Aware e) repos = Raise OverflowError).
Proof.
  destruct (build_daily_activity_spec s e) as [Hret Hraise]. split.
  - intros (daily0 & Hd & _)%Hret.
    destruct (stats_fields prs rvs issues s e repos daily0 Hd) as (st & Hst & _). eauto.
  - intros Hnot%Hraise. rewrite process_hackathon_stats_aware. by rewrite Hnot.
Qed.

(** A record on a leaderboard is a participant's. *)
Lemma ranking_elem_of (key : Participant → nat) (ps lb : list Participant) (p : Participant) :
  ranking_of key ps lb → p ∈ lb ↔ p ∈ ps ∧ (0 < key p)%nat.
Proof.
  intros (Hperm & _). rewrite Hperm, list_elem_of_filter. tauto.
Qed.

(** C2. The daily activity series has one bucket for each calendar date
    from the date of the window's start to the date of its end, both
    included, and no other; every bucket is written with zero counts before
    any record is read, so the series has no gap whatever the records are.
    The function returns this for every window that is empty or ends before
    9999-12-31; on the remaining windows Python's date arithmetic overflows and
    nothing is returned. *)
Theorem daily_activity_one_entry_per_date prs rvs issues (s e : Z) repos :
  (returns_daily s e →
     ∃ daily0 st,
       build_daily_activity s e = Val daily0
       ∧ (∀ d, daily0 !! d =
            if decide (date_of s ≤ d ≤ date_of e) then Some zero_day else None)
       ∧ process_hackathon_stats prs rvs issues (Aware s) (Aware e) repos = Val st
       ∧ (∀ d, is_Some (dailyActivity st !! d) ↔ date_of s ≤ d ≤ date_of e)
       ∧ size (dailyActivity st) = Z.to_nat (date_of e - date_of s + 1)
       ∧ (prs = [] → ∀ d b, dailyActivity st !! d = Some b → b = zero_day))
  ∧ (¬ returns_daily s e →
       process_hackathon_stats prs rvs issues (Aware s) (Aware e) repos = Raise OverflowError).
Proof.
  split; [|apply stats_returns].
  intros (daily0 & Hd & Hzero)%build_daily_activity_spec.
  destruct (stats_fields prs rvs issues s e repos daily0 Hd)
    as (st & Hst & _ & _ & Hdom & Hempty & _).
  exists daily0, st.
  assert (Hkeys : ∀ d, is_Some (dailyActivity st !! d) ↔ date_of s ≤ d ≤ date_of e).
  { intros d. rewrite <- elem_of_dom, Hdom, elem_of_dom, Hzero.
    destruct (decide (date_of s ≤ d ≤ date_of e)) as [Hin|Hout].
    - split; [done|eauto].
    - split; [by intros [? ?]|done]. }
  split; [done|]. split; [done|]. split; [done|]. split; [done|]. split.
  - rewrite <- size_dom.
    assert (dom (dailyActivity st)
            = list_to_set (seqZ (date_of s) (date_of e - date_of s + 1))) as ->.
    { apply set_eq. intros d.
      rewrite elem_of_dom, Hkeys, elem_of_list_to_set, elem_of_seqZ. lia. }
    rewrite size_list_to_set by apply NoDup_seqZ. by rewrite length_seqZ.
  - intros Hnil d b. rewrite (Hempty Hnil), Hzero.
    destruct (decide (date_of s ≤ d ≤ date_of e)); congruence.
Qed.

(** Whoever has a participant record passed the login tests. *)
Lemma participant_not_bot prs (s e : Z) rvs ps (p : Participant) :
  participants_inv prs s e rvs ps → p ∈ ps →
  is_bot (username p) = false ∧ is_copilot_login (username p) = false.
Proof.
  intros [Hnames _] Hp.
  assert (username p ∈ credited_logins prs s e rvs) as Hin.
  { rewrite <- elem_of_first_seen, <- Hnames. apply list_elem_of_fmap. eauto. }
  unfold credited_logins in Hin.
  rewrite elem_of_app, !list_elem_of_fmap in Hin.
  destruct Hin as [(pr & -> & [Hc _]%list_elem_of_filter)
                  |(r & -> & [Hc _]%list_elem_of_filter)].
  - unfold pr_credited, is_copilot_pr, is_copilot_login in *.
    destruct (is_bot _), (str_in "copilot" (lower (login _))); done.
  - unfold review_counts, review_excluded in Hc.
    destruct (is_bot _), (is_copilot_login _); done.
Qed.

Lemma foldl_review_step_filter (s e : Z) (rvs : list Review) (ps : list Participant) :
  foldl (review_step s e) ps rvs
  = foldl (review_step s e) ps (filter (λ r, review_in_window s e r) rvs).
Proof.
  revert ps. induction rvs as [|r rvs IH]; intros ps; [done|].
  rewrite filter_cons. destruct (decide (review_in_window s e r)) as [Hin|Hout].
  - simpl. apply IH.
  - simpl. rewrite <- IH. f_equal. rewrite review_step_credit.
    unfold review_counts. destruct (review_in_window s e r); [done|].
    by rewrite andb_false_r.
Qed.

(** C4. Each leaderboard holds exactly the participants whose count in its
    dimension is positive, once each, sorted by that count in descending order,
    participants of equal count in the order in which they were first seen:
    the participants [ps] are listed in the order of first credit, the merged-PR
    leaderboard ranks them by [mergedCount] and the review leaderboard by
    [reviewCount].  In particular an earlier entry never has a smaller count
    than a later one. *)
Theorem leaderboards_ranked prs rvs issues (s e : Z) repos :
  returns_daily s e →
  ∃ st ps,
    process_hackathon_stats prs rvs issues (Aware s) (Aware e) repos = Val st
    ∧ username <$> ps = first_seen (credited_logins prs s e rvs)
    ∧ (∀ p, p ∈ ps → participant_ok prs s e rvs p)
    ∧ participantCount st = length ps
    ∧ ranking_of mergedCount ps (leaderboard st)
    ∧ ranking_of reviewCount ps (reviewLeaderboard st).
Proof.
  intros (daily0 & Hd & _)%build_daily_activity_spec.
  destruct (stats_fields prs rvs issues s e repos daily0 Hd)
    as (st & Hst & _ & _ & _ & _ & ps & [Hnames Hok] & Hcount & Hlb & Hrlb).
  exists st, ps. rewrite Hlb, Hrlb.
  split; [done|]. split; [done|]. split; [done|]. split; [done|].
  split; apply sorted_desc_ranking.
Qed.

(** C3, as amended.  Every pull request counts in [totalPRs], and in
    [mergedPRs] when merged, whoever wrote it.  No login that holds "[bot]",
    ends in "bot" or holds "copilot" (letter case ignored) is on either
    leaderboard.  A pull request whose title holds "copilot" gives its author
    no credit: the merged count of a ranked participant counts the merged pull
    requests of that login whose title does not hold it, so the author can
    still be ranked through other pull requests.  The review count of a ranked
    participant counts the reviews of that login that are not DISMISSED and
    were submitted inside the window. *)
Theorem bots_and_copilot_not_credited prs rvs issues (s e : Z) repos :
  returns_daily s e →
  ∃ st,
    process_hackathon_stats prs rvs issues (Aware s) (Aware e) repos = Val st
    ∧ totalPRs st = length prs
    ∧ mergedPRs st = length (filter (λ pr, pr_merged pr) prs)
    ∧ ∀ p, p ∈ leaderboard st ∨ p ∈ reviewLeaderboard st →
        is_bot (username p) = false
        ∧ is_copilot_login (username p) = false
        ∧ mergedCount p
          = length (filter (λ pr, login (pr_user pr) = username p
                                  ∧ pr_merged pr ∧ ¬ title_mentions_copilot pr) prs)
        ∧ reviewCount p
          = length (filter (λ r, login (rv_user r) = username p
                                 ∧ review_state r ≠ "DISMISSED"
                                 ∧ review_in_window s e r) rvs).
Proof.
  intros (daily0 & Hd & _)%build_daily_activity_spec.
  destruct (stats_fields prs rvs issues s e repos daily0 Hd)
    as (st & Hst & Htotal & Hmerged & _ & _ & ps & Hinv & _ & Hlb & Hrlb).
  exists st. split; [done|]. split; [done|]. split; [done|].
  intros p Hp.
  assert (p ∈ ps) as Hps.
  { destruct Hp as [Hp|Hp]; [rewrite Hlb in Hp|rewrite Hrlb in Hp];
      eapply ranking_elem_of in Hp; try apply sorted_desc_ranking; tauto. }
  destruct (participant_not_bot _ _ _ _ _ _ Hinv Hps) as [Hbot Hcop].
  destruct Hinv as [_ Hok]. destruct (Hok p Hps) as (_ & -> & -> & _).
  split; [done|]. split; [done|]. split; f_equal.
  - unfold credited_prs. rewrite list_filter_filter. apply list_filter_iff.
    intros pr. unfold pr_credited, is_copilot_pr, title_mentions_copilot.
    unfold is_copilot_login in Hcop. split.
    + intros (Hm & Hu & Hc). rewrite Hu, Hbot, Hcop in Hc. simpl in Hc.
      split; [done|]. split; [done|]. by apply negb_prop_elim.
    + intros (Hu & Hm & Ht). rewrite Hu, Hbot, Hcop. simpl.
      split; [done|]. split; [done|]. by apply negb_prop_intro.
  - unfold counted_reviews. apply list_filter_iff.
    intros r. unfold review_counts, review_excluded. split.
    + intros (Hu & Hc). rewrite Hu, Hbot, Hcop in Hc. simpl in Hc.
      apply andb_prop_elim in Hc as [Hs Hw]. split; [done|]. split; [|done].
      apply negb_prop_elim in Hs. intros Heq. apply Hs. by apply bool_decide_pack.
    + intros (Hu & Hs & Hw). rewrite Hu, Hbot, Hcop. simpl.
      split; [done|]. apply andb_prop_intro. split; [|done].
      apply negb_prop_intro. intros Heq%bool_decide_unpack. done.
Qed.

(** C10. A review without a submission time, or submitted outside
    [start, end] (both ends included), is ignored entirely: the loop leaves the
    participants as they were, and the statistics are those of the input with
    every such review removed.  The review count and the review list of a
    ranked participant hold exactly the reviews of that login that pass the
    bot, Copilot and DISMISSED tests and carry a submission time inside the
    window. *)
Theorem reviews_outside_window_ignored prs rvs issues (s e : Z) repos :
  (∀ ps r, review_in_window s e r = false → review_step s e ps r = ps)
  ∧ process_hackathon_stats prs rvs issues (Aware s) (Aware e) repos
    = process_hackathon_stats prs (filter (λ r, review_in_window s e r) rvs)
        issues (Aware s) (Aware e) repos
  ∧ (returns_daily s e →
     ∃ st,
       process_hackathon_stats prs rvs issues (Aware s) (Aware e) repos = Val st
       ∧ ∀ p, p ∈ leaderboard st ∨ p ∈ reviewLeaderboard st →
           reviewCount p = length (counted_reviews (username p) s e rvs)
           ∧ reviews p = review_summary <$> counted_reviews (username p) s e rvs
           ∧ ∀ r, r ∈ counted_reviews (username p) s e rvs →
               r ∈ rvs ∧ review_excluded r = false
               ∧ ∃ t, rv_submitted_at r = Some t ∧ s ≤ t ≤ e).
Proof.
  split; [|split].
  - intros ps r Hout. rewrite review_step_credit. unfold review_counts.
    rewrite Hout. by rewrite andb_false_r.
  - rewrite !process_hackathon_stats_aware. destruct (build_daily_activity s e); [|done..].
    cbv zeta. by rewrite <- foldl_review_step_filter.
  - intros (daily0 & Hd & _)%build_daily_activity_spec.
    destruct (stats_fields prs rvs issues s e repos daily0 Hd)
      as (st & Hst & _ & _ & _ & _ & ps & Hinv & _ & Hlb & Hrlb).
    exists st. split; [done|]. intros p Hp.
    assert (p ∈ ps) as Hps.
    { destruct Hp as [Hp|Hp]; [rewrite Hlb in Hp|rewrite Hrlb in Hp];
        eapply ranking_elem_of in Hp; try apply sorted_desc_ranking; tauto. }
    destruct Hinv as [_ Hok]. destruct (Hok p Hps) as (_ & _ & -> & ->).
    split; [done|]. split; [done|].
    intros r [[_ Hc] Hr]%list_elem_of_filter. split; [done|].
    unfold review_counts, review_in_window in Hc.
    apply andb_prop_elim in Hc as [Hx Hw].
    split; [by apply negb_prop_elim, Is_true_false in Hx|].
    destruct (rv_submitted_at r) as [t|]; [|done]. exists t. split; [done|].
    unfold between in Hw. apply andb_prop_elim in Hw as [H1 H2].
    apply Is_true_eq_true in H1, H2. lia.
Qed.

End AggregatorFacts.

(** ** [fetch_pull_requests] *)

Section FetchFacts.
Import Fetcher.

Lemma filter_pull_requests_spec (repository : string) (s e : Z) (since : option Z)
    (all_prs filtered : list PullRequest) :
  filter_pull_requests repository (Aware s) (Aware e) since all_prs filtered
  = Val (filtered ++ (set_pr_repository repository
                        <$> filter (λ pr, pr_relevant s e pr)
                              (fresh_prefix since all_prs))).
Proof.
  revert filtered. induction all_prs as [|pr rest IH]; intros filtered; simpl.
  - by rewrite app_nil_r.
  - destruct (before_watermark since pr); simpl; [by rewrite app_nil_r|].
    rewrite relevant_aware. fold (pr_relevant s e pr). rewrite IH, filter_cons.
    destruct (pr_relevant s e pr); simpl; [|done].
    by rewrite <- app_assoc.
Qed.

Lemma fetch_pull_requests_result (env : environment) (fuel : nat) (owner repo : string)
    (s e : Z) (token : string) (since : option Z) (w w' : world)
    (all_prs : list PullRequest) :
  fetch_all_pages env fuel (PullsL owner repo (sort_of since)) token w = (Val all_prs, w') →
  fetch_pull_requests env fuel owner repo (Aware s) (Aware e) token since w
  = (Val (set_pr_repository (owner +:+ "/" +:+ repo)
            <$> filter (λ pr, pr_relevant s e pr) (fresh_prefix since all_prs)), w').
Proof.
  intros Hpages. unfold fetch_pull_requests, bind. fold (sort_of since).
  rewrite Hpages. unfold lift. by rewrite filter_pull_requests_spec.
Qed.

Lemma pr_relevant_spec (s e : Z) (pr : PullRequest) :
  pr_relevant s e pr = true ↔ in_closed_window s e pr.
Proof.
  unfold pr_relevant, in_closed_window, between.
  rewrite orb_true_iff, !andb_true_iff, !Z.leb_le. split.
  - intros [?|Hm]; [by left|right].
    destruct (pr_merged_at pr) as [m|]; [|done]. exists m.
    rewrite andb_true_iff, !Z.leb_le in Hm. done.
  - intros [?|(m & -> & Hm)]; [by left|right].
    rewrite andb_true_iff, !Z.leb_le. done.
Qed.

Lemma pr_relevant_tagged (repository : string) (s e : Z) (pr : PullRequest) :
  pr_relevant s e (set_pr_repository repository pr) = pr_relevant s e pr.
Proof. done. Qed.

Lemma fresh_prefix_full (all_prs : list PullRequest) : fresh_prefix None all_prs = all_prs.
Proof. induction all_prs as [|pr rest IH]; simpl; [done|]. by rewrite IH. Qed.

Lemma fresh_prefix_elem (since : Z) (all_prs : list PullRequest) (pr : PullRequest) :
  pr ∈ fresh_prefix (Some since) all_prs → pr ∈ all_prs ∧ since ≤ pr_updated_at pr.
Proof.
  induction all_prs as [|x rest IH]; simpl; [by intros ?%elem_of_nil|].
  destruct (Z.ltb_spec (pr_updated_at x) since) as [Hold|Hnew].
  - by intros ?%elem_of_nil.
  - intros [->|Hin]%elem_of_cons.
    + split; [left|done].
    + destruct (IH Hin). split; [by right|done].
Qed.

(** Newest-first order makes the early exit lose nothing. *)
Lemma fresh_prefix_complete (since : Z) (all_prs : list PullRequest) (pr : PullRequest) :
  updated_desc all_prs → pr ∈ all_prs → since ≤ pr_updated_at pr →
  pr ∈ fresh_prefix (Some since) all_prs.
Proof.
  intros Hsorted Hin Hnew. induction Hsorted as [|x rest Hs IH Hall]; simpl.
  - by apply elem_of_nil in Hin.
  - rewrite Forall_forall in Hall.
    apply elem_of_cons in Hin as [->|Hin].
    + destruct (Z.ltb_spec (pr_updated_at x) since); [lia|left].
    + specialize (Hall pr Hin). simpl in Hall.
      destruct (Z.ltb_spec (pr_updated_at x) since); [lia|]. right. by apply IH.
Qed.

(** C1. With a prior snapshot last updated at [T] the watermark is [T] minus
    five minutes.  Whatever the listing holds, no pull request updated before
    the watermark is in the result of [fetch_pull_requests], one last updated at
    [T - 10 min] in particular; and when the listing arrives newest update
    first, every pull request of it updated at or after the watermark, one
    updated at [T + 1 min] in particular, is in the result if it passes the
    relevance filter. *)
Theorem incremental_fetch_watermark (env : environment) (fuel : nat)
    (owner repo : string) (s e : Z) (token : string) (T : Z) (existing : Snapshot)
    (w w1 w2 : world) (all_prs : list PullRequest) :
  lastUpdated existing = Some T →
  timedelta_minutes 5 ≤ T ≤ datetime_max →
  fetch_all_pages env fuel (PullsL owner repo SortUpdated) token w1 = (Val all_prs, w2) →
  updated_desc all_prs →
  Pipeline.watermark (Some existing) w = (Val (Some (T - timedelta_minutes 5)), w)
  ∧ ∃ filtered,
      fetch_pull_requests env fuel owner repo (Aware s) (Aware e) token
        (Some (T - timedelta_minutes 5)) w1 = (Val filtered, w2)
      ∧ (∀ x, x ∈ filtered → T - timedelta_minutes 5 ≤ pr_updated_at x)
      ∧ (∀ pr, pr ∈ all_prs → pr_updated_at pr = T - timedelta_minutes 10 →
           set_pr_repository (owner +:+ "/" +:+ repo) pr ∉ filtered)
      ∧ (∀ pr, pr ∈ all_prs → T - timedelta_minutes 5 ≤ pr_updated_at pr →
           pr_relevant s e pr = true →
           set_pr_repository (owner +:+ "/" +:+ repo) pr ∈ filtered)
      ∧ (∀ pr, pr ∈ all_prs → pr_updated_at pr = T + timedelta_minutes 1 →
           pr_relevant s e pr = true →
           set_pr_repository (owner +:+ "/" +:+ repo) pr ∈ filtered).
Proof.
  intros HT Hrange Hpages Hsorted. split.
  - unfold Pipeline.watermark. rewrite HT.
    unfold bind, lift, datetime_sub.
    destruct (Z.leb_spec 0 (T - timedelta_minutes 5)); [|lia].
    destruct (Z.leb_spec (T - timedelta_minutes 5) datetime_max); [done|].
    unfold timedelta_minutes in *. lia.
  - eexists. split; [by apply (fetch_pull_requests_result _ _ _ _ _ _ _ (Some _))|].
    assert (Hnew : ∀ x,
      x ∈ set_pr_repository (owner +:+ "/" +:+ repo)
            <$> filter (λ pr, pr_relevant s e pr)
                  (fresh_prefix (Some (T - timedelta_minutes 5)) all_prs) →
      T - timedelta_minutes 5 ≤ pr_updated_at x).
    { intros x (pr & -> & [_ Hpr]%list_elem_of_filter)%list_elem_of_fmap.
      by apply fresh_prefix_elem in Hpr as [_ ?]. }
    assert (Hkept : ∀ pr, pr ∈ all_prs → T - timedelta_minutes 5 ≤ pr_updated_at pr →
      pr_relevant s e pr = true →
      set_pr_repository (owner +:+ "/" +:+ repo) pr
        ∈ set_pr_repository (owner +:+ "/" +:+ repo)
            <$> filter (λ pr, pr_relevant s e pr)
                  (fresh_prefix (Some (T - timedelta_minutes 5)) all_prs)).
    { intros pr Hin Hfresh Hrel. apply list_elem_of_fmap. exists pr. split; [done|].
      apply list_elem_of_filter. split; [by rewrite Hrel|].
      by apply fresh_prefix_complete. }
    split; [done|]. split; [|split].
    + intros pr _ Hold Hin%Hnew. simpl in Hin. unfold timedelta_minutes in *. lia.
    + done.
    + intros pr Hin Hupd. apply Hkept; [done|]. unfold timedelta_minutes in *. lia.
Qed.

(** C5, as amended.  [fetch_pull_requests] keeps a pull request only if its
    creation time, or its merge time when merged, lies in the closed window
    [start, end]: nothing with both times outside it is passed on.  Among the
    records the loop reaches (all of them in full mode, those before the first
    one older than the watermark in incremental mode) it keeps exactly those. *)
Theorem relevance_filter_closed_window (env : environment) (fuel : nat)
    (owner repo : string) (s e : Z) (token : string) (since : option Z)
    (w w' : world) (all_prs : list PullRequest) :
  fetch_all_pages env fuel (PullsL owner repo (sort_of since)) token w = (Val all_prs, w') →
  ∃ filtered,
    fetch_pull_requests env fuel owner repo (Aware s) (Aware e) token since w
      = (Val filtered, w')
    ∧ (∀ x, x ∈ filtered → in_closed_window s e x)
    ∧ (∀ pr, set_pr_repository (owner +:+ "/" +:+ repo) pr ∈ filtered →
         in_closed_window s e pr)
    ∧ (∀ pr, pr ∈ fresh_prefix since all_prs → in_closed_window s e pr →
         set_pr_repository (owner +:+ "/" +:+ repo) pr ∈ filtered)
    ∧ (since = None → ∀ pr, pr ∈ all_prs →
         set_pr_repository (owner +:+ "/" +:+ repo) pr ∈ filtered
         ↔ in_closed_window s e pr).
Proof.
  intros Hpages. eexists. split; [by apply fetch_pull_requests_result|].
  assert (Honly : ∀ x,
    x ∈ set_pr_repository (owner +:+ "/" +:+ repo)
          <$> filter (λ pr, pr_relevant s e pr) (fresh_prefix since all_prs) →
    in_closed_window s e x).
  { intros x (pr & -> & [Hrel _]%list_elem_of_filter)%list_elem_of_fmap.
    apply pr_relevant_spec. rewrite pr_relevant_tagged. by apply Is_true_eq_true. }
  assert (Htag : ∀ pr, in_closed_window s e (set_pr_repository (owner +:+ "/" +:+ repo) pr)
                        → in_closed_window s e pr).
  { intros pr. by rewrite <- !pr_relevant_spec, pr_relevant_tagged. }
  assert (Hkept : ∀ pr, pr ∈ fresh_prefix since all_prs → in_closed_window s e pr →
    set_pr_repository (owner +:+ "/" +:+ repo) pr
      ∈ set_pr_repository (owner +:+ "/" +:+ repo)
          <$> filter (λ pr, pr_relevant s e pr) (fresh_prefix since all_prs)).
  { intros pr Hin Hrel%pr_relevant_spec. apply list_elem_of_fmap. exists pr.
    split; [done|]. apply list_elem_of_filter. by rewrite Hrel. }
  split; [done|]. split; [by intros pr ?%Honly%Htag|]. split; [done|].
  intros -> pr Hin. split; [by intros ?%Honly%Htag|].
  apply Hkept. by rewrite fresh_prefix_full.
Qed.

End FetchFacts.

(** ** [make_request] *)

Section RequestFacts.
Import Fetcher.
Variable env : environment.

Lemma transient_retry {A} (o : outcome A) :
  transient o →
  o = URLError ∨ ∃ code reset, o = HTTPError code reset
                              ∧ (code =? 429) || (code =? 403) = false
                              ∧ (code =? 404) = false.
Proof.
  destruct o as [body|code reset| |e]; simpl; try done; [|by left].
  intros (H1 & H2 & H3). right. exists code, reset. split; [done|].
  rewrite orb_false_iff. repeat split; by apply Z.eqb_neq.
Qed.

(** Each attempt adds its request, and at most one sleep, to the record; the
    loop always ends. *)
Lemma make_request_loop_trace (u : api_url) (token : string) (retry_count : nat)
    (remaining attempt : nat) (w : world) (r : result (option (json u))) (w' : world) :
  make_request_loop env u token retry_count remaining attempt w = (r, w') →
  r ≠ Diverge
  ∧ ∃ new, events w' = new ++ events w
      ∧ (length (filter (λ ev, is_request ev) new) ≤ remaining)%nat
      ∧ (∀ ms, Sleep ms ∈ new →
           5000 ≤ ms ≤ Z.max 300000 (5000 * Z.of_nat retry_count)).
Proof.
  revert attempt w. induction remaining as [|n IH]; intros attempt w; simpl.
  - unfold ret. intros [= <- <-]. split; [done|]. exists []. split; [done|].
    split; [simpl; lia|]. by intros ms ?%elem_of_nil.
  - unfold bind at 1, urlopen at 1.
    assert (Hstep : ∀ ms, 5000 ≤ ms ≤ Z.max 300000 (5000 * Z.of_nat retry_count) →
      bind (sleep ms) (λ _, make_request_loop env u token retry_count n (S attempt))
        (add_event (Request u (authorization_of token)) w) = (r, w') →
      r ≠ Diverge
      ∧ ∃ new, events w' = new ++ events w
          ∧ (length (filter (λ ev, is_request ev) new) ≤ S n)%nat
          ∧ (∀ ms, Sleep ms ∈ new →
               5000 ≤ ms ≤ Z.max 300000 (5000 * Z.of_nat retry_count))).
    { intros ms Hms. unfold bind, sleep. intros Hrun.
      apply IH in Hrun as (Hr & new & Hev & Hlen & Hsl). split; [done|].
      exists (new ++ [Sleep ms; Request u (authorization_of token)]).
      split; [by rewrite Hev, <- app_assoc|]. split.
      - rewrite filter_app, length_app. simpl. lia.
      - intros ms' [Hin|Hin]%elem_of_app; [by apply Hsl|].
        apply elem_of_cons in Hin as [[= ->]|Hin]; [done|].
        apply elem_of_cons in Hin as [?|Hin]; [done|]. by apply elem_of_nil in Hin. }
    assert (Hstop : ∀ v : result (option (json u)),
      v ≠ Diverge →
      (v, add_event (Request u (authorization_of token)) w) = (r, w') →
      r ≠ Diverge
      ∧ ∃ new, events w' = new ++ events w
          ∧ (length (filter (λ ev, is_request ev) new) ≤ S n)%nat
          ∧ (∀ ms, Sleep ms ∈ new →
               5000 ≤ ms ≤ Z.max 300000 (5000 * Z.of_nat retry_count))).
    { intros v Hv [= <- <-]. split; [done|].
      exists [Request u (authorization_of token)]. split; [done|].
      split; [simpl; lia|].
      intros ms [?|Hin]%elem_of_cons; [done|]. by apply elem_of_nil in Hin. }
    destruct (respond env (events w) u (authorization_of token))
      as [body|code reset| |e].
    + by apply Hstop.
    + destruct ((code =? 429) || (code =? 403)).
      * unfold bind at 1, time_time, bind at 1, now, ret. apply Hstep.
        destruct reset as [reset|]; lia.
      * destruct (code =? 404); [by apply Hstop|].
        destruct (Z.ltb_spec (Z.of_nat attempt) (Z.of_nat retry_count - 1));
          [apply Hstep; lia|by apply Hstop].
    + destruct (Z.ltb_spec (Z.of_nat attempt) (Z.of_nat retry_count - 1));
        [apply Hstep; lia|by apply Hstop].
    + by apply Hstop.
Qed.

(** Without a foreign exception among the answers, a value comes back. *)
Lemma make_request_loop_returns (u : api_url) (token : string) (retry_count : nat)
    (remaining attempt : nat) (w : world) :
  (∀ evs e, respond env evs u (authorization_of token) ≠ Failure e) →
  ∃ v w', make_request_loop env u token retry_count remaining attempt w = (Val v, w').
Proof.
  intros Hok. revert attempt w. induction remaining as [|n IH]; intros attempt w; simpl.
  - by eexists _, _.
  - unfold bind at 1, urlopen at 1.
    destruct (respond env (events w) u (authorization_of token))
      as [body|code reset| |e] eqn:Hresp.
    + by eexists _, _.
    + destruct ((code =? 429) || (code =? 403)).
      * unfold bind, time_time, now, ret, sleep. apply IH.
      * destruct (code =? 404); [by eexists _, _|].
        destruct (Z.of_nat attempt <? Z.of_nat retry_count - 1); [|by eexists _, _].
        unfold bind, sleep. apply IH.
    + destruct (Z.of_nat attempt <? Z.of_nat retry_count - 1); [|by eexists _, _].
      unfold bind, sleep. apply IH.
    + by apply Hok in Hresp.
Qed.

Lemma make_request_loop_retry (u : api_url) (token : string) (retry_count : nat)
    (n attempt : nat) (w : world) :
  transient (respond env (events w) u (authorization_of token)) →
  Z.of_nat attempt < Z.of_nat retry_count - 1 →
  make_request_loop env u token retry_count (S n) attempt w
  = make_request_loop env u token retry_count n (S attempt)
      (add_event (Sleep (1000 * (5 * (Z.of_nat attempt + 1))))
         (add_event (Request u (authorization_of token)) w)).
Proof.
  intros Ht Hlt. simpl. unfold bind at 1, urlopen at 1.
  apply transient_retry in Ht as [->|(code & reset & -> & -> & ->)];
    (destruct (Z.ltb_spec (Z.of_nat attempt) (Z.of_nat retry_count - 1)); [|lia]);
    reflexivity.
Qed.

Lemma make_request_loop_give_up (u : api_url) (token : string) (retry_count : nat)
    (n attempt : nat) (w : world) :
  transient (respond env (events w) u (authorization_of token)) →
  Z.of_nat retry_count - 1 ≤ Z.of_nat attempt →
  make_request_loop env u token retry_count (S n) attempt w
  = (Val None, add_event (Request u (authorization_of token)) w).
Proof.
  intros Ht Hge. simpl. unfold bind at 1, urlopen at 1.
  apply transient_retry in Ht as [->|(code & reset & -> & -> & ->)];
    (destruct (Z.ltb_spec (Z.of_nat attempt) (Z.of_nat retry_count - 1)); [lia|]);
    reflexivity.
Qed.

(** What [make_request] adds to the record, and what it leaves alone. *)
Lemma make_request_loop_frame (u : api_url) (token : string)
    (retry_count n attempt : nat) (w : world) (r : result (option (json u)))
    (w' : world) :
  make_request_loop env u token retry_count n attempt w = (r, w') →
  (∃ new, events w' = new ++ events w
          ∧ Forall (λ ev, ev = Request u (authorization_of token)
                          ∨ ∃ ms, ev = Sleep ms) new)
  ∧ files w' = files w ∧ stats_json w' = stats_json w
  ∧ org_repos_cache w' = org_repos_cache w.
Proof.
  revert attempt w. induction n as [|n IH]; intros attempt w; simpl.
  - intros [= <- <-]. split; [|done]. exists []. by split.
  - unfold bind at 1, urlopen at 1.
    assert (Hstep : ∀ ms,
      bind (sleep ms) (λ _, make_request_loop env u token retry_count n (S attempt))
        (add_event (Request u (authorization_of token)) w) = (r, w') →
      (∃ new, events w' = new ++ events w
              ∧ Forall (λ ev, ev = Request u (authorization_of token)
                              ∨ ∃ ms, ev = Sleep ms) new)
      ∧ files w' = files w ∧ stats_json w' = stats_json w
      ∧ org_repos_cache w' = org_repos_cache w).
    { intros ms. unfold bind, sleep. intros Hrun.
      apply IH in Hrun as ((new & Hev & Hall) & Hf & Hs & Hc). split; [|done].
      exists (new ++ [Sleep ms; Request u (authorization_of token)]).
      split; [by rewrite Hev, <- app_assoc|].
      apply Forall_app. split; [done|].
      apply List.Forall_cons; [right; eauto|].
      apply List.Forall_cons; [by left|apply List.Forall_nil]. }
    assert (Hstop : ∀ v : result (option (json u)),
      (v, add_event (Request u (authorization_of token)) w) = (r, w') →
      (∃ new, events w' = new ++ events w
              ∧ Forall (λ ev, ev = Request u (authorization_of token)
                              ∨ ∃ ms, ev = Sleep ms) new)
      ∧ files w' = files w ∧ stats_json w' = stats_json w
      ∧ org_repos_cache w' = org_repos_cache w).
    { intros v [= <- <-]. split; [|done].
      exists [Request u (authorization_of token)]. split; [done|].
      apply List.Forall_cons; [by left|apply List.Forall_nil]. }
    destruct (respond env (events w) u (authorization_of token))
      as [body|code reset| |e].
    + apply Hstop.
    + destruct ((code =? 429) || (code =? 403)).
      * unfold bind at 1, time_time, bind at 1, now, ret. apply Hstep.
      * destruct (code =? 404); [apply Hstop|].
        destruct (Z.of_nat attempt <? Z.of_nat retry_count - 1);
          [apply Hstep|apply Hstop].
    + destruct (Z.of_nat attempt <? Z.of_nat retry_count - 1);
        [apply Hstep|apply Hstop].
    + apply Hstop.
Qed.

(** The first thing an attempt does is send its request. *)
Lemma make_request_loop_first (u : api_url) (token : string) (retry_count n attempt : nat)
    (w : world) (r : result (option (json u))) (w' : world) :
  make_request_loop env u token retry_count (S n) attempt w = (r, w') →
  (∃ new, events w' = new ++ Request u (authorization_of token) :: events w)
  ∧ org_repos_cache w' = org_repos_cache w.
Proof.
  simpl. unfold bind at 1, urlopen at 1.
  assert (Hstep : ∀ ms,
    bind (sleep ms) (λ _, make_request_loop env u token retry_count n (S attempt))
      (add_event (Request u (authorization_of token)) w) = (r, w') →
    (∃ new, events w' = new ++ Request u (authorization_of token) :: events w)
    ∧ org_repos_cache w' = org_repos_cache w).
  { intros ms. unfold bind, sleep. intros Hrun.
    apply make_request_loop_frame in Hrun as ((new & Hev & _) & _ & _ & Hc).
    split; [|done]. exists (new ++ [Sleep ms]). by rewrite Hev, <- app_assoc. }
  assert (Hstop : ∀ v : result (option (json u)),
    (v, add_event (Request u (authorization_of token)) w) = (r, w') →
    (∃ new, events w' = new ++ Request u (authorization_of token) :: events w)
    ∧ org_repos_cache w' = org_repos_cache w).
  { intros v [= <- <-]. split; [|done]. by exists []. }
  destruct (respond env (events w) u (authorization_of token))
    as [body|code reset| |e].
  - apply Hstop.
  - destruct ((code =? 429) || (code =? 403)).
    + unfold bind at 1, time_time, bind at 1, now, ret. apply Hstep.
    + destruct (code =? 404); [apply Hstop|].
      destruct (Z.of_nat attempt <? Z.of_nat retry_count - 1); [apply Hstep|apply Hstop].
  - destruct (Z.of_nat attempt <? Z.of_nat retry_count - 1); [apply Hstep|apply Hstop].
  - apply Hstop.
Qed.

Lemma attempt_then_ext (u : api_url) (auth : option string) (attempt : Z)
    (next1 next2 : world → result (option (json u)) * world) (w : world) :
  (∀ w', next1 w' = next2 w') →
  attempt_then env u auth attempt next1 w = attempt_then env u auth attempt next2 w.
Proof. intros Hnext. unfold attempt_then. by destruct (reaction_to _ _ _). Qed.

(** One attempt of the loop is one attempt of the contract. *)
Lemma make_request_loop_attempt (u : api_url) (token : string) (n attempt : nat)
    (w : world) :
  (attempt < 3)%nat →
  make_request_loop env u token 3 (S n) attempt w
  = attempt_then env u (authorization_of token) (Z.of_nat attempt + 1)
      (make_request_loop env u token 3 n (S attempt)) w.
Proof.
  intros Hlt. simpl. unfold attempt_then, reaction_to, bind at 1, urlopen at 1.
  destruct (respond env (events w) u (authorization_of token)) as [body|code reset| |e];
    try done.
  - destruct (decide (code = 429 ∨ code = 403)) as [Hlimited|Hother].
    + assert ((code =? 429) || (code =? 403) = true) as ->
        by (destruct Hlimited as [-> | ->]; reflexivity).
      reflexivity.
    + assert ((code =? 429) || (code =? 403) = false) as ->.
      { apply orb_false_iff. split; apply Z.eqb_neq; intros ->; apply Hother; auto. }
      destruct (decide (code = 404)) as [->|H404]; [done|].
      apply Z.eqb_neq in H404 as ->.
      destruct (Z.ltb_spec (Z.of_nat attempt) (Z.of_nat 3 - 1)),
               (decide (Z.of_nat attempt + 1 < 3)); try lia; [|done].
      unfold bind, sleep. do 3 f_equal. lia.
  - destruct (Z.ltb_spec (Z.of_nat attempt) (Z.of_nat 3 - 1)),
             (decide (Z.of_nat attempt + 1 < 3)); try lia; [|done].
    unfold bind, sleep. do 3 f_equal. lia.
Qed.

(** C8, as amended.  [make_request] always ends.  It returns the parsed
    body of the first successful attempt; it returns None at once, without
    another attempt, on HTTP 404; on URL errors and on HTTP errors other than
    429, 403 and 404 it sleeps 5 s after the first attempt and 10 s after the
    second, and returns None after the third; it makes three requests at most
    and every sleep lasts between 5 s and 300 s.  On HTTP 429 and 403 it
    waits what the rate-limit hint says plus 5 s, within 10 s and 300 s, or
    60 s without hint, and goes on with the next attempt, to return None
    after the wait of the third.  It raises only what an attempt raises that
    is neither HTTPError nor URLError, such as the ValueError of a body that
    is not JSON, at whatever attempt: when no attempt does, a value is
    returned.  In all, the call is the [contract]: at each of three attempts
    the answer is returned, raised or slept on as [reaction_to] says. *)
Theorem make_request_contract (u : api_url) (token : string) (w : world) :
  let auth := authorization_of token in
  let w1 := add_event (Request u auth) w in
  let w2 := add_event (Request u auth) (add_event (Sleep 5000) w1) in
  let w3 := add_event (Request u auth) (add_event (Sleep 10000) w2) in
  ((∀ evs e, respond env evs u auth ≠ Failure e) →
     ∃ v w', make_request env u token 3 w = (Val v, w'))
  ∧ (∀ body, respond env (events w) u auth = Success body →
       make_request env u token 3 w = (Val (Some body), w1))
  ∧ (∀ reset, respond env (events w) u auth = HTTPError 404 reset →
       make_request env u token 3 w = (Val None, w1))
  ∧ (transient (respond env (events w) u auth) →
     transient (respond env (Sleep 5000 :: events w1) u auth) →
     transient (respond env (Sleep 10000 :: events w2) u auth) →
       make_request env u token 3 w = (Val None, w3))
  ∧ (∀ r w', make_request env u token 3 w = (r, w') →
       r ≠ Diverge
       ∧ ∃ new, events w' = new ++ events w
           ∧ (length (filter (λ ev, is_request ev) new) ≤ 3)%nat
           ∧ (∀ ms, Sleep ms ∈ new → 5000 ≤ ms ≤ 300000))
  ∧ (∀ e, respond env (events w) u auth = Failure e →
       make_request env u token 3 w = (Raise e, w1))
  ∧ (∀ code reset, respond env (events w) u auth = HTTPError code reset →
       code = 429 ∨ code = 403 →
       let wait := rate_limit_wait reset (unix_seconds (clock env (events w1))) in
       10000 ≤ wait ≤ 300000
       ∧ (reset = None → wait = 60000)
       ∧ make_request env u token 3 w
         = attempt_then env u auth 2
             (attempt_then env u auth 3 (λ w, (Val None, w)))
             (add_event (Sleep wait) w1))
  ∧ (transient (respond env (events w) u auth) →
       (∀ body, respond env (Sleep 5000 :: events w1) u auth = Success body →
          make_request env u token 3 w = (Val (Some body), w2))
       ∧ (∀ e, respond env (Sleep 5000 :: events w1) u auth = Failure e →
            make_request env u token 3 w = (Raise e, w2))
       ∧ (transient (respond env (Sleep 5000 :: events w1) u auth) →
            (∀ body, respond env (Sleep 10000 :: events w2) u auth = Success body →
               make_request env u token 3 w = (Val (Some body), w3))
            ∧ (∀ e, respond env (Sleep 10000 :: events w2) u auth = Failure e →
                 make_request env u token 3 w = (Raise e, w3))))
  ∧ make_request env u token 3 w = contract env u auth w.
Proof.
  intros auth w1 w2 w3.
  assert (Hpause : ∀ (o : outcome (json u)) attempt unix_now,
    transient o → attempt < 3 → reaction_to o attempt unix_now = Pauses (5000 * attempt)).
  { intros o attempt unix_now Ho Hlt. destruct o as [body|code reset| |e]; try done; simpl.
    - destruct Ho as (H429 & H403 & H404).
      rewrite decide_False by (intros [?|?]; done). rewrite decide_False by done.
      by rewrite decide_True.
    - by rewrite decide_True. }
  assert (Hcontract : ∀ w, make_request env u token 3 w = contract env u auth w).
  { intros w0. unfold make_request, contract.
    rewrite make_request_loop_attempt by lia. apply attempt_then_ext. intros w1'.
    rewrite make_request_loop_attempt by lia. apply attempt_then_ext. intros w2'.
    rewrite make_request_loop_attempt by lia. apply attempt_then_ext. intros w3'.
    reflexivity. }
  split; [|split; [|split; [|split; [|split; [|split; [|split; [|split]]]]]]]; cycle 5.
  - intros e Hresp. rewrite Hcontract. unfold contract, attempt_then at 1.
    fold w1. by rewrite Hresp.
  - intros code reset Hresp Hcode wait. split; [|split].
    + unfold wait, rate_limit_wait. destruct reset; lia.
    + intros ->. reflexivity.
    + rewrite Hcontract. unfold contract, attempt_then at 1. fold w1.
      rewrite Hresp. unfold reaction_to. by rewrite decide_True.
  - intros H1.
    assert (Hsecond : make_request env u token 3 w
      = match reaction_to (respond env (Sleep 5000 :: events w1) u auth) 2
                (unix_seconds (clock env (events w2))) with
        | Returns v => (Val v, w2)
        | Raises e => (Raise e, w2)
        | Pauses ms =>
            attempt_then env u auth 3 (λ w, (Val None, w)) (add_event (Sleep ms) w2)
        end).
    { rewrite Hcontract. unfold contract, attempt_then at 1. fold w1.
      by rewrite (Hpause _ 1 _ H1) by lia. }
    rewrite Hsecond. split; [|split].
    + intros body Hresp. by rewrite Hresp.
    + intros e Hresp. by rewrite Hresp.
    + intros H2. rewrite (Hpause _ 2 _ H2) by lia. change (5000 * 2) with 10000.
      unfold attempt_then. cbn [events add_event]. fold w1 w2 w3.
      split.
      * intros body Hresp. by rewrite Hresp.
      * intros e Hresp. by rewrite Hresp.
  - apply Hcontract.
  - intros Hok. by apply make_request_loop_returns.
  - intros body Hresp. unfold make_request. simpl.
    unfold bind, urlopen. fold auth. by rewrite Hresp.
  - intros reset Hresp. unfold make_request. simpl.
    unfold bind, urlopen. fold auth. by rewrite Hresp.
  - intros H1 H2 H3. unfold make_request.
    rewrite make_request_loop_retry by (done || lia).
    rewrite make_request_loop_retry by (exact H2 || lia).
    rewrite make_request_loop_give_up by (exact H3 || lia).
    reflexivity.
  - intros r w' Hrun. apply make_request_loop_trace in Hrun as (Hr & new & Hev & Hlen & Hsl).
    split; [done|]. exists new. split; [done|]. split; [done|].
    intros ms Hin%Hsl. lia.
Qed.

End RequestFacts.

(** ** The organization cache *)

Section CacheFacts.
Import Fetcher Pipeline.
Variable env : environment.
Variable fuel : nat.
Variable org : string.
Variable v : list string.

Lemma keeps_ret {A} (a : A) : keeps org v (ret a).
Proof. intros w r w' Hc [= <- <-]. done. Qed.

Lemma keeps_raise {A} (e : exn) : keeps org v (raise (A := A) e).
Proof. intros w r w' Hc [= <- <-]. done. Qed.

Lemma keeps_diverge {A} : keeps org v (diverge (A := A)).
Proof. intros w r w' Hc [= <- <-]. done. Qed.

Lemma keeps_lift {A} (x : result A) : keeps org v (lift x).
Proof. intros w r w' Hc [= <- <-]. done. Qed.

Lemma keeps_bind {A B} (m : M A) (f : A → M B) :
  keeps org v m → (∀ a, keeps org v (f a)) → keeps org v (bind m f).
Proof.
  intros Hm Hf w r w' Hc. unfold bind.
  destruct (m w) as [[a|e|] w1] eqn:Hrun.
  - destruct (Hm _ _ _ Hc Hrun) as [Hc1 Hn1]. intros Hrun2.
    destruct (Hf a _ _ _ Hc1 Hrun2) as [Hc2 Hn2]. split; [done|congruence].
  - intros [= <- <-]. by apply (Hm _ _ _ Hc Hrun).
  - intros [= <- <-]. by apply (Hm _ _ _ Hc Hrun).
Qed.

Lemma keeps_try_except {A} (m : M A) (handler : exn → M A) :
  keeps org v m → (∀ e, keeps org v (handler e)) → keeps org v (try_except m handler).
Proof.
  intros Hm Hh w r w' Hc. unfold try_except.
  destruct (m w) as [[a|e|] w1] eqn:Hrun.
  - intros [= <- <-]. by apply (Hm _ _ _ Hc Hrun).
  - destruct (Hm _ _ _ Hc Hrun) as [Hc1 Hn1]. intros Hrun2.
    destruct (Hh e _ _ _ Hc1 Hrun2) as [Hc2 Hn2]. split; [done|congruence].
  - intros [= <- <-]. by apply (Hm _ _ _ Hc Hrun).
Qed.

Lemma keeps_for_each {A S} (l : list A) (body : S → A → M S) (s : S) :
  (∀ s x, keeps org v (body s x)) → keeps org v (for_each l body s).
Proof.
  intros Hbody. revert s. induction l as [|x l IH]; intros s; simpl.
  - apply keeps_ret.
  - apply keeps_bind; [apply Hbody|]. intros s'. apply IH.
Qed.

(** Reading the world tells the continuation that the entry is cached. *)
Lemma keeps_get_world {A} (f : world → M A) :
  (∀ w0, org_repos_cache w0 !! org = Some v → keeps org v (f w0)) →
  keeps org v (bind get_world f).
Proof. intros Hf w r w' Hc. unfold bind, get_world. by apply Hf. Qed.

Lemma keeps_sleep (ms : Z) : keeps org v (sleep ms).
Proof. intros w r w' Hc [= <- <-]. done. Qed.

Lemma keeps_log (l : log_line) : keeps org v (log l).
Proof. intros w r w' Hc [= <- <-]. done. Qed.

Lemma keeps_now : keeps org v (now env).
Proof. intros w r w' Hc [= <- <-]. done. Qed.

Lemma keeps_write_file (slug : string) (s : Snapshot) : keeps org v (write_file slug s).
Proof. intros w r w' Hc [= <- <-]. done. Qed.

Lemma keeps_cache_store (org' : string) (repos : list string) :
  org' ≠ org → keeps org v (cache_store org' repos).
Proof.
  intros Hne w r w' Hc [= <- <-]. simpl. by rewrite lookup_insert_ne.
Qed.

Lemma keeps_urlopen (u : api_url) (auth : option string) :
  is_org_url org u = false → keeps org v (urlopen env u auth).
Proof.
  intros Hu w r w' Hc [= <- <-]. split; [done|].
  unfold org_listing_requests. simpl. rewrite filter_cons. simpl. by rewrite Hu.
Qed.

Ltac keeps_step :=
  match goal with
  | |- keeps _ _ (ret _) => apply keeps_ret
  | |- keeps _ _ (raise _) => apply keeps_raise
  | |- keeps _ _ diverge => apply keeps_diverge
  | |- keeps _ _ (lift _) => apply keeps_lift
  | |- keeps _ _ (sleep _) => apply keeps_sleep
  | |- keeps _ _ (log _) => apply keeps_log
  | |- keeps _ _ (now _) => apply keeps_now
  | |- keeps _ _ (write_file _ _) => apply keeps_write_file
  | |- keeps _ _ (bind get_world _) => apply keeps_get_world; intros ? ?
  | |- keeps _ _ (bind _ _) => apply keeps_bind; [|intros ?]
  | |- keeps _ _ (try_except _ _) => apply keeps_try_except; [|intros ?]
  | |- keeps _ _ (for_each _ _ _) => apply keeps_for_each; intros ? ?
  | |- keeps _ _ (match ?x with _ => _ end) => destruct x
  | |- keeps _ _ ((match ?x with _ => _ end) _) => destruct x
  end.

Lemma keeps_make_request (u : api_url) (token : string) (retry_count : nat) :
  is_org_url org u = false → keeps org v (make_request env u token retry_count).
Proof.
  intros Hu. unfold make_request.
  assert (Hloop : ∀ n attempt,
            keeps org v (make_request_loop env u token retry_count n attempt));
    [|apply Hloop].
  induction n as [|n IH]; intros attempt; simpl; unfold time_time;
    repeat keeps_step; first [by apply keeps_urlopen | apply IH].
Qed.

Lemma keeps_fetch_all_pages (base_url : listing) (token : string) :
  base_url ≠ OrgReposL org → keeps org v (fetch_all_pages env fuel base_url token).
Proof.
  intros Hl. unfold fetch_all_pages.
  assert (Hloop : ∀ n page all_items,
            keeps org v (fetch_pages_loop env n base_url token page all_items));
    [|apply Hloop].
  induction n as [|n IH]; intros page all_items; simpl.
  - apply keeps_diverge.
  - apply keeps_bind.
    + apply (keeps_make_request (PageUrl base_url page)).
      destruct base_url; try done. simpl.
      apply bool_decide_eq_false. congruence.
    + intros [[|x items]|]; repeat keeps_step. apply IH.
Qed.

Lemma keeps_fetch_org_repos (org' : string) (token : string) :
  org' ≠ org → keeps org v (fetch_org_repos env fuel org' token).
Proof.
  intros Hne. unfold fetch_org_repos. repeat keeps_step.
  apply (keeps_fetch_all_pages (OrgReposL org')). congruence.
Qed.

Lemma keeps_fetch_pull_requests owner repo (s e : pydatetime) token since :
  keeps org v (fetch_pull_requests env fuel owner repo s e token since).
Proof.
  unfold fetch_pull_requests. repeat keeps_step.
  by apply (keeps_fetch_all_pages (PullsL owner repo _)).
Qed.

Lemma keeps_fetch_reviews_for_pr owner repo (n : Z) token :
  keeps org v (fetch_reviews_for_pr env fuel owner repo n token).
Proof. by apply (keeps_fetch_all_pages (ReviewsL owner repo n)). Qed.

Lemma keeps_fetch_issues owner repo (s e : pydatetime) token :
  keeps org v (fetch_issues env fuel owner repo s e token).
Proof.
  unfold fetch_issues. repeat keeps_step.
  by apply (keeps_fetch_all_pages (IssuesL owner repo)).
Qed.

Lemma keeps_fetch_repo_metadata owner repo token :
  keeps org v (fetch_repo_metadata env owner repo token).
Proof.
  unfold fetch_repo_metadata. apply keeps_bind.
  - by apply (keeps_make_request (RepoUrl owner repo)).
  - intros data. repeat keeps_step.
Qed.

(** With the shared dictionary, resolution reads a cached listing and asks
    upstream only for the listings of other organizations. *)
Lemma keeps_resolve_repositories name organization explicit_repos token :
  keeps org v (resolve_repositories env fuel name organization explicit_repos token SharedCache).
Proof.
  unfold resolve_repositories. apply keeps_bind; [|intros ?; repeat keeps_step].
  destruct organization as [o|]; [|apply keeps_ret].
  destruct (bool_decide (o = "")); [apply keeps_ret|].
  apply keeps_get_world. intros w0 Hw0.
  destruct (decide (o = org)) as [->|Hne].
  - rewrite Hw0. repeat keeps_step.
  - apply keeps_bind; [|intros ?; repeat keeps_step].
    destruct (org_repos_cache w0 !! o); [apply keeps_ret|].
    repeat keeps_step; first [by apply keeps_fetch_org_repos | by apply keeps_cache_store].
Qed.

Lemma keeps_process_hackathon hackathon_config token :
  keeps org v (process_hackathon env fuel hackathon_config token SharedCache).
Proof.
  unfold process_hackathon, subscript, subscript_field, github_settings, fromisoformat,
    load_existing_data, watermark,
    fetch_all_prs, fetch_all_reviews, fetch_all_issues, fetch_all_metadata.
  repeat keeps_step;
    first [ apply keeps_resolve_repositories | apply keeps_fetch_pull_requests
          | apply keeps_fetch_reviews_for_pr | apply keeps_fetch_issues
          | apply keeps_fetch_repo_metadata ].
Qed.

Lemma keeps_main_loop token hackathons :
  keeps org v (main_loop env fuel token hackathons).
Proof.
  unfold main_loop, main_body, is_hackathon_active, fromisoformat.
  repeat keeps_step. apply keeps_process_hackathon.
Qed.

End CacheFacts.

(** ** [process_hackathon] and [main] *)

Section PipelineFacts.
Import Fetcher Pipeline.
Variable env : environment.
Variable fuel : nat.

Lemma for_each_app {A S} (l1 l2 : list A) (body : S → A → M S) (s : S) (w : world) :
  for_each (l1 ++ l2) body s w = bind (for_each l1 body s) (for_each l2 body) w.
Proof.
  unfold bind. revert s w. induction l1 as [|x l1 IH]; intros s w; simpl.
  - by destruct (for_each l2 body s w) as [[?|?|] ?].
  - unfold bind. destruct (body s x w) as [[s'|e|] w1]; [|done..].
    apply IH.
Qed.

(** Without an organization the explicit list is the resolved list, as it
    stands; an empty one is reported and nothing is resolved. *)
Lemma resolve_without_organization (name token : string) (explicit : list string)
    (cache : cache_arg) (w : world) :
  resolve_repositories env fuel name None explicit token cache w
  = match explicit with
    | [] => (Val None, add_event (Log (WarnNoRepositories name)) w)
    | _ :: _ => (Val (Some explicit), w)
    end.
Proof. by destruct explicit. Qed.

(** With a listing of at least one repository the resolved list is the union
    of both lists, each repository once. *)
Lemma resolve_merges_listing (name org token : string) (explicit : list string)
    (w w1 w' : world) (org_repos : list string) (r : result (option (list string))) :
  org ≠ "" →
  org_repos_cache w !! org = None →
  fetch_org_repos env fuel org token w = (Val org_repos, w1) →
  org_repos ≠ [] →
  resolve_repositories env fuel name (Some org) explicit token SharedCache w = (r, w') →
  ∃ repos, r = Val (Some repos) ∧ NoDup repos
           ∧ ∀ x, x ∈ repos ↔ x ∈ explicit ∨ x ∈ org_repos.
Proof.
  intros Hne Hmiss Hfetch Hsome. unfold resolve_repositories.
  rewrite bool_decide_eq_false_2 by done.
  unfold bind, get_world, try_except. rewrite Hmiss. unfold bind. rewrite Hfetch.
  destruct org_repos as [|y l]; [done|]. simpl.
  assert (Hunion : ∀ x,
    x ∈ elements (list_to_set explicit ∪ ({[y]} ∪ list_to_set l) : gset string)
    ↔ x ∈ explicit ∨ x ∈ y :: l).
  { intros x. rewrite elem_of_elements, elem_of_union, elem_of_union,
      elem_of_singleton, !elem_of_list_to_set, elem_of_cons. done. }
  destruct (elements _) as [|z repos] eqn:Hel.
  - exfalso. apply (not_elem_of_nil y). apply Hunion. right. left.
  - intros [= <- <-]. eexists. split; [done|]. split; [|done].
    rewrite <- Hel. apply NoDup_elements.
Qed.

(** A listing fetched with at least one repository goes into the dictionary. *)
Lemma resolve_stores_listing (name org token : string) (explicit : list string)
    (w w1 w' : world) (org_repos : list string) (r : result (option (list string))) :
  org ≠ "" →
  org_repos_cache w !! org = None →
  fetch_org_repos env fuel org token w = (Val org_repos, w1) →
  org_repos ≠ [] →
  resolve_repositories env fuel name (Some org) explicit token SharedCache w = (r, w') →
  org_repos_cache w' !! org = Some org_repos.
Proof.
  intros Hne Hmiss Hfetch Hsome. unfold resolve_repositories.
  rewrite bool_decide_eq_false_2 by done.
  unfold bind, get_world, try_except. rewrite Hmiss. unfold bind. rewrite Hfetch.
  destruct org_repos as [|x l]; [done|]. simpl.
  destruct (elements _); intros [= <- <-]; simpl; apply lookup_insert_eq.
Qed.

(** An empty or failed listing is not stored. *)
Lemma resolve_skips_empty_listing (name org token : string) (explicit : list string)
    (w w1 w' : world) (r : result (option (list string))) :
  org ≠ "" →
  org_repos_cache w !! org = None →
  fetch_org_repos env fuel org token w = (Val [], w1) →
  resolve_repositories env fuel name (Some org) explicit token SharedCache w = (r, w') →
  org_repos_cache w' = org_repos_cache w1.
Proof.
  intros Hne Hmiss Hfetch. unfold resolve_repositories.
  rewrite bool_decide_eq_false_2 by done.
  unfold bind, get_world, try_except. rewrite Hmiss. unfold bind. rewrite Hfetch.
  simpl. destruct explicit; intros [= <- <-]; done.
Qed.

(** The requests for the listing of an organization only grow in number. *)
Lemma org_listing_requests_app (org : string) (new evs : list event) :
  (org_listing_requests org evs ≤ org_listing_requests org (new ++ evs))%nat.
Proof. unfold org_listing_requests. rewrite filter_app, length_app. lia. Qed.

Lemma fetch_pages_loop_grows (base_url : listing) (token : string) (n page : nat)
    (all_items : list (item base_url)) (w w' : world)
    (r : result (list (item base_url))) :
  fetch_pages_loop env n base_url token page all_items w = (r, w') →
  (∃ new, events w' = new ++ events w) ∧ org_repos_cache w' = org_repos_cache w.
Proof.
  revert page all_items w. induction n as [|n IH]; intros page all_items w; simpl.
  - intros [= <- <-]. split; [by exists []|done].
  - unfold bind at 1.
    destruct (make_request env (PageUrl base_url page) token 3 w)
      as [[items|e|] w1] eqn:Hreq;
      apply make_request_loop_frame in Hreq as ((new & Hev & _) & _ & _ & Hc);
      try (intros [= <- <-]; split; [by exists new|done]).
    destruct items as [[|x items]|];
      try (intros [= <- <-]; split; [by exists new|done]).
    destruct (length (x :: items) <? per_page)%nat;
      [intros [= <- <-]; split; [by exists new|done]|].
    unfold bind, sleep. intros [[new' Hev'] Hc']%IH. simpl in Hev', Hc'.
    split; [|congruence]. exists (new' ++ Sleep 200 :: new).
    rewrite Hev', Hev, <- app_assoc. done.
Qed.

(** Fetching the listing of an organization asks upstream for it, and leaves
    the dictionary to its caller. *)
Lemma fetch_org_repos_asks (org token : string) (w w1 : world)
    (r : result (list string)) :
  (0 < fuel)%nat →
  fetch_org_repos env fuel org token w = (r, w1) →
  (org_listing_requests org (events w) < org_listing_requests org (events w1))%nat
  ∧ org_repos_cache w1 = org_repos_cache w.
Proof.
  intros Hfuel. destruct fuel as [|n]; [lia|].
  assert (Hpages : ∀ r0 w0,
    fetch_all_pages env (S n) (OrgReposL org) token w = (r0, w0) →
    (org_listing_requests org (events w) < org_listing_requests org (events w0))%nat
    ∧ org_repos_cache w0 = org_repos_cache w).
  { intros r0 w0. unfold fetch_all_pages. simpl. unfold bind at 1.
    destruct (make_request env (PageUrl (OrgReposL org) 1) token 3 w)
      as [r1 wa] eqn:Hreq.
    apply make_request_loop_first in Hreq as [[new Hev] Hc].
    assert (Hsent : (org_listing_requests org (events w)
                     < org_listing_requests org (events wa))%nat).
    { rewrite Hev. eapply Nat.lt_le_trans; [|apply org_listing_requests_app].
      unfold org_listing_requests. rewrite filter_cons. simpl.
      rewrite bool_decide_eq_true_2 by done. simpl. lia. }
    destruct r1 as [items|e|]; try (intros [= <- <-]; split; [exact Hsent|done]).
    simpl in items. destruct items as [[|x items]|];
      try (intros [= <- <-]; split; [exact Hsent|done]).
    destruct (length (x :: items) <? per_page)%nat;
      [intros [= <- <-]; split; [exact Hsent|done]|].
    unfold bind, sleep. intros Hrest.
    apply (fetch_pages_loop_grows (OrgReposL org)) in Hrest as [[new' Hev'] Hc'].
    simpl in Hev', Hc'. split; [|congruence].
    eapply Nat.lt_le_trans; [exact Hsent|].
    rewrite Hev'. etrans; [|apply org_listing_requests_app].
    unfold org_listing_requests. rewrite filter_cons. simpl. lia. }
  unfold fetch_org_repos, bind.
  destruct (fetch_all_pages env (S n) (OrgReposL org) token w) as [r0 w0].
  destruct (Hpages r0 w0 eq_refl) as [Hasked Hc].
  destruct r0 as [repos|e|]; unfold ret; by intros [= <- <-].
Qed.

(** A listing that came back empty, or whose fetch raised, leaves the
    organization without an entry. *)
Lemma resolve_leaves_miss (name org token : string) (explicit : list string)
    (w w1 w' : world) (r : result (option (list string))) :
  (0 < fuel)%nat →
  org ≠ "" →
  org_repos_cache w !! org = None →
  fetch_org_repos env fuel org token w = (Val [], w1)
  ∨ (∃ e, fetch_org_repos env fuel org token w = (Raise e, w1)) →
  resolve_repositories env fuel name (Some org) explicit token SharedCache w = (r, w') →
  org_repos_cache w' !! org = None.
Proof.
  intros Hfuel Hne Hmiss Hfetch. unfold resolve_repositories.
  rewrite bool_decide_eq_false_2 by done.
  unfold bind at 1. unfold bind at 1, get_world at 1. rewrite Hmiss.
  unfold bind at 1, try_except, bind at 1.
  destruct Hfetch as [Hfetch|[e Hfetch]]; rewrite Hfetch;
    apply fetch_org_repos_asks in Hfetch as [_ Hc]; try done;
    unfold bind, log, ret; destruct explicit; intros [= <- <-]; simpl; by rewrite Hc.
Qed.

(** A resolution that finds no entry for its organization asks upstream for
    the listing. *)
Lemma resolve_miss_asks (name org token : string) (explicit : list string)
    (w w' : world) (r : result (option (list string))) :
  (0 < fuel)%nat →
  org ≠ "" →
  org_repos_cache w !! org = None →
  resolve_repositories env fuel name (Some org) explicit token SharedCache w = (r, w') →
  (org_listing_requests org (events w) < org_listing_requests org (events w'))%nat.
Proof.
  intros Hfuel Hne Hmiss. unfold resolve_repositories.
  rewrite bool_decide_eq_false_2 by done.
  unfold bind at 1. unfold bind at 1, get_world at 1. rewrite Hmiss.
  unfold bind at 1, try_except, bind at 1.
  destruct (fetch_org_repos env fuel org token w) as [[org_repos|e|] w1] eqn:Hfetch;
    apply fetch_org_repos_asks in Hfetch as [Hasked _]; try done.
  - destruct org_repos as [|x l]; unfold bind, ret, cache_store, log; simpl.
    + destruct explicit; intros [= <- <-]; exact Hasked.
    + destruct (elements _); intros [= <- <-]; exact Hasked.
  - unfold bind, log, ret. destruct explicit; intros [= <- <-]; exact Hasked.
  - intros [= <- <-]. exact Hasked.
Qed.

(** C7, as amended.  A listing that [fetch_org_repos] returns with at least
    one repository is stored in the shared dictionary under its organization;
    from the moment an organization has an entry, the rest of the run sends no
    request for that listing and leaves the entry as it is, however many
    events name the organization.  A listing that comes back empty, or whose
    fetch raises, is not stored: the organization is still without an entry
    after the event, and every resolution that finds no entry asks upstream
    for the listing, so each later event that names the organization fetches
    it again. *)
Theorem cached_listing_never_refetched (token org : string) (v : list string) :
  (∀ name explicit w w1 w' org_repos r,
     org ≠ "" →
     org_repos_cache w !! org = None →
     fetch_org_repos env fuel org token w = (Val org_repos, w1) →
     org_repos ≠ [] →
     resolve_repositories env fuel name (Some org) explicit token SharedCache w = (r, w') →
     org_repos_cache w' !! org = Some org_repos)
  ∧ (∀ hs1 hs2 w0 w1 r w2,
       main_loop env fuel token hs1 w0 = (Val tt, w1) →
       org_repos_cache w1 !! org = Some v →
       main_loop env fuel token (hs1 ++ hs2) w0 = (r, w2) →
       org_repos_cache w2 !! org = Some v
       ∧ org_listing_requests org (events w2) = org_listing_requests org (events w1))
  ∧ (∀ name explicit w w1 w' r,
       (0 < fuel)%nat →
       org ≠ "" →
       org_repos_cache w !! org = None →
       fetch_org_repos env fuel org token w = (Val [], w1)
       ∨ (∃ e, fetch_org_repos env fuel org token w = (Raise e, w1)) →
       resolve_repositories env fuel name (Some org) explicit token SharedCache w
         = (r, w') →
       org_repos_cache w' !! org = None)
  ∧ (∀ name explicit w w' r,
       (0 < fuel)%nat →
       org ≠ "" →
       org_repos_cache w !! org = None →
       resolve_repositories env fuel name (Some org) explicit token SharedCache w
         = (r, w') →
       (org_listing_requests org (events w) < org_listing_requests org (events w'))%nat).
Proof.
  split; [|split; [|split]].
  - intros name explicit w w1 w' org_repos r. apply resolve_stores_listing.
  - intros hs1 hs2 w0 w1 r w2 Hrun1 Hcached. unfold main_loop.
    rewrite for_each_app. unfold bind. fold (main_loop env fuel token hs1).
    rewrite Hrun1. intros Hrun2.
    by apply (keeps_main_loop env fuel org v token hs2 w1 r w2).
  - intros name explicit w w1 w' r. apply resolve_leaves_miss.
  - intros name explicit w w' r. apply resolve_miss_asks.
Qed.

(** Failures inside [process_hackathon] stop at the [try] of [main]: when
    the event has an end time that parses with an offset, its iteration
    raises nothing. *)
Lemma main_body_never_raises (token : string) (h : Hackathon) (w w' : world) (e : exn) :
  has_aware_end h →
  main_body env fuel token h w ≠ (Raise e, w').
Proof.
  intros [end_dt Hend]. unfold main_body, is_hackathon_active. rewrite Hend. simpl.
  unfold bind, now, ret, lift, get_world. simpl.
  match goal with |- context [if ?c then _ else _] => destruct c end; [done|].
  unfold try_except, bind, log.
  by destruct (process_hackathon env fuel h token SharedCache w) as [[[d|]|e'|] w1].
Qed.

Lemma main_loop_never_raises (token : string) (hackathons : list Hackathon)
    (w w' : world) (e : exn) :
  Forall has_aware_end hackathons →
  main_loop env fuel token hackathons w ≠ (Raise e, w').
Proof.
  intros Hall. revert w. unfold main_loop.
  induction Hall as [|h hs Hend _ IH]; intros w; simpl; [done|].
  unfold bind.
  destruct (main_body env fuel token h w) as [[[]|e'|] w1] eqn:Hbody.
  - apply IH.
  - by apply main_body_never_raises in Hbody.
  - done.
Qed.

(** The loop that counts the repositories of the summary ends. *)
Lemma summary_repositories_returns (hackathons : list Hackathon) :
  summary_repositories hackathons ≠ Diverge.
Proof.
  unfold summary_repositories. generalize (∅ : gset string).
  induction hackathons as [|x l IH]; intros acc; simpl; [done|].
  destruct (github x) as [| |github_config]; [apply IH|done|].
  destruct (repositories github_config); [apply IH|done|apply IH].
Qed.

(** With such a configuration [main] completes, the summary written, unless
    it is still paging through a listing when the fuel runs out, or the loop
    that counts the repositories of the summary meets a null. *)
Lemma main_completes (token : string) (h : Hackathon) (hackathons : list Hackathon)
    (w : world) :
  Forall has_aware_end (h :: hackathons) →
  (∃ w', main env fuel (Some (h :: hackathons)) token w = (Val Completed, w')
         ∧ is_Some (stats_json w'))
  ∨ (∃ w', main env fuel (Some (h :: hackathons)) token w = (Diverge, w'))
  ∨ (∃ e w', summary_repositories (h :: hackathons) = Raise e
             ∧ main env fuel (Some (h :: hackathons)) token w = (Raise e, w')).
Proof.
  intros Hall. pose proof (summary_repositories_returns (h :: hackathons)) as Hnd.
  unfold main, bind, cache_reset, lift, now, write_summary, ret.
  match goal with |- context [main_loop env fuel token (h :: hackathons) ?w0] =>
    destruct (main_loop env fuel token (h :: hackathons) w0) as [[[]|e|] w1] eqn:Hrun
  end.
  - destruct (summary_repositories (h :: hackathons)) as [all_repos|e|]; [| |done].
    + left. eexists. split; [reflexivity|]. simpl. eauto.
    + right. right. eexists _, _. split; reflexivity.
  - by apply main_loop_never_raises in Hrun.
  - right. left. by eexists.
Qed.

End PipelineFacts.

(** ** The properties on concrete inputs *)

Section Examples.
Import Aggregator Fetcher Pipeline.

(** The end-to-end scenario of the specification: two merged pull requests
    on Jan 1 and Jan 2 by different authors, one issue closed on Jan 1. *)
Example end_to_end_scenario :
  ∃ st,
    process_hackathon_stats scenario_prs [] scenario_issues
      (Aware window_start) (Aware window_end) ["acme/widgets"] = Val st
    ∧ (totalPRs st, mergedPRs st, totalIssues st, closedIssues st)
      = (2, 2, 1, 1)%nat
    ∧ map_to_list (dailyActivity st)
      ≡ₚ [ (jan_1_2024, {| day_total := 1; day_merged := 1 |});
           (jan_1_2024 + 1, {| day_total := 1; day_merged := 1 |});
           (jan_1_2024 + 2, zero_day) ]
    ∧ (λ p, (username p, mergedCount p)) <$> leaderboard st
      = [("alice", 1%nat); ("bob", 1%nat)].
Proof.
  eexists. split; [vm_compute; reflexivity|]. split; [reflexivity|].
  split; [|reflexivity]. vm_compute. apply Permutation_swap.
Qed.

(** C1 on a newest-first listing around a snapshot of midday Jan 2: of the
    pull requests updated at T + 1 min, T - 10 min and T - 90 min only the
    first is fetched. *)
Lemma incremental_fetch_watermark_witness :
  updated_desc incremental_prs
  ∧ ∃ filtered,
      (fetch_pull_requests incremental_upstream 1
         "acme" "widgets" (Aware window_start) (Aware window_end) ""
         (Some (noon_jan_2 - timedelta_minutes 5)) empty_world).1 = Val filtered
      ∧ pr_number <$> filtered = [3].
Proof.
  assert (Hsorted : updated_desc incremental_prs).
  { unfold updated_desc, incremental_prs.
    repeat apply SSorted_cons; try apply SSorted_nil;
      repeat (apply List.Forall_cons; [vm_compute; discriminate|]);
      apply List.Forall_nil. }
  split; [exact Hsorted|].
  destruct (incremental_fetch_watermark
              incremental_upstream 1
              "acme" "widgets" window_start window_end "" noon_jan_2
              (snapshot_at noon_jan_2) empty_world empty_world
              (fetch_all_pages incremental_upstream 1
                 (PullsL "acme" "widgets" SortUpdated) "" empty_world).2
              incremental_prs)
    as (_ & filtered & Hrun & _).
  - reflexivity.
  - vm_compute. split; discriminate.
  - vm_compute. reflexivity.
  - exact Hsorted.
  - exists filtered. rewrite Hrun. split; [reflexivity|].
    vm_compute in Hrun. injection Hrun as <-. reflexivity.
Defined.

(** C2 on the scenario: three days, three buckets. *)
Lemma daily_activity_one_entry_per_date_witness :
  returns_daily window_start window_end
  ∧ ∃ st,
      process_hackathon_stats scenario_prs [] scenario_issues
        (Aware window_start) (Aware window_end) ["acme/widgets"] = Val st
      ∧ size (dailyActivity st) = 3%nat.
Proof.
  assert (Hreturns : returns_daily window_start window_end)
    by (right; vm_compute; reflexivity).
  split; [exact Hreturns|].
  destruct (proj1 (daily_activity_one_entry_per_date scenario_prs [] scenario_issues
                     window_start window_end ["acme/widgets"]) Hreturns)
    as (daily0 & st & _ & _ & Hst & _ & Hsize & _).
  exists st. split; [exact Hst|]. rewrite Hsize. vm_compute. reflexivity.
Defined.

(** C3 on a record set with a bot, a Copilot title and reviews of every kind. *)
Lemma bots_and_copilot_not_credited_witness :
  returns_daily window_start window_end
  ∧ ∃ st,
      process_hackathon_stats mixed_prs mixed_reviews []
        (Aware window_start) (Aware window_end) []
        = Val st
      ∧ totalPRs st = 5%nat
      ∧ ∀ p, p ∈ leaderboard st → is_bot (username p) = false.
Proof.
  assert (Hreturns : returns_daily window_start window_end)
    by (right; vm_compute; reflexivity).
  split; [exact Hreturns|].
  destruct (bots_and_copilot_not_credited mixed_prs mixed_reviews [] window_start
              window_end [] Hreturns) as (st & Hst & Htotal & _ & Hranked).
  exists st. split; [exact Hst|]. split; [exact Htotal|].
  intros p Hp. apply Hranked. left. exact Hp.
Defined.

(** C3 as stated fails: alice wrote a pull request titled after Copilot and
    is ranked all the same, through her other merged pull request. *)
Lemma excluded_author_never_ranked_fails :
  ¬ excluded_author_never_ranked copilot_title_prs [] [] window_start window_end [].
Proof.
  intros Hclaim.
  assert (∃ st pr p,
            process_hackathon_stats copilot_title_prs [] []
              (Aware window_start) (Aware window_end) []
              = Val st
            ∧ pr ∈ copilot_title_prs
            ∧ is_copilot_pr (login (pr_user pr)) (pr_title_str pr) = true
            ∧ p ∈ leaderboard st ∧ username p = login (pr_user pr))
    as (st & pr & p & Hst & Hpr & Hcop & Hp & Hname).
  { eexists _, _, _. split; [vm_compute; reflexivity|].
    split; [apply list_elem_of_here|]. split; [reflexivity|].
    split; [apply list_elem_of_here|reflexivity]. }
  exact (Hclaim st pr Hst Hpr (or_intror Hcop) p Hp Hname).
Qed.

(** C4 on the same record set: bob, alice, carol and erin, in first-seen order. *)
Lemma leaderboards_ranked_witness :
  returns_daily window_start window_end
  ∧ ∃ st ps,
      process_hackathon_stats mixed_prs mixed_reviews []
        (Aware window_start) (Aware window_end) []
        = Val st
      ∧ username <$> ps = ["bob"; "alice"; "carol"; "erin"]
      ∧ ranking_of mergedCount ps (leaderboard st)
      ∧ ranking_of reviewCount ps (reviewLeaderboard st).
Proof.
  assert (Hreturns : returns_daily window_start window_end)
    by (right; vm_compute; reflexivity).
  split; [exact Hreturns|].
  destruct (leaderboards_ranked mixed_prs mixed_reviews [] window_start window_end []
              Hreturns) as (st & ps & Hst & Hnames & _ & _ & Hlb & Hrlb).
  exists st, ps. split; [exact Hst|]. split; [|split; assumption].
  rewrite Hnames. vm_compute. reflexivity.
Defined.

(** C5 on a listing of one pull request. *)
Lemma relevance_filter_closed_window_witness :
  ∃ filtered,
    (fetch_pull_requests window_end_upstream 1
       "acme" "widgets" (Aware window_start) (Aware window_end) "" None empty_world).1
    = Val filtered
    ∧ ∀ x, x ∈ filtered → in_closed_window window_start window_end x.
Proof.
  destruct (relevance_filter_closed_window
              window_end_upstream 1
              "acme" "widgets" window_start window_end "" None empty_world
              (fetch_all_pages window_end_upstream 1
                 (PullsL "acme" "widgets" SortCreated) "" empty_world).2
              [pr_at_window_end])
    as (filtered & Hrun & Honly & _).
  - vm_compute. reflexivity.
  - exists filtered. rewrite Hrun. split; [reflexivity|exact Honly].
Defined.

(** C5 as stated fails: a pull request created at the very end instant lies
    outside [start, end) and is retained. *)
Lemma half_open_window_fails :
  ¬ retained_iff_in_half_open_window window_start window_end [pr_at_window_end].
Proof.
  intros Hclaim.
  assert (∃ filtered w',
            fetch_pull_requests window_end_upstream
              1 "acme" "widgets" (Aware window_start) (Aware window_end) "" None
              empty_world
              = (Val filtered, w')
            ∧ set_pr_repository "acme/widgets" pr_at_window_end ∈ filtered)
    as (filtered & w' & Hrun & Hkept).
  { eexists _, _. split; [vm_compute; reflexivity|apply list_elem_of_here]. }
  apply (Hclaim filtered w' Hrun pr_at_window_end (list_elem_of_here _ _)) in Hkept.
  destruct Hkept as [[_ Hlt]|(m & Hm & _)].
  - simpl in Hlt. lia.
  - discriminate Hm.
Qed.

(** C6.  An explicit list that names a repository twice, with no
    organization to merge it with, is resolved as it stands: the repository is
    listed twice and its pull requests are fetched and counted twice. *)
Theorem duplicate_explicit_repository_kept :
  ∃ snapshot w',
    process_hackathon scenario_upstream 1
      duplicated_repository "" SharedCache empty_world = (Val (Some snapshot), w')
    ∧ snap_repositories snapshot = ["acme/widgets"; "acme/widgets"]
    ∧ totalPRs (snap_stats snapshot) = 4%nat
    ∧ length scenario_prs = 2%nat.
Proof.
  eexists _, _. split; [vm_compute; reflexivity|]. repeat split.
Qed.

(** C7 on two events that name acme, whose listing holds one repository:
    the second event sends no request for it.  Where the listing of acme is
    empty, the resolution of an event asks for it and leaves acme without an
    entry. *)
Lemma cached_listing_never_refetched_witness :
  org_repos_cache (main_loop org_upstream 1 "" spring_event empty_world).2 !! "acme"
    = Some ["acme/widgets"]
  ∧ org_repos_cache
      (main_loop org_upstream 1 "" (spring_event ++ summer_event) empty_world).2 !! "acme"
    = Some ["acme/widgets"]
  ∧ org_listing_requests "acme"
      (events (main_loop org_upstream 1 "" (spring_event ++ summer_event) empty_world).2)
    = org_listing_requests "acme"
        (events (main_loop org_upstream 1 "" spring_event empty_world).2)
  ∧ org_repos_cache
      (resolve_repositories silent_upstream 1 "spring" (Some "acme") [] ""
         SharedCache empty_world).2 !! "acme" = None
  ∧ (0 < org_listing_requests "acme"
           (events (resolve_repositories silent_upstream 1 "spring" (Some "acme") [] ""
                      SharedCache empty_world).2))%nat.
Proof.
  assert (Hcached :
    org_repos_cache (main_loop org_upstream 1 "" spring_event empty_world).2 !! "acme"
    = Some ["acme/widgets"]) by (vm_compute; reflexivity).
  split; [exact Hcached|].
  destruct (cached_listing_never_refetched org_upstream 1 "" "acme" ["acme/widgets"])
    as (_ & Hkept & _).
  destruct (cached_listing_never_refetched silent_upstream 1 "" "acme" [])
    as (_ & _ & Hmiss & Hasks).
  destruct (Hkept spring_event summer_event empty_world
              (main_loop org_upstream 1 "" spring_event empty_world).2
              (main_loop org_upstream 1 "" (spring_event ++ summer_event) empty_world).1
              (main_loop org_upstream 1 "" (spring_event ++ summer_event) empty_world).2)
    as [Hentry Hrequests].
  - vm_compute. reflexivity.
  - exact Hcached.
  - vm_compute. reflexivity.
  - split; [exact Hentry|]. split; [exact Hrequests|]. split.
    + apply (Hmiss "spring" [] empty_world
               (fetch_org_repos silent_upstream 1 "acme" "" empty_world).2
               (resolve_repositories silent_upstream 1 "spring" (Some "acme") [] ""
                  SharedCache empty_world).2
               (resolve_repositories silent_upstream 1 "spring" (Some "acme") [] ""
                  SharedCache empty_world).1).
      * lia.
      * discriminate.
      * reflexivity.
      * left. vm_compute. reflexivity.
      * vm_compute. reflexivity.
    + apply (Hasks "spring" [] empty_world
               (resolve_repositories silent_upstream 1 "spring" (Some "acme") [] ""
                  SharedCache empty_world).2
               (resolve_repositories silent_upstream 1 "spring" (Some "acme") [] ""
                  SharedCache empty_world).1).
      * lia.
      * discriminate.
      * reflexivity.
      * vm_compute. reflexivity.
Defined.

(** C7 as stated fails: the empty listing of acme is requested once for each
    of the two events that name it. *)
Lemma listing_fetched_twice :
  ¬ listing_fetched_at_most_once silent_upstream 1
      (Some two_acme_events) "" empty_world "acme".
Proof.
  unfold listing_fetched_at_most_once.
  assert (org_listing_requests "acme"
            (events (main silent_upstream 1
                       (Some two_acme_events) "" empty_world).2) = 2%nat) as ->
    by (vm_compute; reflexivity).
  lia.
Qed.

(** C8 on an upstream that answers 500 to everything: three requests, sleeps
    of 5 s and 10 s between them, None.  And on one that refuses the first
    request with 429 and a hint 25 s ahead, loses the second and answers the
    third: the body of the third attempt comes back, after a wait of 30 s
    and one of 10 s. *)
Lemma make_request_contract_witness :
  transient (respond failing_upstream [] (RepoUrl "acme" "widgets") None)
  ∧ (make_request failing_upstream (RepoUrl "acme" "widgets") "" 3 empty_world).1
    = Val None
  ∧ events (make_request failing_upstream (RepoUrl "acme" "widgets") "" 3 empty_world).2
    = [ Request (RepoUrl "acme" "widgets") None; Sleep 10000;
        Request (RepoUrl "acme" "widgets") None; Sleep 5000;
        Request (RepoUrl "acme" "widgets") None ]
  ∧ make_request flaky_upstream (RepoUrl "acme" "widgets") "" 3 empty_world
    = (Val (Some widgets_body),
       {| events := [ Request (RepoUrl "acme" "widgets") None; Sleep 10000;
                      Request (RepoUrl "acme" "widgets") None; Sleep 30000;
                      Request (RepoUrl "acme" "widgets") None ];
          files := ∅; stats_json := None; org_repos_cache := ∅ |}).
Proof.
  assert (Ht : ∀ evs, transient (respond failing_upstream evs (RepoUrl "acme" "widgets") None))
    by (intros evs; vm_compute; repeat split; discriminate).
  split; [apply Ht|].
  destruct (make_request_contract failing_upstream (RepoUrl "acme" "widgets") ""
              empty_world) as (_ & _ & _ & Hretry & _).
  destruct (make_request_contract flaky_upstream (RepoUrl "acme" "widgets") ""
              empty_world) as (_ & _ & _ & _ & _ & _ & _ & _ & Hcontract).
  rewrite Hretry by apply Ht. split; [reflexivity|]. split; [reflexivity|].
  rewrite Hcontract. vm_compute. reflexivity.
Defined.

(** C8 as stated fails: a body that is not JSON makes [make_request] raise. *)
Lemma make_request_raises :
  ¬ make_request_never_raises garbled_upstream
      (RepoUrl "acme" "widgets") "" empty_world.
Proof. intros Hclaim. apply (Hclaim ValueError). vm_compute. reflexivity. Qed.

(** C9.  An event without an end time stops the whole run: the lifecycle
    test that reads it runs outside the [try] of the loop, so its exception
    leaves [main]; the events after it are not processed and the summary is
    not written.  So does an end time that [fromisoformat] refuses
    (ValueError) and one written without offset, which parses and cannot be
    compared with the clock (TypeError).  (A failure inside
    [process_hackathon], such as the KeyError of a missing start time, is
    caught and logged, and the run goes on.) *)
Theorem missing_end_time_aborts_run :
  let env := fixed_env (serving_pulls scenario_prs) noon_jan_2 in
  (∃ w', main env 1 (Some missing_end_time) "" empty_world = (Raise AttributeError, w')
         ∧ stats_json w' = None ∧ files w' = ∅ ∧ events w' = [])
  ∧ (∃ w', main env 1 (Some missing_start_time) "" empty_world = (Val Completed, w')
           ∧ is_Some (stats_json w')
           ∧ is_Some (files w' !! "widgets")
           ∧ Log (ErrorFailedHackathon "broken" KeyError) ∈ events w')
  ∧ (∃ w', main env 1 (Some unparsable_end_time) "" empty_world = (Raise ValueError, w')
           ∧ stats_json w' = None ∧ files w' = ∅ ∧ events w' = [])
  ∧ (∃ w', main env 1 (Some naive_end_time) "" empty_world = (Raise TypeError, w')
           ∧ stats_json w' = None ∧ files w' = ∅ ∧ events w' = []).
Proof.
  split; [|split; [|split]].
  - eexists. split; [vm_compute; reflexivity|]. repeat split.
  - eexists. split; [vm_compute; reflexivity|].
    split; [by eexists|]. split; [by eexists|].
    apply list_elem_of_In. vm_compute. tauto.
  - eexists. split; [vm_compute; reflexivity|]. repeat split.
  - eexists. split; [vm_compute; reflexivity|]. repeat split.
Qed.

(** C10 on the same record set: only the reviews of carol and erin submitted
    inside the window count (the end instant included). *)
Lemma reviews_outside_window_ignored_witness :
  returns_daily window_start window_end
  ∧ ∃ st,
      process_hackathon_stats mixed_prs mixed_reviews []
        (Aware window_start) (Aware window_end) []
        = Val st
      ∧ (λ p, (username p, reviewCount p)) <$> reviewLeaderboard st
        = [("carol", 1%nat); ("erin", 1%nat)]
      ∧ ∀ p, p ∈ reviewLeaderboard st →
          reviewCount p
          = length (counted_reviews (username p) window_start window_end mixed_reviews).
Proof.
  assert (Hreturns : returns_daily window_start window_end)
    by (right; vm_compute; reflexivity).
  split; [exact Hreturns|].
  destruct (reviews_outside_window_ignored mixed_prs mixed_reviews [] window_start
              window_end []) as (_ & _ & Hret).
  destruct (Hret Hreturns) as (st & Hst & Hranked).
  exists st. split; [exact Hst|]. split.
  - vm_compute in Hst. injection Hst as <-. reflexivity.
  - intros p Hp. apply Hranked. right. exact Hp.
Defined.

End Examples.

(** ** Further properties of [process_hackathon_stats] *)

Section RepoStats.
Import Aggregator.

Lemma repo_bump_lookup {A} (keyf : A → string) (upd : A → RepoStat → RepoStat)
    (m : gmap string RepoStat) (x : A) (k : string) :
  repo_bump keyf upd m x !! k =
    if decide (k = keyf x) then Some (upd x (default zero_repo (m !! k)))
    else m !! k.
Proof.
  unfold repo_bump, repo_ensure. rewrite lookup_alter.
  destruct (decide (keyf x = k)) as [<-|Hne].
  - rewrite decide_True by done.
    destruct (m !! keyf x) as [r|] eqn:Hm; simpl.
    + by rewrite Hm.
    + by rewrite lookup_insert_eq.
  - rewrite decide_False by done.
    destruct (m !! keyf x); [done|]. by rewrite lookup_insert_ne.
Qed.

(** After the loop a key has an entry if it had one or a record names it, and
    the entry is the old one (or zeros) with the updates of its records. *)
Lemma foldl_repo_bump_lookup {A} (keyf : A → string) (upd : A → RepoStat → RepoStat)
    (l : list A) (m : gmap string RepoStat) (k : string) :
  foldl (repo_bump keyf upd) m l !! k =
    if decide (k ∈ keyf <$> l)
    then Some (foldl (λ r x, upd x r) (default zero_repo (m !! k))
                 (filter (λ x, keyf x = k) l))
    else m !! k.
Proof.
  induction l as [|x l IH] using rev_ind.
  - simpl. destruct (decide (k ∈ [])) as [Hin|_]; [by apply elem_of_nil in Hin|done].
  - rewrite foldl_app. simpl. rewrite repo_bump_lookup, IH, fmap_app, filter_app.
    rewrite foldl_app. simpl. rewrite filter_cons, filter_nil.
    destruct (decide (k = keyf x)) as [Hk|Hk],
             (decide (k ∈ keyf <$> l)) as [Hl|Hl],
             (decide (k ∈ (keyf <$> l) ++ [keyf x])) as [Hall|Hall],
             (decide (keyf x = k)) as [Hx|Hx]; simpl; try done; try congruence.
    + exfalso. apply Hall. apply elem_of_app. by left.
    + rewrite filter_none; [done|].
      intros y Hy Heq. apply Hl. apply list_elem_of_fmap. eauto.
    + exfalso. apply Hall. apply elem_of_app. right. rewrite Hk. left.
    + exfalso. apply Hall. apply elem_of_app. by left.
    + apply elem_of_app in Hall as [?|?%list_elem_of_singleton]; done.
Qed.

Lemma pr_step_repo_stats (s e : Z) (a : Acc) (pr : PullRequest) :
  repo_stats (pr_step s e a pr)
  = repo_bump pr_repo_key (λ pr, repo_add_pr (pr_merged pr)) (repo_stats a) pr.
Proof.
  unfold pr_step, pr_update, pr_merged, repo_bump, pr_repo_key. cbv beta.
  destruct (pr_merged_at pr); reflexivity.
Qed.

Lemma foldl_pr_step_repo_stats (s e : Z) (prs : list PullRequest) (a : Acc) :
  repo_stats (foldl (pr_step s e) a prs)
  = foldl (repo_bump pr_repo_key (λ pr, repo_add_pr (pr_merged pr))) (repo_stats a) prs.
Proof.
  revert a. induction prs as [|pr prs IH]; intros a; simpl; [done|].
  by rewrite IH, pr_step_repo_stats.
Qed.

Lemma foldl_issue_step (issues : list Issue) (m : gmap string RepoStat) (t c : nat) :
  foldl issue_step (m, t, c) issues
  = (foldl (repo_bump issue_repo_key (λ i, repo_add_issue (issue_closed i))) m issues,
     (t + length issues)%nat,
     (c + length (filter (λ i, issue_closed i) issues))%nat).
Proof.
  revert m t c. induction issues as [|i issues IH]; intros m t c; simpl.
  - by rewrite !Nat.add_0_r.
  - rewrite IH, filter_cons.
    change (bool_decide (is_state i = "closed")) with (issue_closed i).
    replace (repo_bump issue_repo_key (λ i, repo_add_issue (issue_closed i)) m i)
      with (alter (repo_add_issue (issue_closed i)) (default "unknown" (is_repository i))
              (repo_ensure (default "unknown" (is_repository i)) m)) by reflexivity.
    destruct (issue_closed i); simpl; (f_equal; try lia); f_equal; lia.
Qed.

Lemma foldl_repo_add_pr (l : list PullRequest) (r : RepoStat) :
  foldl (λ r pr, repo_add_pr (pr_merged pr) r) r l
  = {| repo_total := repo_total r + length l;
       repo_merged := repo_merged r + length (filter (λ pr, pr_merged pr) l);
       repo_issues := repo_issues r; repo_closedIssues := repo_closedIssues r |}.
Proof.
  revert r. induction l as [|pr l IH]; intros r; simpl.
  - destruct r; simpl. f_equal; lia.
  - rewrite IH, filter_cons. destruct (pr_merged pr); simpl; f_equal; lia.
Qed.

Lemma foldl_repo_add_issue (l : list Issue) (r : RepoStat) :
  foldl (λ r i, repo_add_issue (issue_closed i) r) r l
  = {| repo_total := repo_total r; repo_merged := repo_merged r;
       repo_issues := repo_issues r + length l;
       repo_closedIssues :=
         repo_closedIssues r + length (filter (λ i, issue_closed i) l) |}.
Proof.
  revert r. induction l as [|i l IH]; intros r; simpl.
  - destruct r; simpl. f_equal; lia.
  - rewrite IH, filter_cons. destruct (issue_closed i); simpl; f_equal; lia.
Qed.

Lemma seeded_repo_stats_lookup (repositories : list string) (k : string) :
  foldl (λ m r, <[r := zero_repo]> m) (∅ : gmap string RepoStat) repositories !! k
  = if decide (k ∈ repositories) then Some zero_repo else None.
Proof.
  induction repositories as [|r l IH] using rev_ind.
  - simpl. destruct (decide (k ∈ [])) as [Hin|_]; [by apply elem_of_nil in Hin|done].
  - rewrite foldl_app. simpl. destruct (decide (r = k)) as [->|Hne].
    + rewrite lookup_insert_eq, decide_True; [done|]. apply elem_of_app. right. left.
    + rewrite lookup_insert_ne, IH by done.
      destruct (decide (k ∈ l)) as [Hin|Hout].
      * rewrite decide_True by (apply elem_of_app; by left). done.
      * rewrite decide_False; [done|].
        intros [?|Hx%list_elem_of_singleton]%elem_of_app; done.
Qed.

(** The repository map and the issue totals that [process_hackathon_stats]
    returns. *)
Lemma stats_repo_fields prs rvs issues (s e : Z) repos st :
  process_hackathon_stats prs rvs issues (Aware s) (Aware e) repos = Val st →
  (∀ k, repoStats st !! k =
     if decide (k ∈ repos ∨ k ∈ (pr_repo_key <$> prs) ∨ k ∈ (issue_repo_key <$> issues))
     then Some (repo_stat_of k prs issues) else None)
  ∧ totalIssues st = length issues
  ∧ closedIssues st = length (filter (λ i, issue_closed i) issues).
Proof.
  rewrite process_hackathon_stats_aware. unfold stats_record.
  destruct (build_daily_activity s e) as [daily0| |]; [|done..].
  rewrite foldl_issue_step. intros [= <-]. simpl. split; [|done].
  intros k. rewrite foldl_repo_bump_lookup, foldl_pr_step_repo_stats.
  rewrite foldl_repo_bump_lookup. simpl. rewrite seeded_repo_stats_lookup.
  rewrite foldl_repo_add_issue.
  assert (Hprs : ∀ r, foldl (λ r pr, repo_add_pr (pr_merged pr) r) r
                        (filter (λ pr, pr_repo_key pr = k) prs)
                      = {| repo_total := repo_total r
                             + length (filter (λ pr, pr_repo_key pr = k) prs);
                           repo_merged := repo_merged r
                             + length (filter (λ pr, pr_repo_key pr = k ∧ pr_merged pr) prs);
                           repo_issues := repo_issues r;
                           repo_closedIssues := repo_closedIssues r |}).
  { intros r. rewrite foldl_repo_add_pr, list_filter_filter. do 2 f_equal.
    f_equal. apply list_filter_iff. tauto. }
  assert (Hissues : length (filter (λ i, issue_closed i)
                              (filter (λ i, issue_repo_key i = k) issues))
                    = length (filter (λ i, issue_repo_key i = k ∧ issue_closed i) issues)).
  { rewrite list_filter_filter. f_equal. apply list_filter_iff. tauto. }
  assert (Hp0 : k ∉ pr_repo_key <$> prs →
            length (filter (λ pr, pr_repo_key pr = k) prs) = 0%nat
            ∧ length (filter (λ pr, pr_repo_key pr = k ∧ pr_merged pr) prs) = 0%nat).
  { intros Hout. split; apply length_zero_iff_nil, filter_none.
    - intros x Hx Hk. apply Hout, list_elem_of_fmap. eauto.
    - intros x Hx [Hk _]. apply Hout, list_elem_of_fmap. eauto. }
  assert (Hi0 : k ∉ issue_repo_key <$> issues →
            length (filter (λ i, issue_repo_key i = k) issues) = 0%nat
            ∧ length (filter (λ i, issue_repo_key i = k ∧ issue_closed i) issues) = 0%nat).
  { intros Hout. split; apply length_zero_iff_nil, filter_none.
    - intros x Hx Hk. apply Hout, list_elem_of_fmap. eauto.
    - intros x Hx [Hk _]. apply Hout, list_elem_of_fmap. eauto. }
  unfold repo_stat_of.
  destruct (decide (k ∈ issue_repo_key <$> issues)) as [Hi|Hi],
           (decide (k ∈ pr_repo_key <$> prs)) as [Hp|Hp],
           (decide (k ∈ repos)) as [Hr|Hr]; simpl;
    rewrite ?Hprs, ?Hissues; simpl;
    first [ rewrite decide_True by tauto | rewrite decide_False by tauto ];
    try done;
    try (destruct (Hp0 Hp) as [Hp1 Hp2]); try (destruct (Hi0 Hi) as [Hi1 Hi2]);
    f_equal; f_equal; lia.
Qed.

End RepoStats.

Section DailySeries.
Import Aggregator.

Lemma day_bump_0 (b : DayBucket) : day_bump 0 0 b = b.
Proof. destruct b. unfold day_bump. simpl. f_equal; lia. Qed.

Lemma day_bump_bump (n1 m1 n2 m2 : nat) (b : DayBucket) :
  day_bump n2 m2 (day_bump n1 m1 b) = day_bump (n1 + n2) (m1 + m2) b.
Proof. unfold day_bump. simpl. f_equal; lia. Qed.

(** One record moves the bucket of its creation date, if the date has a bucket
    and the instant lies in the window, and the bucket of its merge date. *)
Lemma pr_step_daily_lookup (s e : Z) (a : Acc) (pr : PullRequest) (d : Z) :
  daily_activity (pr_step s e a pr) !! d
  = day_bump (created_on s e d [pr]) (merged_on d [pr]) <$> (daily_activity a !! d).
Proof.
  unfold created_on, merged_on. rewrite !filter_cons, !filter_nil.
  assert (Hcreated :
    (if bool_decide (is_Some (daily_activity a !! date_of (pr_created_at pr)))
        && between s (pr_created_at pr) e
     then alter day_add_total (date_of (pr_created_at pr)) (daily_activity a)
     else daily_activity a) !! d
    = day_bump (length (if decide (date_of (pr_created_at pr) = d
                                   ∧ between s (pr_created_at pr) e)
                        then [pr] else [])) 0
        <$> (daily_activity a !! d)).
  { destruct (decide (date_of (pr_created_at pr) = d ∧ between s (pr_created_at pr) e))
      as [[Hd Hw]|Hno]; simpl.
    - apply Is_true_eq_true in Hw. rewrite Hw, andb_true_r, Hd.
      destruct (daily_activity a !! d) as [b|] eqn:Hb; simpl.
      + rewrite lookup_alter_eq, Hb. simpl.
        f_equal. unfold day_add_total, day_bump. f_equal; lia.
      + by rewrite Hb.
    - destruct (_ && _) eqn:Hguard.
      + apply andb_true_iff in Hguard as [_ Hw].
        rewrite lookup_alter_ne.
        * destruct (daily_activity a !! d); simpl; [|done]. by rewrite day_bump_0.
        * intros Hd. apply Hno. split; [done|]. by rewrite Hw.
      + destruct (daily_activity a !! d); simpl; [|done]. by rewrite day_bump_0. }
  unfold pr_step, pr_update. destruct (pr_merged_at pr) as [m|]; simpl.
  - rewrite lookup_alter. destruct (decide (date_of m = d)) as [->|Hne].
    + rewrite (decide_True (P := Some d = Some d)) by done. rewrite Hcreated.
      destruct (daily_activity a !! d); simpl; [|done].
      f_equal. unfold day_add_merged, day_bump. simpl. f_equal; lia.
    + rewrite (decide_False (P := Some (date_of m) = Some d)) by congruence.
      rewrite Hcreated. done.
  - by rewrite Hcreated.
Qed.

Lemma foldl_pr_step_daily_lookup (s e : Z) (prs : list PullRequest) (a : Acc) (d : Z) :
  daily_activity (foldl (pr_step s e) a prs) !! d
  = day_bump (created_on s e d prs) (merged_on d prs) <$> (daily_activity a !! d).
Proof.
  revert a. induction prs as [|pr prs IH]; intros a.
  - simpl. destruct (daily_activity a !! d); simpl; [|done]. by rewrite day_bump_0.
  - simpl. rewrite IH, pr_step_daily_lookup.
    destruct (daily_activity a !! d); simpl; [|done].
    rewrite day_bump_bump. f_equal.
    unfold created_on, merged_on. change (pr :: prs) with ([pr] ++ prs).
    rewrite !filter_app, !length_app. done.
Qed.

Lemma pr_step_daily_merged_lookup (s e : Z) (a : Acc) (pr : PullRequest) (d : Z) :
  daily_merged_prs (pr_step s e a pr) !! d
  = if decide (date_of <$> pr_merged_at pr = Some d)
    then Some (S (default 0%nat (daily_merged_prs a !! d)))
    else daily_merged_prs a !! d.
Proof.
  destruct (decide (date_of <$> pr_merged_at pr = Some d)) as [Hd|Hd];
    unfold pr_step, pr_update; destruct (pr_merged_at pr) as [m|]; simpl in *.
  - injection Hd as <-. by rewrite lookup_insert_eq.
  - done.
  - rewrite lookup_insert_ne; congruence.
  - done.
Qed.

Lemma foldl_pr_step_daily_merged_lookup (s e : Z) (prs : list PullRequest) (a : Acc)
    (d : Z) :
  daily_merged_prs (foldl (pr_step s e) a prs) !! d
  = if decide (merged_on d prs = 0%nat) then daily_merged_prs a !! d
    else Some (default 0 (daily_merged_prs a !! d) + merged_on d prs)%nat.
Proof.
  revert a. induction prs as [|pr prs IH]; intros a; [done|].
  simpl. rewrite IH, pr_step_daily_merged_lookup.
  unfold merged_on. rewrite filter_cons.
  destruct (decide (date_of <$> pr_merged_at pr = Some d)) as [Hd|Hd]; simpl.
  - destruct (decide (length _ = 0%nat)) as [H0|H0].
    + rewrite H0. f_equal. lia.
    + f_equal. lia.
  - done.
Qed.

(** The daily series and the merged map of the returned statistics. *)
Lemma stats_daily_fields prs rvs issues (s e : Z) repos st :
  process_hackathon_stats prs rvs issues (Aware s) (Aware e) repos = Val st →
  (∀ d, dailyActivity st !! d =
     if decide (date_of s ≤ d ≤ date_of e)
     then Some {| day_total := created_on s e d prs; day_merged := merged_on d prs |}
     else None)
  ∧ (∀ d, dailyMergedPRs st !! d =
       if decide (merged_on d prs = 0%nat) then None else Some (merged_on d prs)).
Proof.
  rewrite process_hackathon_stats_aware. unfold stats_record.
  destruct (build_daily_activity s e) as [daily0| |] eqn:Hd; [|done..].
  destruct (foldl issue_step _ issues) as [[rs ti] ci]. intros [= <-]. simpl.
  assert (returns_daily s e) as Hret.
  { destruct (decide (returns_daily s e)) as [?|Hnot]; [done|].
    apply build_daily_activity_spec in Hnot. congruence. }
  apply build_daily_activity_spec in Hret as (daily0' & Hd' & Hzero).
  assert (daily0' = daily0) as -> by congruence.
  split; intros d.
  - rewrite foldl_pr_step_daily_lookup. simpl. rewrite Hzero.
    destruct (decide (date_of s ≤ d ≤ date_of e)); done.
  - rewrite foldl_pr_step_daily_merged_lookup. simpl. rewrite lookup_empty. done.
Qed.

End DailySeries.

Section Accounting.
Import Aggregator.

Lemma sum_list_with_ext {A} (f g : A → nat) (l : list A) :
  (∀ x, x ∈ l → f x = g x) → sum_list_with f l = sum_list_with g l.
Proof.
  induction l as [|x l IH]; intros Heq; simpl; [done|].
  rewrite (Heq x) by left. rewrite IH; [done|]. intros y Hy. apply Heq. by right.
Qed.

Lemma sum_list_with_fmap {A B} (f : B → nat) (g : A → B) (l : list A) :
  sum_list_with f (g <$> l) = sum_list_with (λ x, f (g x)) l.
Proof.
  induction l as [|x l IH]; [done|]. rewrite fmap_cons. simpl. by rewrite IH.
Qed.

Lemma sum_list_with_filter_pos {A} (f : A → nat) (l : list A) :
  sum_list_with f (filter (λ x, (0 < f x)%nat) l) = sum_list_with f l.
Proof.
  induction l as [|x l IH]; simpl; [done|].
  rewrite filter_cons. destruct (decide (0 < f x)%nat); simpl; lia.
Qed.

(** One more record for [v] is one more in the sum over distinct keys. *)
Lemma sum_list_with_one_more (h : string → nat) (v : string) (us : list string) :
  NoDup us → v ∈ us →
  sum_list_with (λ u, if decide (v = u) then S (h u) else h u) us
  = S (sum_list_with h us).
Proof.
  induction 1 as [|u us Hu Hnd IH]; intros Hin; [by apply elem_of_nil in Hin|].
  simpl. destruct (decide (v = u)) as [->|Hne].
  - rewrite (sum_list_with_ext _ h); [lia|]. intros u' Hu'.
    rewrite decide_False; [done|]. intros ->. done.
  - apply elem_of_cons in Hin as [?|Hin]; [done|]. rewrite IH by done. lia.
Qed.

(** Counting by key, over distinct keys that cover the list, counts the list. *)
Lemma count_by_key {A} (g : A → string) (us : list string) (l : list A) :
  NoDup us → (∀ x, x ∈ l → g x ∈ us) →
  sum_list_with (λ u, length (filter (λ x, g x = u) l)) us = length l.
Proof.
  intros Hnd. induction l as [|x l IH]; intros Hcover; simpl.
  - clear Hnd Hcover. induction us as [|u us IHus]; simpl; [done|]. exact IHus.
  - rewrite <- IH by (intros y Hy; apply Hcover; by right).
    rewrite <- (sum_list_with_one_more _ (g x)) by (done || apply Hcover; left).
    apply sum_list_with_ext. intros u _. rewrite filter_cons.
    destruct (decide (g x = u)); done.
Qed.

(** The counts of the participants add up to the credited records. *)
Lemma participants_counts_add_up prs (s e : Z) rvs ps :
  participants_inv prs s e rvs ps →
  sum_list_with mergedCount ps
  = length (filter (λ pr, pr_credited pr ∧ pr_merged pr) prs)
  ∧ sum_list_with prCount ps = length (filter (λ pr, pr_credited pr) prs)
  ∧ sum_list_with reviewCount ps = length (filter (λ r, review_counts s e r) rvs).
Proof.
  intros [Hnames Hok].
  assert (Hnd : NoDup (username <$> ps)) by (rewrite Hnames; apply NoDup_first_seen).
  assert (Hin : ∀ u, u ∈ credited_logins prs s e rvs → u ∈ (username <$> ps)).
  { intros u. by rewrite Hnames, elem_of_first_seen. }
  split; [|split].
  - rewrite <- (count_by_key (λ pr, login (pr_user pr)) (username <$> ps)); [|done|].
    + rewrite sum_list_with_fmap. apply sum_list_with_ext. intros p Hp.
      destruct (Hok p Hp) as (_ & -> & _). unfold credited_prs.
      rewrite !list_filter_filter. f_equal. apply list_filter_iff. tauto.
    + intros pr [[Hc _] Hpr]%list_elem_of_filter. apply Hin.
      unfold credited_logins. apply elem_of_app. left.
      apply list_elem_of_fmap. exists pr. split; [done|]. by apply list_elem_of_filter.
  - rewrite <- (count_by_key (λ pr, login (pr_user pr)) (username <$> ps)); [|done|].
    + rewrite sum_list_with_fmap. apply sum_list_with_ext. intros p Hp.
      destruct (Hok p Hp) as (-> & _). unfold credited_prs.
      by rewrite !list_filter_filter.
    + intros pr [Hc Hpr]%list_elem_of_filter. apply Hin.
      unfold credited_logins. apply elem_of_app. left.
      apply list_elem_of_fmap. exists pr. split; [done|]. by apply list_elem_of_filter.
  - rewrite <- (count_by_key (λ r, login (rv_user r)) (username <$> ps)); [|done|].
    + rewrite sum_list_with_fmap. apply sum_list_with_ext. intros p Hp.
      destruct (Hok p Hp) as (_ & _ & -> & _). unfold counted_reviews.
      by rewrite !list_filter_filter.
    + intros r [Hc Hr]%list_elem_of_filter. apply Hin.
      unfold credited_logins. apply elem_of_app. right.
      apply list_elem_of_fmap. exists r. split; [done|]. by apply list_elem_of_filter.
Qed.

End Accounting.

Section AggregatorExtras.
Import Aggregator.

(** X1. The repository map of the statistics has an entry for exactly the
    resolved repositories and the repositories named by a pull request or an
    issue, "unknown" standing for a record without repository: a repository
    that was not resolved but occurs in a record is added, and one that was
    resolved but has no record keeps its entry. *)
Theorem repo_stats_defensive_union prs rvs issues (s e : Z) repos :
  returns_daily s e →
  ∃ st,
    process_hackathon_stats prs rvs issues (Aware s) (Aware e) repos = Val st
    ∧ ∀ k, is_Some (repoStats st !! k)
           ↔ k ∈ repos
             ∨ (∃ pr, pr ∈ prs ∧ pr_repo_key pr = k)
             ∨ (∃ i, i ∈ issues ∧ issue_repo_key i = k).
Proof.
  intros [st Hst]%(proj1 (stats_returns prs rvs issues s e repos)).
  exists st. split; [done|]. intros k.
  destruct (stats_repo_fields _ _ _ _ _ _ _ Hst) as (Hlookup & _).
  rewrite Hlookup. destruct (decide _) as [Hin|Hout].
  - split; [intros _|by eauto]. rewrite !list_elem_of_fmap in Hin.
    destruct Hin as [?|[(pr & -> & ?)|(i & -> & ?)]]; eauto.
  - split; [by intros [? ?]|]. intros Hin. exfalso. apply Hout.
    rewrite !list_elem_of_fmap.
    destruct Hin as [?|[(pr & ? & ?)|(i & ? & ?)]]; eauto 6.
Qed.

(** X2. Each entry of the repository map counts the records of its
    repository: the pull requests, those of them that are merged, the issues,
    and those of them whose state is "closed"; the totals over all issues are
    the number of issues and the number of closed ones. *)
Theorem repo_stats_count_records prs rvs issues (s e : Z) repos :
  returns_daily s e →
  ∃ st,
    process_hackathon_stats prs rvs issues (Aware s) (Aware e) repos = Val st
    ∧ (∀ k r, repoStats st !! k = Some r → r = repo_stat_of k prs issues)
    ∧ totalIssues st = length issues
    ∧ closedIssues st = length (filter (λ i, issue_closed i) issues).
Proof.
  intros [st Hst]%(proj1 (stats_returns prs rvs issues s e repos)).
  exists st. split; [done|].
  destruct (stats_repo_fields _ _ _ _ _ _ _ Hst) as (Hlookup & Htotal & Hclosed).
  split; [|done]. intros k r. rewrite Hlookup.
  destruct (decide _); congruence.
Qed.

(** X3. The bucket of a date of the window counts, under [total], the pull
    requests created on that date at an instant inside [start, end], and under
    [merged] the pull requests merged on that date, inside the window or
    not. *)
Theorem daily_activity_counts prs rvs issues (s e : Z) repos :
  returns_daily s e →
  ∃ st,
    process_hackathon_stats prs rvs issues (Aware s) (Aware e) repos = Val st
    ∧ ∀ d, dailyActivity st !! d =
        if decide (date_of s ≤ d ≤ date_of e)
        then Some {| day_total := created_on s e d prs;
                     day_merged := merged_on d prs |}
        else None.
Proof.
  intros [st Hst]%(proj1 (stats_returns prs rvs issues s e repos)).
  exists st. split; [done|]. by apply stats_daily_fields in Hst as [? _].
Qed.

(** X4. The map of merged pull requests per day has an entry for exactly the
    dates on which a pull request was merged, also outside the date range of
    the window, with the number merged on that date; on every date of the
    daily series it agrees with the [merged] count of the bucket. *)
Theorem daily_merged_prs_counts prs rvs issues (s e : Z) repos :
  returns_daily s e →
  ∃ st,
    process_hackathon_stats prs rvs issues (Aware s) (Aware e) repos = Val st
    ∧ (∀ d, dailyMergedPRs st !! d =
         if decide (merged_on d prs = 0%nat) then None else Some (merged_on d prs))
    ∧ (∀ d b, dailyActivity st !! d = Some b →
         day_merged b = default 0%nat (dailyMergedPRs st !! d)).
Proof.
  intros [st Hst]%(proj1 (stats_returns prs rvs issues s e repos)).
  exists st. split; [done|].
  apply stats_daily_fields in Hst as [Hdaily Hmerged]. split; [done|].
  intros d b. rewrite Hdaily, Hmerged.
  destruct (decide (date_of s ≤ d ≤ date_of e)); [|done]. intros [= <-]. simpl.
  destruct (decide (merged_on d prs = 0%nat)) as [->|?]; done.
Qed.

(** X5. No login is on a leaderboard twice and neither leaderboard is longer
    than [participantCount]; an entry of the merged-PR leaderboard has at least
    one merged pull request and no more of them than pull requests, and an
    entry of the review leaderboard lists as many reviews as it counts. *)
Theorem leaderboard_entries_distinct prs rvs issues (s e : Z) repos :
  returns_daily s e →
  ∃ st,
    process_hackathon_stats prs rvs issues (Aware s) (Aware e) repos = Val st
    ∧ NoDup (username <$> leaderboard st)
    ∧ NoDup (username <$> reviewLeaderboard st)
    ∧ (length (leaderboard st) ≤ participantCount st)%nat
    ∧ (length (reviewLeaderboard st) ≤ participantCount st)%nat
    ∧ (∀ p, p ∈ leaderboard st → (1 ≤ mergedCount p ≤ prCount p)%nat)
    ∧ (∀ p, p ∈ reviewLeaderboard st →
         (1 ≤ reviewCount p)%nat ∧ reviewCount p = length (reviews p)).
Proof.
  intros (daily0 & Hd & _)%build_daily_activity_spec.
  destruct (stats_fields prs rvs issues s e repos daily0 Hd)
    as (st & Hst & _ & _ & _ & _ & ps & [Hnames Hok] & Hcount & Hlb & Hrlb).
  exists st. split; [done|].
  assert (Hnd : NoDup (username <$> ps)) by (rewrite Hnames; apply NoDup_first_seen).
  assert (Hsub : ∀ (key : Participant → nat),
            NoDup (username <$> sorted_desc key (filter (λ p, (0 < key p)%nat) ps))
            ∧ (length (sorted_desc key (filter (λ p, (0 < key p)%nat) ps))
               ≤ length ps)%nat).
  { intros key. rewrite sorted_desc_perm. split.
    - apply (sublist_NoDup _ (username <$> ps));
        first [exact Hnd | apply fmap_sublist, sublist_filter].
    - apply length_filter. }
  rewrite Hlb, Hrlb, Hcount.
  split; [apply Hsub|]. split; [apply Hsub|]. split; [apply Hsub|].
  split; [apply Hsub|]. split.
  - intros p [Hp Hpos]%(ranking_elem_of mergedCount ps); [|apply sorted_desc_ranking].
    destruct (Hok p Hp) as (Hpr & Hm & _). split; [lia|].
    rewrite Hpr, Hm. apply length_filter.
  - intros p [Hp Hpos]%(ranking_elem_of reviewCount ps); [|apply sorted_desc_ranking].
    destruct (Hok p Hp) as (_ & _ & Hr & Hrs). split; [lia|].
    by rewrite Hr, Hrs, length_fmap.
Qed.

(** X6. The merged counts on the merged-PR leaderboard add up to the number
    of merged pull requests that credit their author, which is at most
    [mergedPRs]; the review counts on the review leaderboard add up to the
    number of reviews that pass the bot, Copilot, DISMISSED and window
    tests. *)
Theorem leaderboard_counts_add_up prs rvs issues (s e : Z) repos :
  returns_daily s e →
  ∃ st,
    process_hackathon_stats prs rvs issues (Aware s) (Aware e) repos = Val st
    ∧ sum_list_with mergedCount (leaderboard st)
      = length (filter (λ pr, pr_credited pr ∧ pr_merged pr) prs)
    ∧ (sum_list_with mergedCount (leaderboard st) ≤ mergedPRs st)%nat
    ∧ sum_list_with reviewCount (reviewLeaderboard st)
      = length (filter (λ r, review_counts s e r) rvs).
Proof.
  intros (daily0 & Hd & _)%build_daily_activity_spec.
  destruct (stats_fields prs rvs issues s e repos daily0 Hd)
    as (st & Hst & _ & Hmerged & _ & _ & ps & Hinv & _ & Hlb & Hrlb).
  exists st. split; [done|].
  destruct (participants_counts_add_up _ _ _ _ _ Hinv) as (Hm & _ & Hr).
  rewrite Hlb, Hrlb, !sorted_desc_perm, !sum_list_with_filter_pos, Hm, Hr, Hmerged.
  split; [done|]. split; [|done].
  rewrite <- (list_filter_filter (λ pr, pr_credited pr) (λ pr, pr_merged pr)).
  apply length_filter.
Qed.

End AggregatorExtras.

(** ** Further properties of the fetch layer *)

Section RequestExtras.
Import Fetcher.

Lemma make_request_success (env : environment) (u : api_url) (token : string)
    (w : world) (body : json u) :
  respond env (events w) u (authorization_of token) = Success body →
  make_request env u token 3 w
  = (Val (Some body), add_event (Request u (authorization_of token)) w).
Proof.
  intros Hresp. unfold make_request. simpl. unfold bind, urlopen. by rewrite Hresp.
Qed.

Lemma make_request_failure (env : environment) (u : api_url) (token : string)
    (w : world) (e : exn) :
  respond env (events w) u (authorization_of token) = Failure e →
  make_request env u token 3 w
  = (Raise e, add_event (Request u (authorization_of token)) w).
Proof.
  intros Hresp. unfold make_request. simpl. unfold bind, urlopen. by rewrite Hresp.
Qed.

(** Against an upstream that keeps answering with an error, every attempt
    fails and None comes back. *)
Lemma make_request_loop_error (answer : ∀ u : api_url, outcome (json u)) (t : Z)
    (u : api_url) (token : string) (retry_count n attempt : nat) (w : world) :
  is_error (answer u) →
  ∃ w', make_request_loop (fixed_env answer t) u token retry_count n attempt w
        = (Val None, w').
Proof.
  intros Herr. revert attempt w. induction n as [|n IH]; intros attempt w; simpl.
  - by eexists.
  - unfold bind at 1, urlopen at 1. simpl.
    destruct (answer u) as [body|code reset| |e]; try done.
    + destruct ((code =? 429) || (code =? 403)).
      * unfold bind, time_time, now, ret, sleep. apply IH.
      * destruct (code =? 404); [by eexists|].
        destruct (Z.of_nat attempt <? Z.of_nat retry_count - 1); [|by eexists].
        unfold bind, sleep. apply IH.
    + destruct (Z.of_nat attempt <? Z.of_nat retry_count - 1); [|by eexists].
      unfold bind, sleep. apply IH.
Qed.

(** X7. [make_request] touches nothing but the record of requests and
    sleeps: every request it sends goes to its own URL, with the header
    [Authorization: Bearer <token>] when a token is given and without an
    Authorization header when the token is empty; the snapshot files, the
    summary and the organization cache are as before. *)
Theorem make_request_only_requests_its_url (env : environment) (u : api_url)
    (token : string) (retry_count : nat) (w w' : world)
    (r : result (option (json u))) :
  make_request env u token retry_count w = (r, w') →
  (∃ new, events w' = new ++ events w
          ∧ ∀ ev, ev ∈ new →
              ev = Request u (if bool_decide (token = "") then None
                              else Some ("Bearer " +:+ token))
              ∨ ∃ ms, ev = Sleep ms)
  ∧ files w' = files w ∧ stats_json w' = stats_json w
  ∧ org_repos_cache w' = org_repos_cache w.
Proof.
  intros ((new & Hev & Hall) & Hrest)%make_request_loop_frame. split; [|done].
  exists new. split; [done|]. by apply Forall_forall.
Qed.

(** X8. Under a rate limit that does not lift (HTTP 429 or 403 on every
    attempt, each answer with a code and a reset hint of its own)
    [make_request] sends three requests and sleeps after each of them, the
    last one included, before it returns None.  Each sleep is computed from
    the hint of the answer it follows and the clock read when that answer
    arrives: the hint less the Unix time plus five seconds, at least 10 s
    and at most 300 s, or 60 s when the answer carries no hint. *)
Theorem make_request_rate_limited (env : environment) (u : api_url) (token : string)
    (w : world) (c1 c2 c3 : Z) (r1 r2 r3 : option Z) :
  let auth := authorization_of token in
  let w1 := add_event (Request u auth) w in
  let p1 := rate_limit_wait r1 (unix_seconds (clock env (events w1))) in
  let s1 := add_event (Sleep p1) w1 in
  let w2 := add_event (Request u auth) s1 in
  let p2 := rate_limit_wait r2 (unix_seconds (clock env (events w2))) in
  let s2 := add_event (Sleep p2) w2 in
  let w3 := add_event (Request u auth) s2 in
  let p3 := rate_limit_wait r3 (unix_seconds (clock env (events w3))) in
  let s3 := add_event (Sleep p3) w3 in
  respond env (events w) u auth = HTTPError c1 r1 → c1 = 429 ∨ c1 = 403 →
  respond env (events s1) u auth = HTTPError c2 r2 → c2 = 429 ∨ c2 = 403 →
  respond env (events s2) u auth = HTTPError c3 r3 → c3 = 429 ∨ c3 = 403 →
  make_request env u token 3 w = (Val None, s3)
  ∧ events s3
    = [ Sleep p3; Request u auth; Sleep p2; Request u auth; Sleep p1; Request u auth ]
      ++ events w
  ∧ Forall (λ p, 10000 ≤ p ≤ 300000) [p1; p2; p3]
  ∧ (r1 = None → p1 = 60000) ∧ (r2 = None → p2 = 60000) ∧ (r3 = None → p3 = 60000).
Proof.
  intros auth w1 p1 s1 w2 p2 s2 w3 p3 s3 H1 Hc1 H2 Hc2 H3 Hc3.
  assert (Hbound : ∀ r t, 10000 ≤ rate_limit_wait r t ≤ 300000).
  { intros r t. unfold rate_limit_wait. destruct r; lia. }
  split; [|split; [done|split]].
  - unfold make_request.
    rewrite make_request_loop_attempt by lia. unfold attempt_then. fold auth w1.
    rewrite H1. unfold reaction_to. rewrite decide_True by done. fold p1 s1.
    rewrite make_request_loop_attempt by lia. unfold attempt_then. fold auth w2.
    rewrite H2. unfold reaction_to. rewrite decide_True by done. fold p2 s2.
    rewrite make_request_loop_attempt by lia. unfold attempt_then. fold auth w3.
    rewrite H3. unfold reaction_to. rewrite decide_True by done. fold p3 s3.
    reflexivity.
  - repeat (apply List.Forall_cons; [apply Hbound|]). apply List.Forall_nil.
  - repeat split; by intros ->.
Qed.

End RequestExtras.

Section PaginationExtras.
Import Fetcher.
Variable answer : ∀ u : api_url, outcome (json u).
Variable t : Z.
Variable base_url : listing.
Variable token : string.

(** [n] full pages from [page] on are fetched one request each, and the loop
    goes on with the next page. *)
Lemma fetch_pages_loop_full (pg : nat → list (item base_url)) (n : nat) :
  ∀ page fuel all_items w,
    (∀ p, (page ≤ p < page + n)%nat →
       answer (PageUrl base_url p) = Success (pg p) ∧ full_page (pg p)) →
    ∃ w', fetch_pages_loop (fixed_env answer t) (n + fuel) base_url token page all_items w
          = fetch_pages_loop (fixed_env answer t) fuel base_url token (page + n)
              (all_items ++ concat (pg <$> seq page n)) w'
          ∧ requests_sent w' = (requests_sent w + n)%nat.
Proof.
  induction n as [|n IH]; intros page fuel all_items w Hfull.
  - exists w. simpl. rewrite app_nil_r, !Nat.add_0_r. done.
  - destruct (Hfull page ltac:(lia)) as [Hpage Hlen].
    destruct (IH (S page) fuel (all_items ++ pg page)
                (add_event (Sleep 200)
                   (add_event (Request (PageUrl base_url page) (authorization_of token)) w)))
      as (w' & Hrun & Hreq).
    { intros p Hp. apply Hfull. lia. }
    exists w'. split.
    + change (S n + fuel)%nat with (S (n + fuel)). simpl fetch_pages_loop.
      unfold bind at 1.
      rewrite (make_request_success (fixed_env answer t) (PageUrl base_url page) token w (pg page))
        by exact Hpage.
      unfold full_page, per_page in Hlen.
      destruct (pg page) as [|x items] eqn:Hpg; [simpl in Hlen; lia|].
      destruct (Nat.ltb_spec (length (x :: items)) per_page) as [Hlt|_];
        [unfold per_page in Hlt; lia|].
      unfold bind, sleep. rewrite Hrun, <- app_assoc.
      replace (S page + n)%nat with (page + S n)%nat by lia. reflexivity.
    + rewrite Hreq. unfold requests_sent. simpl. lia.
Qed.

(** X9. When the first [n] pages of a listing are full and the next one is
    short (or empty), [fetch_all_pages] returns the items of all these pages,
    in the order of the pages, after one request per page: nothing is dropped
    or reordered. *)
Theorem fetch_all_pages_concatenates (pg : nat → list (item base_url)) (n : nat)
    (last : list (item base_url)) (fuel : nat) (w : world) :
  (∀ p, (1 ≤ p < 1 + n)%nat →
     answer (PageUrl base_url p) = Success (pg p) ∧ full_page (pg p)) →
  answer (PageUrl base_url (1 + n)) = Success last →
  (length last < per_page)%nat →
  (n < fuel)%nat →
  ∃ w', fetch_all_pages (fixed_env answer t) fuel base_url token w
        = (Val (concat (pg <$> seq 1 n) ++ last), w')
        ∧ requests_sent w' = (requests_sent w + n + 1)%nat.
Proof.
  intros Hfull Hlast Hshort Hfuel. unfold fetch_all_pages.
  destruct (fetch_pages_loop_full pg n 1 (fuel - n) [] w Hfull) as (w1 & Hrun & Hreq).
  replace (n + (fuel - n))%nat with fuel in Hrun by lia. rewrite Hrun.
  destruct (fuel - n)%nat as [|fuel'] eqn:Hrest; [lia|]. simpl fetch_pages_loop.
  unfold bind at 1.
  rewrite (make_request_success (fixed_env answer t) (PageUrl base_url (S n)) token w1 last)
    by exact Hlast.
  eexists. split.
  - destruct last as [|x items]; [by rewrite app_nil_r|].
    destruct (Nat.ltb_spec (length (x :: items)) per_page) as [_|Hge]; [done|lia].
  - unfold requests_sent in *. simpl. lia.
Qed.

(** X10. Against an upstream whose every page is full, [fetch_all_pages]
    does not return: whatever the number of pages allowed, the loop is still
    asking for the next page when they are used up. *)
Theorem fetch_all_pages_endless (pg : nat → list (item base_url)) (fuel : nat)
    (w : world) :
  (∀ p, (1 ≤ p)%nat →
     answer (PageUrl base_url p) = Success (pg p) ∧ full_page (pg p)) →
  ∃ w', fetch_all_pages (fixed_env answer t) fuel base_url token w = (Diverge, w')
        ∧ requests_sent w' = (requests_sent w + fuel)%nat.
Proof.
  intros Hfull. unfold fetch_all_pages.
  destruct (fetch_pages_loop_full pg fuel 1 0 [] w) as (w1 & Hrun & Hreq).
  { intros p Hp. apply Hfull. lia. }
  rewrite Nat.add_0_r in Hrun. rewrite Hrun. by exists w1.
Qed.

(** X11. A page that fails ends the listing without an error: after [n]
    full pages, an HTTP error or a URL error on the next page (once the
    attempts are used up) makes [fetch_all_pages] return the items of the [n]
    pages as if the listing were complete.  An exception of another kind on
    that page leaves [fetch_all_pages], and the pages fetched so far are
    lost to the caller. *)
Theorem fetch_all_pages_truncates (pg : nat → list (item base_url)) (n : nat)
    (fuel : nat) (w : world) :
  (∀ p, (1 ≤ p < 1 + n)%nat →
     answer (PageUrl base_url p) = Success (pg p) ∧ full_page (pg p)) →
  (n < fuel)%nat →
  (is_error (answer (PageUrl base_url (1 + n))) →
     ∃ w', fetch_all_pages (fixed_env answer t) fuel base_url token w
           = (Val (concat (pg <$> seq 1 n)), w'))
  ∧ (∀ e, answer (PageUrl base_url (1 + n)) = Failure e →
       ∃ w', fetch_all_pages (fixed_env answer t) fuel base_url token w = (Raise e, w')).
Proof.
  intros Hfull Hfuel. unfold fetch_all_pages.
  destruct (fetch_pages_loop_full pg n 1 (fuel - n) [] w Hfull) as (w1 & Hrun & _).
  replace (n + (fuel - n))%nat with fuel in Hrun by lia. rewrite Hrun.
  destruct (fuel - n)%nat as [|fuel'] eqn:Hrest; [lia|]. simpl fetch_pages_loop.
  split.
  - intros Herr. unfold bind at 1.
    destruct (make_request_loop_error answer t (PageUrl base_url (S n)) token 3 3 0 w1
                Herr) as (w2 & Hnone).
    unfold make_request. rewrite Hnone. by eexists.
  - intros e Hfail. unfold bind at 1.
    rewrite (make_request_failure (fixed_env answer t) (PageUrl base_url (S n)) token w1 e)
      by exact Hfail.
    by eexists.
Qed.

End PaginationExtras.

Section FilterExtras.
Import Fetcher.

Lemma issue_relevant_spec (s e : Z) (i : Issue) :
  issue_relevant s e i = true ↔ issue_in_closed_window s e i.
Proof.
  unfold issue_relevant, issue_in_closed_window, between.
  rewrite orb_true_iff, !andb_true_iff, !Z.leb_le. split.
  - intros [?|Hc]; [by left|right].
    destruct (is_closed_at i) as [c|]; [|done]. exists c.
    rewrite andb_true_iff, !Z.leb_le in Hc. done.
  - intros [?|(c & -> & Hc)]; [by left|right].
    rewrite andb_true_iff, !Z.leb_le. done.
Qed.

Lemma fresh_prefix_sublist (since : option Z) (all_prs : list PullRequest) :
  fresh_prefix since all_prs `sublist_of` all_prs.
Proof.
  induction all_prs as [|pr rest IH]; simpl; [done|].
  destruct (before_watermark since pr).
  - apply sublist_nil_l.
  - by apply sublist_skip.
Qed.

Lemma filter_issues_spec (repository : string) (s e : Z)
    (all_items filtered : list Issue) :
  filter_issues repository (Aware s) (Aware e) all_items filtered
  = Val (filtered ++ (set_issue_repository repository
                        <$> filter (λ i, is_pull_request i = false
                                         ∧ issue_relevant s e i = true) all_items)).
Proof.
  revert filtered. induction all_items as [|i rest IH]; intros filtered; simpl.
  - by rewrite app_nil_r.
  - rewrite filter_cons. destruct (is_pull_request i) eqn:Hmarker.
    + rewrite IH. by rewrite decide_False by (intros [? _]; done).
    + rewrite relevant_aware. fold (issue_relevant s e i). rewrite IH.
      destruct (issue_relevant s e i) eqn:Hrel.
      * rewrite decide_True by done. simpl. by rewrite <- app_assoc.
      * by rewrite decide_False by (intros [_ ?]; done).
Qed.

(** X12. [fetch_issues] returns, in the order of the listing, exactly the
    items that carry no pull-request marker and whose creation time, or close
    time when closed, lies in the closed window [start, end], each tagged with
    "owner/repo": an item with the marker is never returned, whatever its
    dates. *)
Theorem fetch_issues_drops_pull_requests (env : environment) (fuel : nat)
    (owner repo : string) (s e : Z) (token : string) (w w' : world)
    (all_items : list Issue) :
  fetch_all_pages env fuel (IssuesL owner repo) token w = (Val all_items, w') →
  ∃ kept,
    fetch_issues env fuel owner repo (Aware s) (Aware e) token w
      = (Val (set_issue_repository (owner +:+ "/" +:+ repo) <$> kept), w')
    ∧ kept `sublist_of` all_items
    ∧ (∀ i, i ∈ kept ↔ i ∈ all_items ∧ is_pull_request i = false
                        ∧ issue_in_closed_window s e i).
Proof.
  intros Hpages. eexists. split; [|split].
  - unfold fetch_issues, bind. rewrite Hpages. unfold lift.
    rewrite filter_issues_spec. reflexivity.
  - apply sublist_filter.
  - intros i. rewrite list_elem_of_filter, <- issue_relevant_spec. tauto.
Qed.

(** X13. The result of [fetch_pull_requests] is a sub-sequence of the
    listing, in the order of the listing, with every record tagged with
    "owner/repo" and otherwise unchanged; in full mode it holds all the
    relevant records of the listing, however the listing is ordered. *)
Theorem fetch_pull_requests_tags_sublist (env : environment) (fuel : nat)
    (owner repo : string) (s e : Z) (token : string) (since : option Z)
    (w w' : world) (all_prs : list PullRequest) :
  fetch_all_pages env fuel (PullsL owner repo (sort_of since)) token w = (Val all_prs, w') →
  ∃ kept,
    fetch_pull_requests env fuel owner repo (Aware s) (Aware e) token since w
      = (Val (set_pr_repository (owner +:+ "/" +:+ repo) <$> kept), w')
    ∧ kept `sublist_of` all_prs
    ∧ (∀ x, x ∈ set_pr_repository (owner +:+ "/" +:+ repo) <$> kept →
         pr_repository x = Some (owner +:+ "/" +:+ repo))
    ∧ (since = None → kept = filter (λ pr, pr_relevant s e pr) all_prs).
Proof.
  intros Hpages. eexists. split; [by apply fetch_pull_requests_result|].
  split; [|split].
  - etrans; [apply sublist_filter|apply fresh_prefix_sublist].
  - by intros x (pr & -> & _)%list_elem_of_fmap.
  - intros ->. by rewrite fresh_prefix_full.
Qed.

End FilterExtras.

(** ** Further properties of [process_hackathon] and [main] *)

Section RepositoryPaths.
Import Pipeline.

Lemma split_on_nonempty (sep : ascii) (s : string) : split_on sep s ≠ [].
Proof.
  induction s as [|c s IH]; simpl; [done|].
  destruct (Ascii.eqb c sep); [done|]. by destruct (split_on sep s).
Qed.

Lemma split_on_single (sep : ascii) (s part : string) :
  split_on sep s = [part] ↔ s = part ∧ has_char sep s = false.
Proof.
  revert part. induction s as [|c s IH]; intros part; simpl.
  - split; [by intros [= <-]|by intros [<- _]].
  - destruct (Ascii.eqb c sep) eqn:Hc; simpl.
    + split; [|by intros [_ ?]]. intros [= _ Hnil]. by apply split_on_nonempty in Hnil.
    + destruct (split_on sep s) as [|p ps] eqn:Hs; [by apply split_on_nonempty in Hs|].
      split.
      * intros [= <- ->]. destruct (proj1 (IH p) eq_refl) as [-> Hno]. done.
      * intros [<- Hno]. pose proof (proj2 (IH s) (conj eq_refl Hno)) as Heq.
        by simplify_eq.
Qed.

Lemma split_on_pair (sep : ascii) (s a b : string) :
  split_on sep s = [a; b]
  ↔ s = a +:+ String sep b ∧ has_char sep a = false ∧ has_char sep b = false.
Proof.
  revert a. induction s as [|c s IH]; intros a; simpl.
  - split; [done|]. intros [Hs _]. by destruct a.
  - destruct (Ascii.eqb c sep) eqn:Hc.
    + apply Ascii.eqb_eq in Hc as ->. split.
      * intros [= <- Hb]. apply split_on_single in Hb as [-> Hno]. done.
      * intros (Hs & Ha & Hb). destruct a as [|c' a]; simpl in *.
        -- injection Hs as ->. f_equal. by apply split_on_single.
        -- injection Hs as <- _. by rewrite Ascii.eqb_refl in Ha.
    + destruct (split_on sep s) as [|p ps] eqn:Hs; [by apply split_on_nonempty in Hs|].
      split.
      * intros [= <- ->]. destruct (proj1 (IH p) eq_refl) as (-> & Ha & Hb).
        simpl. by rewrite Hc.
      * intros (Heq & Ha & Hb). destruct a as [|c' a]; simpl in *.
        -- injection Heq as -> _. by rewrite Ascii.eqb_refl in Hc.
        -- injection Heq as <- ->. apply orb_false_iff in Ha as [_ Ha].
           pose proof (proj2 (IH a) (conj eq_refl (conj Ha Hb))) as Heq.
           by simplify_eq.
Qed.

Lemma repo_parts_pair (repo_path owner repo : string) :
  repo_parts repo_path = Some (owner, repo) ↔ split_on "/" repo_path = [owner; repo].
Proof.
  unfold repo_parts.
  destruct (split_on "/" repo_path) as [|a [|b [|c l]]]; split; try done; congruence.
Qed.

(** X14. A repository path is accepted exactly when it is "owner/repo" with
    no other slash: [repo_parts] then gives back the two parts, and joining
    them with a slash gives back the path, so the tag that
    [fetch_pull_requests] writes on a record is the path it was fetched for
    and splits into the same owner and repository when the reviews are
    fetched.  A path with no slash or with more than one is rejected. *)
Theorem repo_parts_round_trip (repo_path owner repo : string) :
  (repo_parts repo_path = Some (owner, repo)
   ↔ repo_path = owner +:+ "/" +:+ repo
     ∧ has_char "/" owner = false ∧ has_char "/" repo = false)
  ∧ (repo_parts repo_path = Some (owner, repo) →
       repo_parts (owner +:+ "/" +:+ repo) = Some (owner, repo)).
Proof.
  assert (Hiff : ∀ p o r,
    repo_parts p = Some (o, r)
    ↔ p = o +:+ "/" +:+ r ∧ has_char "/" o = false ∧ has_char "/" r = false).
  { intros p o r. by rewrite repo_parts_pair, split_on_pair. }
  split; [apply Hiff|].
  intros (-> & Ho & Hr)%Hiff. by apply Hiff.
Qed.

End RepositoryPaths.

Section Isolation.
Import Fetcher Pipeline.
Variable env : environment.
Variable fuel : nat.

Lemma never_raises_ret {A} (a : A) : never_raises (ret a).
Proof. by intros w e w'. Qed.

Lemma never_raises_log (l : log_line) : never_raises (log l).
Proof. by intros w e w'. Qed.

Lemma never_raises_now : never_raises (now env).
Proof. by intros w e w'. Qed.

Lemma never_raises_get_world : never_raises get_world.
Proof. by intros w e w'. Qed.

Lemma never_raises_bind {A B} (m : M A) (f : A → M B) :
  never_raises m → (∀ a, never_raises (f a)) → never_raises (bind m f).
Proof.
  intros Hm Hf w e w'. unfold bind.
  destruct (m w) as [[a|e1|] w1] eqn:Hrun; [apply Hf| |done].
  by apply Hm in Hrun.
Qed.

(** What the guarded block raises is of no account: the handler decides. *)
Lemma never_raises_try_except {A} (m : M A) (handler : exn → M A) :
  (∀ e, never_raises (handler e)) → never_raises (try_except m handler).
Proof.
  intros Hh w e w'. unfold try_except.
  destruct (m w) as [[a|e1|] w1]; [done|apply Hh|done].
Qed.

Lemma never_raises_for_each {A S} (l : list A) (body : S → A → M S) (s : S) :
  (∀ s x, never_raises (body s x)) → never_raises (for_each l body s).
Proof.
  intros Hbody. revert s. induction l as [|x l IH]; intros s; simpl.
  - apply never_raises_ret.
  - apply never_raises_bind; [apply Hbody|apply IH].
Qed.

Lemma resolve_repositories_never_raises (name : string) (organization : option string)
    (explicit : list string) (token : string) (cache : cache_arg) :
  never_raises (resolve_repositories env fuel name organization explicit token cache).
Proof.
  unfold resolve_repositories. apply never_raises_bind.
  - destruct organization as [org|]; [|apply never_raises_ret].
    destruct (bool_decide (org = "")); [apply never_raises_ret|].
    apply never_raises_bind; [apply never_raises_get_world|]. intros w0.
    apply never_raises_bind.
    + assert (Hfetch : never_raises
        (try_except
           (let* org_repos := fetch_org_repos env fuel org token in
            let* _ := match org_repos, cache with
                      | _ :: _, SharedCache => cache_store org org_repos
                      | _, _ => ret tt
                      end in
            ret org_repos)
           (λ e, let* _ := log (ErrorOrgRepos org e) in ret []))).
      { apply never_raises_try_except. intros e.
        apply never_raises_bind; [apply never_raises_log|].
        intros _. apply never_raises_ret. }
      destruct cache; [exact Hfetch|].
      destruct (org_repos_cache w0 !! org); [apply never_raises_ret|exact Hfetch].
    + intros [|x l]; apply never_raises_ret.
  - intros [|x l]; [|apply never_raises_ret].
    apply never_raises_bind; [apply never_raises_log|]. intros _. apply never_raises_ret.
Qed.

Lemma fetch_all_prs_never_raises (repositories : list string) (s e : pydatetime)
    (token : string) (since : option datetime) :
  never_raises (fetch_all_prs env fuel repositories s e token since).
Proof.
  unfold fetch_all_prs. apply never_raises_for_each. intros [all_prs new] repo_path.
  destruct (repo_parts repo_path) as [[owner repo]|]; [|apply never_raises_ret].
  apply never_raises_try_except. intros _. apply never_raises_ret.
Qed.

Lemma fetch_all_reviews_never_raises (prs : list PullRequest) (token : string) :
  never_raises (fetch_all_reviews env fuel prs token).
Proof.
  unfold fetch_all_reviews. apply never_raises_for_each. intros all_reviews pr.
  cbv zeta. destruct (repo_parts _) as [[owner repo]|]; [|apply never_raises_ret].
  apply never_raises_try_except. intros _. apply never_raises_ret.
Qed.

Lemma fetch_all_issues_never_raises (repositories : list string) (s e : pydatetime)
    (token : string) :
  never_raises (fetch_all_issues env fuel repositories s e token).
Proof.
  unfold fetch_all_issues. apply never_raises_for_each. intros all_issues repo_path.
  destruct (repo_parts repo_path) as [[owner repo]|]; [|apply never_raises_ret].
  apply never_raises_try_except. intros _. apply never_raises_ret.
Qed.

Lemma fetch_all_metadata_never_raises (repositories : list string) (token : string) :
  never_raises (fetch_all_metadata env repositories token).
Proof.
  unfold fetch_all_metadata. apply never_raises_for_each. intros repo_data repo_path.
  destruct (repo_parts repo_path) as [[owner repo]|]; [|apply never_raises_ret].
  apply never_raises_try_except. intros _. apply never_raises_ret.
Qed.

(** X15. The fetches of an event are guarded one repository (and one pull
    request) at a time.  Take an event whose slug and name are present, whose
    two times are present and parse with an offset, whose dates give a daily
    series and whose previous snapshot, if any, is stamped at least five
    minutes after the first instant.  When its "github" key can be read,
    [process_hackathon] raises nothing, whatever the service answers: it
    returns a snapshot, returns nothing for want of repositories, or is still
    paging when the fuel ends.  When the key holds null, or its
    "repositories" key does, the event fails before any fetch, at lines
    384-385, with AttributeError or TypeError. *)
Theorem process_hackathon_isolates_fetch_failures
    (h : Hackathon) (token : string) (cache : cache_arg) (w : world)
    (sl nm : string) (s e : datetime) :
  slug h = Some sl → name h = Some nm →
  startTime h = Value (Parses (Aware s)) → endTime h = Value (Parses (Aware e)) →
  returns_daily s e →
  (∀ snap last_updated,
     files w !! sl = Some (JsonFile snap) → lastUpdated snap = Some last_updated →
     timedelta_minutes 5 ≤ last_updated ≤ datetime_max) →
  (github_readable h → ∀ e' w', process_hackathon env fuel h token cache w ≠ (Raise e', w'))
  ∧ (¬ github_readable h →
       ∃ e', process_hackathon env fuel h token cache w = (Raise e', w)
             ∧ (e' = AttributeError ∨ e' = TypeError)).
Proof.
  intros Hslug Hname Hstart Hend Hdaily Hstamp.
  unfold process_hackathon. rewrite Hslug, Hname, Hstart, Hend.
  unfold subscript, subscript_field.
  do 4 (unfold bind at 1, ret at 1).
  assert (Hrest : ∀ organization explicit_repos since, never_raises
    (let* resolved := resolve_repositories env fuel nm organization explicit_repos
                        token cache in
     match resolved with
     | None => ret None
     | Some repositories =>
         let* '(all_prs, new_or_updated_prs) :=
           fetch_all_prs env fuel repositories (Aware s) (Aware e) token since in
         let* all_reviews :=
           fetch_all_reviews env fuel
             match since with Some _ => new_or_updated_prs | None => all_prs end token in
         let* all_issues :=
           fetch_all_issues env fuel repositories (Aware s) (Aware e) token in
         let* repo_data := fetch_all_metadata env repositories token in
         let* stats :=
           lift (Aggregator.process_hackathon_stats
                   all_prs all_reviews all_issues (Aware s) (Aware e) repositories) in
         let* t := now env in
         ret (Some {| lastUpdated := Some t;
                      snap_slug := sl; snap_name := nm;
                      snap_startTime := Aware s; snap_endTime := Aware e;
                      snap_repositories := repositories;
                      snap_stats := set_repoData repo_data stats |})
     end)).
  { intros organization explicit_repos since.
    apply never_raises_bind; [apply resolve_repositories_never_raises|].
    intros [repositories|]; [|apply never_raises_ret].
    apply never_raises_bind; [apply fetch_all_prs_never_raises|]. intros [all_prs new].
    apply never_raises_bind; [apply fetch_all_reviews_never_raises|]. intros all_reviews.
    apply never_raises_bind; [apply fetch_all_issues_never_raises|]. intros all_issues.
    apply never_raises_bind; [apply fetch_all_metadata_never_raises|]. intros repo_data.
    apply never_raises_bind.
    - destruct (proj1 (stats_returns all_prs all_reviews all_issues s e repositories)
                  Hdaily) as [st Hst].
      rewrite Hst. by intros w0 e0 w0'.
    - intros st. apply never_raises_bind; [apply never_raises_now|].
      intros t. apply never_raises_ret. }
  assert (Hgo : ∀ organization explicit_repos e' w',
    (let* start_dt := fromisoformat (Some (Parses (Aware s))) in
     let* end_dt := fromisoformat (Some (Parses (Aware e))) in
     let* existing_data := load_existing_data sl in
     let* since := watermark existing_data in
     let* resolved := resolve_repositories env fuel nm organization explicit_repos
                        token cache in
     match resolved with
     | None => ret None
     | Some repositories =>
         let* '(all_prs, new_or_updated_prs) :=
           fetch_all_prs env fuel repositories start_dt end_dt token since in
         let* all_reviews :=
           fetch_all_reviews env fuel
             match since with Some _ => new_or_updated_prs | None => all_prs end token in
         let* all_issues := fetch_all_issues env fuel repositories start_dt end_dt token in
         let* repo_data := fetch_all_metadata env repositories token in
         let* stats :=
           lift (Aggregator.process_hackathon_stats
                   all_prs all_reviews all_issues start_dt end_dt repositories) in
         let* t := now env in
         ret (Some {| lastUpdated := Some t;
                      snap_slug := sl; snap_name := nm;
                      snap_startTime := start_dt; snap_endTime := end_dt;
                      snap_repositories := repositories;
                      snap_stats := set_repoData repo_data stats |})
     end) w ≠ (Raise e', w')).
  { intros organization explicit_repos e' w'. unfold fromisoformat.
    do 2 (unfold bind at 1, ret at 1).
    unfold bind at 1, load_existing_data, bind at 1, get_world at 1.
    destruct (files w !! sl) as [[snap|]|] eqn:Hfile; unfold ret at 1;
      unfold bind at 1, watermark; try apply Hrest.
    destruct (lastUpdated snap) as [last_updated|] eqn:Hlast; [|apply Hrest].
    destruct (Hstamp snap last_updated eq_refl Hlast) as [Hlo Hhi].
    assert (Hsub : datetime_sub last_updated (timedelta_minutes 5)
                   = Val (last_updated - timedelta_minutes 5)).
    { unfold datetime_sub. cbv zeta. unfold timedelta_minutes in *.
      rewrite (proj2 (Z.leb_le _ _)), (proj2 (Z.leb_le _ _)); [done|lia..]. }
    rewrite Hsub. unfold bind at 1, lift. unfold bind at 1, ret at 1. apply Hrest. }
  unfold github_readable, github_settings.
  destruct (github h) as [| |github_config].
  - split; [|done]. intros _ e' w'. unfold bind at 1, ret at 1. apply Hgo.
  - split; [done|]. intros _. exists AttributeError. split; [done|by left].
  - destruct (repositories github_config) as [| |explicit_repos].
    + split; [|intros Hn; by destruct Hn]. intros _ e' w'.
      unfold bind at 1, ret at 1. apply Hgo.
    + split; [done|]. intros _. exists TypeError. split; [done|by right].
    + split; [|intros Hn; by destruct Hn]. intros _ e' w'.
      unfold bind at 1, ret at 1. apply Hgo.
Qed.

End Isolation.

Section Runs.
Import Fetcher Pipeline.
Variable env : environment.
Variable fuel : nat.

Lemma main_body_frozen (token : string) (h : Hackathon) (w : world) :
  frozen env w h → main_body env fuel token h w = (Val tt, w).
Proof.
  intros (end_dt & Hend & Hpast & Hfile).
  unfold main_body, is_hackathon_active. rewrite Hend. simpl.
  unfold bind, now, ret, lift, get_world. simpl.
  rewrite (proj2 (Z.leb_gt _ _)) by lia.
  by rewrite bool_decide_eq_true_2.
Qed.

Lemma main_loop_frozen (token : string) (hackathons : list Hackathon) (w : world) :
  Forall (frozen env w) hackathons →
  main_loop env fuel token hackathons w = (Val tt, w).
Proof.
  unfold main_loop. induction 1 as [|h hs Hh _ IH]; simpl; [done|].
  unfold bind. by rewrite main_body_frozen.
Qed.

(** The loop of lines 602-605 raises on no event whose "github" key can be
    read. *)
Lemma summary_repositories_readable (hackathons : list Hackathon) :
  Forall github_readable hackathons →
  ∃ all_repos, summary_repositories hackathons = Val all_repos.
Proof.
  intros Hall. unfold summary_repositories. generalize (∅ : gset string).
  induction Hall as [|h hs Hh _ IH]; intros acc; simpl; [by eexists|].
  unfold github_readable in Hh.
  destruct (github h) as [| |github_config]; [apply IH|done|].
  destruct (repositories github_config); [apply IH|done|apply IH].
Qed.

(** X16. A run over events that have all ended and all have their data file
    sends no request and touches no data file, however it ends.  It ends as
    the loop that counts the repositories of the summary ends: when no event
    holds a null under "github" or under "repositories", which is so of every
    event whose "github" key can be read, the run completes and only writes
    the summary, which lists every event of the configuration and is stamped
    with the clock; on a null it leaves with the exception of that loop, the
    summary unwritten. *)
Theorem ended_events_cost_nothing (token : string) (hackathons : list Hackathon)
    (w : world) :
  hackathons ≠ [] →
  Forall (frozen env w) hackathons →
  (∃ r w', main env fuel (Some hackathons) token w = (r, w')
           ∧ requests_sent w' = requests_sent w
           ∧ files w' = files w
           ∧ match summary_repositories hackathons with
             | Val all_repos =>
                 r = Val Completed
                 ∧ stats_json w'
                   = Some (summary_of (clock env (events w')) hackathons all_repos)
             | Raise e => r = Raise e ∧ stats_json w' = stats_json w
             | Diverge => False
             end)
  ∧ (Forall github_readable hackathons →
       ∃ w' t all_repos,
         main env fuel (Some hackathons) token w = (Val Completed, w')
         ∧ requests_sent w' = requests_sent w
         ∧ files w' = files w
         ∧ stats_json w' = Some (summary_of t hackathons all_repos)).
Proof.
  intros Hne Hall. destruct hackathons as [|h hs]; [done|].
  assert (Hmain : main env fuel (Some (h :: hs)) token w
    = match summary_repositories (h :: hs) with
      | Val all_repos =>
          (Val Completed,
           {| events := events w; files := files w;
              stats_json := Some (summary_of (clock env (events w)) (h :: hs) all_repos);
              org_repos_cache := ∅ |})
      | Raise e =>
          (Raise e, {| events := events w; files := files w;
                       stats_json := stats_json w; org_repos_cache := ∅ |})
      | Diverge =>
          (Diverge, {| events := events w; files := files w;
                       stats_json := stats_json w; org_repos_cache := ∅ |})
      end).
  { unfold main. unfold bind at 1, cache_reset at 1. unfold bind at 1.
    rewrite main_loop_frozen by done.
    unfold bind, lift, now, write_summary, ret.
    by destruct (summary_repositories (h :: hs)). }
  split.
  - pose proof (summary_repositories_returns (h :: hs)) as Hnd.
    rewrite Hmain. destruct (summary_repositories (h :: hs)) as [all_repos|e|]; [| |done].
    + by eexists _, _.
    + by eexists _, _.
  - intros [all_repos Hsum]%summary_repositories_readable.
    rewrite Hmain, Hsum. by eexists _, _, _.
Qed.

(** X17. When the organization listing cannot be fetched, the exception stops
    at the [try] of the resolution step: the failure is logged, nothing is put
    in the dictionary, and the event goes on with its explicit list as it
    stands, duplicates and order included; with an empty explicit list the
    event is reported as having no repositories. *)
Theorem org_listing_failure_falls_back (name org token : string)
    (explicit : list string) (cache : cache_arg) (w w1 : world) (e : exn) :
  org ≠ "" →
  org_repos_cache w !! org = None →
  fetch_org_repos env fuel org token w = (Raise e, w1) →
  let w2 := add_event (Log (ErrorOrgRepos org e)) w1 in
  org_repos_cache w2 = org_repos_cache w1
  ∧ resolve_repositories env fuel name (Some org) explicit token cache w
    = match explicit with
      | [] => (Val None, add_event (Log (WarnNoRepositories name)) w2)
      | _ :: _ => (Val (Some explicit), w2)
      end.
Proof.
  intros Hne Hmiss Hfetch w2. split; [done|].
  unfold resolve_repositories. rewrite bool_decide_eq_false_2 by done.
  unfold bind at 1. unfold bind at 1, get_world at 1. rewrite Hmiss.
  assert (Htry :
    try_except
      (let* org_repos := fetch_org_repos env fuel org token in
       let* _ := match org_repos, cache with
                 | _ :: _, SharedCache => cache_store org org_repos
                 | _, _ => ret tt
                 end in
       ret org_repos)
      (λ e, let* _ := log (ErrorOrgRepos org e) in ret []) w = (Val [], w2)).
  { unfold try_except. unfold bind at 1. by rewrite Hfetch. }
  unfold bind at 1.
  destruct cache; rewrite Htry; by destruct explicit.
Qed.

Lemma for_each_invariant {A S} (I : S → Prop) (l : list A) (body : S → A → M S)
    (s0 s' : S) (w w' : world) :
  (∀ s x w s1 w1, I s → x ∈ l → body s x w = (Val s1, w1) → I s1) →
  I s0 →
  for_each l body s0 w = (Val s', w') →
  I s'.
Proof.
  revert s0 w. induction l as [|x l IH]; intros s0 w Hbody H0; simpl.
  - by intros [= <- _].
  - unfold bind. destruct (body s0 x w) as [[s1|e|] w1] eqn:Hrun; [|done..].
    apply IH.
    + intros s y w2 s2 w3 Hs Hy. apply Hbody; [done|by right].
    + apply (Hbody s0 x w s1 w1); [done|left|done].
Qed.

(** The test of lines 158-160 and 193-195 is passed between two aware bounds
    only: a naive bound makes the comparison that reaches it raise. *)
Lemma relevant_true (start_dt end_dt : pydatetime) (created : Z) (other : option Z) :
  relevant start_dt end_dt created other = Val true →
  ∃ s e, start_dt = Aware s ∧ end_dt = Aware e.
Proof.
  destruct start_dt as [s|s], end_dt as [e|e]; [by eauto|..]; [|done..].
  unfold relevant, between_bounds, bound_le, le_bound.
  destruct (s <=? created); [done|].
  destruct other as [t|]; [|done]. by destruct (s <=? t).
Qed.

Lemma filter_pull_requests_elem (repository : string) (start_dt end_dt : pydatetime)
    (since : option Z) (all_prs filtered kept : list PullRequest) (pr : PullRequest) :
  filter_pull_requests repository start_dt end_dt since all_prs filtered = Val kept →
  pr ∈ kept →
  pr ∈ filtered
  ∨ ∃ x, pr = set_pr_repository repository x ∧ x ∈ all_prs
         ∧ relevant start_dt end_dt (pr_created_at x) (pr_merged_at x) = Val true
         ∧ before_watermark since x = false.
Proof.
  revert filtered. induction all_prs as [|x rest IH]; intros filtered; simpl.
  - intros [= <-]. by left.
  - destruct (before_watermark since x) eqn:Hfresh; [intros [= <-]; by left|].
    destruct (relevant start_dt end_dt (pr_created_at x) (pr_merged_at x))
      as [[|]| |] eqn:Hrel; [| |done..]; intros Hrun Hin;
      destruct (IH _ Hrun Hin) as [Hold|(y & -> & Hy & Hrest)].
    + apply elem_of_app in Hold as [Hold|Hnew]; [by left|].
      apply list_elem_of_singleton in Hnew as ->. right. exists x.
      split; [done|]. split; [left|done].
    + right. exists y. split; [done|]. split; [by right|done].
    + by left.
    + right. exists y. split; [done|]. split; [by right|done].
Qed.

Lemma fetch_pull_requests_elem (owner repo : string) (start_dt end_dt : pydatetime)
    (token : string) (since : option Z) (w w' : world) (prs : list PullRequest)
    (pr : PullRequest) :
  fetch_pull_requests env fuel owner repo start_dt end_dt token since w = (Val prs, w') →
  pr ∈ prs →
  pr_repository pr = Some (owner +:+ "/" +:+ repo)
  ∧ (∃ s e, start_dt = Aware s ∧ end_dt = Aware e ∧ in_closed_window s e pr)
  ∧ ∀ watermark, since = Some watermark → watermark ≤ pr_updated_at pr.
Proof.
  unfold fetch_pull_requests, bind. fold (sort_of since).
  destruct (fetch_all_pages env fuel _ token w) as [[all_prs|e0|] w1]; [|done..].
  unfold lift. intros [= Hkept _] Hin.
  destruct (filter_pull_requests_elem _ _ _ _ _ _ _ _ Hkept Hin)
    as [?%elem_of_nil|(x & -> & Hx & Hrel & Hfresh)]; [done|].
  split; [done|]. split.
  - destruct (relevant_true _ _ _ _ Hrel) as (s & e & -> & ->). exists s, e.
    rewrite relevant_aware in Hrel. injection Hrel as Hrel.
    split; [done|]. split; [done|]. by apply pr_relevant_spec.
  - intros watermark ->. simpl in Hfresh. by apply Z.ltb_ge in Hfresh.
Qed.

(** What the loop over the repositories collects: the two lists are kept in
    step, and every record is tagged with a repository of the event, lies in
    the closed window and is no older than the watermark. *)
Lemma fetch_all_prs_facts (repositories : list string) (start_dt end_dt : pydatetime)
    (token : string) (since : option Z) (w w' : world)
    (all_prs new_or_updated_prs : list PullRequest) :
  fetch_all_prs env fuel repositories start_dt end_dt token since w
    = (Val (all_prs, new_or_updated_prs), w') →
  match since with Some _ => new_or_updated_prs | None => all_prs end = all_prs
  ∧ ∀ pr, pr ∈ all_prs →
      (∃ repo_path, repo_path ∈ repositories
                    ∧ is_Some (repo_parts repo_path)
                    ∧ pr_repository pr = Some repo_path)
      ∧ (∃ s e, start_dt = Aware s ∧ end_dt = Aware e ∧ in_closed_window s e pr)
      ∧ ∀ watermark, since = Some watermark → watermark ≤ pr_updated_at pr.
Proof.
  unfold fetch_all_prs. intros Hrun.
  pose (I := λ acc : list PullRequest * list PullRequest,
    match since with Some _ => acc.2 | None => acc.1 end = acc.1
    ∧ ∀ pr, pr ∈ acc.1 →
        (∃ repo_path, repo_path ∈ repositories
                      ∧ is_Some (repo_parts repo_path)
                      ∧ pr_repository pr = Some repo_path)
        ∧ (∃ s e, start_dt = Aware s ∧ end_dt = Aware e ∧ in_closed_window s e pr)
        ∧ ∀ watermark, since = Some watermark → watermark ≤ pr_updated_at pr).
  apply (for_each_invariant I) in Hrun; [exact Hrun| |].
  - clear Hrun. intros [acc new] repo_path w0 [acc1 new1] w1 [Hsame Hacc] Hin.
    simpl in Hsame, Hacc.
    destruct (repo_parts repo_path) as [[owner repo]|] eqn:Hparts.
    + unfold try_except, bind.
      destruct (fetch_pull_requests env fuel owner repo start_dt end_dt token since w0)
        as [[prs|e0|] w2] eqn:Hfetch; unfold ret; intros [= <- <- _];
        try (split; [exact Hsame|exact Hacc]).
      split; simpl.
      * destruct since; [by rewrite Hsame|done].
      * intros pr [Hpr|Hpr]%elem_of_app; [by apply Hacc|].
        destruct (fetch_pull_requests_elem _ _ _ _ _ _ _ _ _ _ Hfetch Hpr)
          as (Htag & Hwin & Hfresh).
        split; [|done]. exists repo_path. split; [done|]. split; [by rewrite Hparts|].
        rewrite Htag. f_equal. symmetry.
        by apply (proj1 (split_on_pair "/" repo_path owner repo)),
                 (proj1 (repo_parts_pair repo_path owner repo)).
    + unfold ret. intros [= <- <- _]. split; [exact Hsame|exact Hacc].
  - split; simpl; [by destruct since|]. by intros pr ?%elem_of_nil.
Qed.

Lemma filter_issues_elem (repository : string) (start_dt end_dt : pydatetime)
    (all_items filtered kept : list Issue) (i : Issue) :
  filter_issues repository start_dt end_dt all_items filtered = Val kept →
  i ∈ kept →
  i ∈ filtered
  ∨ ∃ x, i = set_issue_repository repository x ∧ x ∈ all_items
         ∧ is_pull_request x = false
         ∧ relevant start_dt end_dt (is_created_at x) (is_closed_at x) = Val true.
Proof.
  revert filtered. induction all_items as [|x rest IH]; intros filtered; simpl.
  - intros [= <-]. by left.
  - destruct (is_pull_request x) eqn:Hmarker.
    { intros Hrun Hin. destruct (IH _ Hrun Hin) as [Hold|(y & -> & Hy & Hrest)];
        [by left|]. right. exists y. split; [done|]. split; [by right|done]. }
    destruct (relevant start_dt end_dt (is_created_at x) (is_closed_at x))
      as [[|]| |] eqn:Hrel; [| |done..]; intros Hrun Hin;
      destruct (IH _ Hrun Hin) as [Hold|(y & -> & Hy & Hrest)].
    + apply elem_of_app in Hold as [Hold|Hnew]; [by left|].
      apply list_elem_of_singleton in Hnew as ->. right. exists x.
      split; [done|]. split; [left|done].
    + right. exists y. split; [done|]. split; [by right|done].
    + by left.
    + right. exists y. split; [done|]. split; [by right|done].
Qed.

Lemma fetch_issues_elem (owner repo : string) (start_dt end_dt : pydatetime)
    (token : string) (w w' : world) (issues : list Issue) (i : Issue) :
  fetch_issues env fuel owner repo start_dt end_dt token w = (Val issues, w') →
  i ∈ issues →
  is_repository i = Some (owner +:+ "/" +:+ repo) ∧ is_pull_request i = false
  ∧ ∃ s e, start_dt = Aware s ∧ end_dt = Aware e.
Proof.
  unfold fetch_issues, bind.
  destruct (fetch_all_pages env fuel _ token w) as [[all_items|e0|] w1]; [|done..].
  unfold lift. intros [= Hkept _] Hin.
  destruct (filter_issues_elem _ _ _ _ _ _ _ Hkept Hin)
    as [?%elem_of_nil|(x & -> & Hx & Hmarker & Hrel)]; [done|].
  split; [done|]. split; [done|]. by apply relevant_true in Hrel.
Qed.

Lemma fetch_all_issues_facts (repositories : list string) (start_dt end_dt : pydatetime)
    (token : string) (w w' : world) (all_issues : list Issue) :
  fetch_all_issues env fuel repositories start_dt end_dt token w = (Val all_issues, w') →
  ∀ i, i ∈ all_issues →
    (∃ repo_path, repo_path ∈ repositories ∧ is_Some (repo_parts repo_path)
                  ∧ is_repository i = Some repo_path)
    ∧ is_pull_request i = false
    ∧ ∃ s e, start_dt = Aware s ∧ end_dt = Aware e.
Proof.
  unfold fetch_all_issues. intros Hrun.
  pose (I := λ acc : list Issue,
    ∀ i, i ∈ acc →
      (∃ repo_path, repo_path ∈ repositories ∧ is_Some (repo_parts repo_path)
                    ∧ is_repository i = Some repo_path)
      ∧ is_pull_request i = false
      ∧ ∃ s e, start_dt = Aware s ∧ end_dt = Aware e).
  apply (for_each_invariant I) in Hrun; [exact Hrun| |].
  - clear Hrun. intros acc repo_path w0 acc1 w1 Hacc Hin.
    destruct (repo_parts repo_path) as [[owner repo]|] eqn:Hparts.
    + unfold try_except, bind.
      destruct (fetch_issues env fuel owner repo start_dt end_dt token w0)
        as [[issues|e0|] w2] eqn:Hfetch; unfold ret; intros [= <- _]; try exact Hacc.
      intros i [Hi|Hi]%elem_of_app; [by apply Hacc|].
      destruct (fetch_issues_elem _ _ _ _ _ _ _ _ _ Hfetch Hi)
        as (Htag & Hmarker & Haware).
      split; [|done]. exists repo_path. split; [done|]. split; [by rewrite Hparts|].
      rewrite Htag. f_equal. symmetry.
      by apply (proj1 (split_on_pair "/" repo_path owner repo)),
               (proj1 (repo_parts_pair repo_path owner repo)).
    + unfold ret. by intros [= <- _].
  - by intros i ?%elem_of_nil.
Qed.


End Runs.

Section Snapshots.
Import Fetcher Pipeline.
Variable env : environment.
Variable fuel : nat.

Lemma process_hackathon_unfold (h : Hackathon) (token : string) (cache : cache_arg) :
  process_hackathon env fuel h token cache
  = (let* slug := subscript (slug h) in
     let* name := subscript (name h) in
     let* start_time := subscript_field (startTime h) in
     let* end_time := subscript_field (endTime h) in
     let* '(organization, explicit_repos) := github_settings (github h) in
     let* start_dt := fromisoformat start_time in
     let* end_dt := fromisoformat end_time in
     process_hackathon_tail env fuel slug name start_dt end_dt
       organization explicit_repos token cache).
Proof. reflexivity. Qed.

(** Reading the configuration (lines 379-388) sends nothing and writes
    nothing: it raises, or hands what it has read to the rest of the
    function. *)
Lemma process_hackathon_prefix (h : Hackathon) (token : string) (cache : cache_arg)
    (w : world) :
  (∃ e, process_hackathon env fuel h token cache w = (Raise e, w))
  ∨ ∃ sl nm start_dt end_dt organization explicit_repos,
      slug h = Some sl ∧ name h = Some nm
      ∧ startTime h = Value (Parses start_dt) ∧ endTime h = Value (Parses end_dt)
      ∧ github_settings (github h) w = (Val (organization, explicit_repos), w)
      ∧ process_hackathon env fuel h token cache w
        = process_hackathon_tail env fuel sl nm start_dt end_dt
            organization explicit_repos token cache w.
Proof.
  rewrite process_hackathon_unfold. unfold github_settings.
  destruct (slug h) as [sl|]; [|left; by eexists].
  destruct (name h) as [nm|]; [|left; by eexists].
  destruct (startTime h) as [| |[|start_dt]], (endTime h) as [| |[|end_dt]],
    (github h) as [| |github_config];
    cbv beta iota; try (left; by eexists);
    try (destruct (repositories github_config) as [| |explicit_repos];
         try (left; by eexists));
    right; by eexists sl, nm, start_dt, end_dt, _, _.
Qed.

Lemma github_settings_explicit (h : Hackathon) (organization : option string)
    (explicit_repos : list string) (w w1 : world) :
  github_settings (github h) w = (Val (organization, explicit_repos), w1) →
  explicit_repos = explicit_of h ∧ github_readable h.
Proof.
  unfold github_settings, explicit_of, github_readable.
  destruct (github h) as [| |github_config]; [by intros [= <- <- _]|done|].
  destruct (repositories github_config); [|done|]; by intros [= <- <- _].
Qed.

Lemma load_existing_data_world (slug : string) (w : world) :
  load_existing_data slug w = (Val (snapshot_on_disk w slug), w).
Proof.
  unfold load_existing_data, snapshot_on_disk, bind, get_world.
  by destruct (files w !! slug) as [[s|]|].
Qed.

Lemma watermark_world (existing : option Snapshot) (w : world) :
  ∃ r, watermark existing w = (r, w) ∧ r ≠ Diverge.
Proof.
  unfold watermark. destruct existing as [snap|]; [|by eexists].
  destruct (lastUpdated snap) as [t|]; [|by eexists].
  unfold bind, lift, datetime_sub. cbv zeta. destruct (_ && _); by eexists.
Qed.

(** The watermark of a stamped snapshot is its stamp less five minutes. *)
Lemma watermark_of_stamp (previous : Snapshot) (last_updated : datetime)
    (since : option datetime) (w w1 : world) :
  lastUpdated previous = Some last_updated →
  watermark (Some previous) w = (Val since, w1) →
  since = Some (last_updated - timedelta_minutes 5).
Proof.
  intros Hstamp. unfold watermark. rewrite Hstamp.
  unfold bind, lift, datetime_sub. cbv zeta. destruct (_ && _); [|done].
  by intros [= <- _].
Qed.

(** What the resolution step returns holds every explicit repository, and is
    never an empty list. *)
Lemma resolve_repositories_result (name : string) (organization : option string)
    (explicit : list string) (token : string) (cache : cache_arg) (w w' : world)
    (repos : list string) :
  resolve_repositories env fuel name organization explicit token cache w
    = (Val (Some repos), w') →
  repos ≠ [] ∧ explicit ⊆ repos.
Proof.
  unfold resolve_repositories. unfold bind at 1.
  match goal with |- context [match ?m w with _ => _ end] => set (resolved := m w) end.
  assert (Hres : ∀ l w1, resolved = (Val l, w1) → explicit ⊆ l).
  { subst resolved. intros l w1. destruct organization as [org|]; [|by intros [= <- _]].
    destruct (bool_decide (org = "")); [by intros [= <- _]|].
    unfold bind at 1. unfold bind at 1, get_world at 1.
    match goal with |- context [match ?m w with _ => _ end] =>
      destruct (m w) as [[[|x org_repos]|e|] w2] end; try done.
    - by intros [= <- _].
    - intros [= <- _]. intros y Hy.
      apply elem_of_elements, elem_of_union. left. by apply elem_of_list_to_set. }
  destruct resolved as [[[|x l]|e|] w1]; try done.
  intros [= <- _]. split; [done|]. by apply (Hres _ w1).
Qed.

(** The steps behind a snapshot, one after the other.  The reviews are
    fetched for the very list that is aggregated. *)
Lemma process_hackathon_tail_inv (sl nm : string) (start_dt end_dt : pydatetime)
    (organization : option string) (explicit_repos : list string) (token : string)
    (cache : cache_arg) (w w' : world) (snap : Snapshot) :
  process_hackathon_tail env fuel sl nm start_dt end_dt organization explicit_repos
    token cache w = (Val (Some snap), w') →
  ∃ since repos w1 w2 w3 w4 all_prs new_or_updated_prs all_reviews all_issues
      repo_data stats,
    watermark (snapshot_on_disk w sl) w = (Val since, w)
    ∧ resolve_repositories env fuel nm organization explicit_repos token cache w
      = (Val (Some repos), w1)
    ∧ fetch_all_prs env fuel repos start_dt end_dt token since w1
      = (Val (all_prs, new_or_updated_prs), w2)
    ∧ fetch_all_reviews env fuel all_prs token w2 = (Val all_reviews, w3)
    ∧ fetch_all_issues env fuel repos start_dt end_dt token w3 = (Val all_issues, w4)
    ∧ fetch_all_metadata env repos token w4 = (Val repo_data, w')
    ∧ Aggregator.process_hackathon_stats all_prs all_reviews all_issues
        start_dt end_dt repos = Val stats
    ∧ snap = {| lastUpdated := Some (clock env (events w'));
                snap_slug := sl; snap_name := nm;
                snap_startTime := start_dt; snap_endTime := end_dt;
                snap_repositories := repos;
                snap_stats := set_repoData repo_data stats |}.
Proof.
  intros Hrun. unfold process_hackathon_tail in Hrun.
  unfold bind at 1 in Hrun. rewrite load_existing_data_world in Hrun.
  unfold bind at 1 in Hrun.
  destruct (watermark_world (snapshot_on_disk w sl) w) as [[since|e0|] [Hw _]];
    rewrite Hw in Hrun; [|done..].
  unfold bind at 1 in Hrun.
  destruct (resolve_repositories env fuel nm organization explicit_repos token cache w)
    as [[[repos|]|e0|] w1] eqn:Hres; [|done..].
  unfold bind at 1 in Hrun.
  destruct (fetch_all_prs env fuel repos start_dt end_dt token since w1)
    as [[[all_prs new]|e0|] w2] eqn:Hprs; [|done..].
  destruct (fetch_all_prs_facts env fuel _ _ _ _ _ _ _ _ _ Hprs) as [Hsame _].
  cbv zeta in Hrun. rewrite Hsame in Hrun.
  unfold bind at 1 in Hrun.
  destruct (fetch_all_reviews env fuel all_prs token w2)
    as [[all_reviews|e0|] w3] eqn:Hreviews; [|done..].
  unfold bind at 1 in Hrun.
  destruct (fetch_all_issues env fuel repos start_dt end_dt token w3)
    as [[all_issues|e0|] w4] eqn:Hissues; [|done..].
  unfold bind at 1 in Hrun.
  destruct (fetch_all_metadata env repos token w4)
    as [[repo_data|e0|] w5] eqn:Hmeta; [|done..].
  unfold bind at 1, lift in Hrun.
  destruct (Aggregator.process_hackathon_stats _ _ _ _ _ _) as [stats|e0|] eqn:Hstats;
    [|done..].
  unfold bind, now, ret in Hrun. injection Hrun as <- <-.
  by eexists since, repos, w1, w2, w3, w4, all_prs, new, all_reviews, all_issues,
             repo_data, stats.
Qed.

(** With a naive bound nothing is collected, and the aggregation compares
    nothing: the statistics are those of the window read as aware. *)
Lemma collected_stats_aware (repos : list string) (start_dt end_dt : pydatetime)
    (token : string) (since : option Z) (w1 w2 w3 : world)
    (all_prs new_or_updated_prs : list PullRequest) (all_reviews : list Review)
    (all_issues : list Issue) :
  fetch_all_prs env fuel repos start_dt end_dt token since w1
    = (Val (all_prs, new_or_updated_prs), w2) →
  fetch_all_reviews env fuel all_prs token w2 = (Val all_reviews, w3) →
  Aggregator.process_hackathon_stats all_prs all_reviews all_issues start_dt end_dt repos
  = Aggregator.process_hackathon_stats all_prs all_reviews all_issues
      (Aware (wall_clock start_dt)) (Aware (wall_clock end_dt)) repos.
Proof.
  intros Hprs Hreviews.
  destruct (fetch_all_prs_facts env fuel _ _ _ _ _ _ _ _ _ Hprs) as [_ Hfacts].
  destruct all_prs as [|pr all_prs].
  - injection Hreviews as <- _. by destruct start_dt, end_dt.
  - destruct (Hfacts pr) as (_ & (s & e & -> & -> & _) & _); [left|done].
Qed.

(** X19. A snapshot that [process_hackathon] returns echoes the slug, name,
    start and end of the configuration, lists at least one repository and
    every repository the configuration names, carries the repository
    metadata, and is stamped with the time at which the event was finished.
    Written to the event's file, it is what the next run loads, and the next
    run's watermark is that stamp less five minutes. *)
Theorem process_hackathon_snapshot (h : Hackathon) (token : string) (cache : cache_arg)
    (w w' : world) (snap : Snapshot) :
  process_hackathon env fuel h token cache w = (Val (Some snap), w') →
  let w'' := (write_file (snap_slug snap) snap w').2 in
  let stamp := clock env (events w') in
  slug h = Some (snap_slug snap) ∧ name h = Some (snap_name snap)
  ∧ startTime h = Value (Parses (snap_startTime snap))
  ∧ endTime h = Value (Parses (snap_endTime snap))
  ∧ snap_repositories snap ≠ [] ∧ explicit_of h ⊆ snap_repositories snap
  ∧ is_Some (repoData (snap_stats snap))
  ∧ lastUpdated snap = Some stamp
  ∧ load_existing_data (snap_slug snap) w'' = (Val (Some snap), w'')
  ∧ (timedelta_minutes 5 ≤ stamp ≤ datetime_max →
       watermark (Some snap) w'' = (Val (Some (stamp - timedelta_minutes 5)), w'')).
Proof.
  intros Hrun.
  destruct (process_hackathon_prefix h token cache w)
    as [[e He]|(sl & nm & start_dt & end_dt & organization & explicit_repos
                & Hslug & Hname & Hstart & Hend & Hgithub & Htail)]; [congruence|].
  rewrite Htail in Hrun.
  apply process_hackathon_tail_inv in Hrun
    as (since & repos & w1 & w2 & w3 & w4 & all_prs & new & all_reviews & all_issues
        & repo_data & stats & _ & Hres & _ & _ & _ & _ & _ & ->).
  apply resolve_repositories_result in Hres as [Hne Hsub].
  apply github_settings_explicit in Hgithub as [-> _].
  simpl. repeat split; try done; try by eexists.
  - unfold load_existing_data, bind, get_world, write_file, ret. simpl.
    by rewrite lookup_insert_eq.
  - intros [Hlo Hhi]. unfold watermark. simpl. unfold bind, lift, datetime_sub. cbv zeta.
    unfold timedelta_minutes in *.
    by rewrite (proj2 (Z.leb_le _ _)), (proj2 (Z.leb_le _ _)) by lia.
Qed.

(** X18. The statistics of a snapshot that [process_hackathon] returns are
    those of one list of pull requests: the list that the loop over the
    snapshot's repositories collected under the watermark of the snapshot
    found on disk.  The reviews that go into the statistics were fetched for
    that very list, in full mode and in incremental mode alike.  [totalPRs]
    is the length of the list.  Each record of it is
    tagged with one of the snapshot's repositories, a path of the form
    "owner/repo", and lies in the closed window of the event, whose two ends
    are then aware.  When the run found a stamped snapshot of the event on
    disk, each record was updated no earlier than five minutes before that
    stamp: the statistics of an incremental run count no pull request older
    than the watermark. *)
Theorem process_hackathon_collects (h : Hackathon) (token : string) (cache : cache_arg)
    (w w' : world) (snap : Snapshot) :
  process_hackathon env fuel h token cache w = (Val (Some snap), w') →
  ∃ since all_prs new_or_updated_prs all_reviews all_issues repo_data stats w1 w2 w3,
    watermark (snapshot_on_disk w (snap_slug snap)) w = (Val since, w)
    ∧ fetch_all_prs env fuel (snap_repositories snap)
        (snap_startTime snap) (snap_endTime snap) token since w1
      = (Val (all_prs, new_or_updated_prs), w2)
    ∧ fetch_all_reviews env fuel all_prs token w2 = (Val all_reviews, w3)
    ∧ Aggregator.process_hackathon_stats all_prs all_reviews all_issues
        (snap_startTime snap) (snap_endTime snap) (snap_repositories snap) = Val stats
    ∧ snap_stats snap = set_repoData repo_data stats
    ∧ totalPRs (snap_stats snap) = length all_prs
    ∧ ∀ pr, pr ∈ all_prs →
        (∃ repo_path, repo_path ∈ snap_repositories snap
                      ∧ is_Some (repo_parts repo_path)
                      ∧ pr_repository pr = Some repo_path)
        ∧ (∃ s e, snap_startTime snap = Aware s ∧ snap_endTime snap = Aware e
                  ∧ in_closed_window s e pr)
        ∧ ∀ previous last_updated,
            files w !! snap_slug snap = Some (JsonFile previous) →
            lastUpdated previous = Some last_updated →
            last_updated - timedelta_minutes 5 ≤ pr_updated_at pr.
Proof.
  intros Hrun.
  destruct (process_hackathon_prefix h token cache w)
    as [[e He]|(sl & nm & start_dt & end_dt & organization & explicit_repos
                & _ & _ & _ & _ & _ & Htail)]; [congruence|].
  rewrite Htail in Hrun.
  apply process_hackathon_tail_inv in Hrun
    as (since & repos & w1 & w2 & w3 & w4 & all_prs & new & all_reviews & all_issues
        & repo_data & stats & Hsince & _ & Hprs & Hreviews & _ & _ & Hstats & ->).
  exists since, all_prs, new, all_reviews, all_issues, repo_data, stats, w1, w2, w3.
  simpl. do 5 (split; [done|]). split.
  - rewrite (collected_stats_aware _ _ _ _ _ _ _ _ _ _ _ all_issues Hprs Hreviews)
      in Hstats.
    destruct (Aggregator.build_daily_activity (wall_clock start_dt) (wall_clock end_dt))
      as [daily0|e0|] eqn:Hdaily;
      [|by rewrite process_hackathon_stats_aware, Hdaily in Hstats..].
    destruct (stats_fields all_prs all_reviews all_issues _ _ repos daily0 Hdaily)
      as (st & Hst & Htotal & _).
    rewrite Hst in Hstats. by injection Hstats as <-.
  - destruct (fetch_all_prs_facts env fuel _ _ _ _ _ _ _ _ _ Hprs) as [_ Hfacts].
    intros pr Hpr. destruct (Hfacts pr Hpr) as (Htag & Hwindow & Hfresh).
    split; [done|]. split; [done|].
    intros previous last_updated Hfile Hstamp. apply Hfresh.
    unfold snapshot_on_disk in Hsince. rewrite Hfile in Hsince.
    by apply (watermark_of_stamp _ _ _ _ _ Hstamp) in Hsince.
Qed.

Lemma length_filter_conj {A} (P Q : A → Prop) `{!∀ x, Decision (P x)}
    `{!∀ x, Decision (Q x)} (l : list A) :
  (length (filter (λ x, P x ∧ Q x) l) ≤ length (filter P l))%nat.
Proof.
  induction l as [|x l IH]; [done|]. rewrite !filter_cons.
  destruct (decide (P x ∧ Q x)) as [[HP HQ]|Hno], (decide (P x)); simpl; try lia.
  done.
Qed.

(** X23. In a snapshot that [process_hackathon] returns the repository map
    has an entry for exactly the repositories the snapshot lists: the fetch
    loops tag every record with the repository it was fetched for, so the
    aggregation never has to add a key, "unknown" least of all.  The entry of
    a repository whose path is not of the form "owner/repo" is there with all
    its counters at zero, since nothing is fetched for it. *)
Theorem snapshot_repo_stats_keys (h : Hackathon) (token : string) (cache : cache_arg)
    (w w' : world) (snap : Snapshot) :
  process_hackathon env fuel h token cache w = (Val (Some snap), w') →
  (∀ k, is_Some (repoStats (snap_stats snap) !! k) ↔ k ∈ snap_repositories snap)
  ∧ (∀ k r, repoStats (snap_stats snap) !! k = Some r →
       (repo_merged r ≤ repo_total r)%nat ∧ (repo_closedIssues r ≤ repo_issues r)%nat
       ∧ (repo_parts k = None → r = zero_repo)).
Proof.
  intros Hrun.
  destruct (process_hackathon_prefix h token cache w)
    as [[e He]|(sl & nm & start_dt & end_dt & organization & explicit_repos
                & _ & _ & _ & _ & _ & Htail)]; [congruence|].
  rewrite Htail in Hrun.
  apply process_hackathon_tail_inv in Hrun
    as (since & repos & w1 & w2 & w3 & w4 & all_prs & new & all_reviews & all_issues
        & repo_data & stats & _ & _ & Hprs & Hreviews & Hissues & _ & Hstats & ->).
  rewrite (collected_stats_aware _ _ _ _ _ _ _ _ _ _ _ all_issues Hprs Hreviews)
    in Hstats.
  simpl. apply stats_repo_fields in Hstats as [Hlookup _].
  destruct (fetch_all_prs_facts env fuel _ _ _ _ _ _ _ _ _ Hprs) as [_ Htags].
  pose proof (fetch_all_issues_facts env fuel _ _ _ _ _ _ _ Hissues) as Hiss.
  assert (Hpr_key : ∀ k, k ∈ pr_repo_key <$> all_prs →
            k ∈ repos ∧ is_Some (repo_parts k)).
  { intros k (pr & -> & Hpr)%list_elem_of_fmap.
    destruct (Htags pr Hpr) as ((p & Hp & Hparts & Htag) & _).
    unfold pr_repo_key. rewrite Htag. done. }
  assert (Hissue_key : ∀ k, k ∈ issue_repo_key <$> all_issues →
            k ∈ repos ∧ is_Some (repo_parts k)).
  { intros k (i & -> & Hi)%list_elem_of_fmap.
    destruct (Hiss i Hi) as ((p & Hp & Hparts & Htag) & _).
    unfold issue_repo_key. rewrite Htag. done. }
  split.
  - intros k. rewrite Hlookup. destruct (decide _) as [Hin|Hout].
    + split; [intros _|by eauto].
      destruct Hin as [?|[?%Hpr_key|?%Hissue_key]]; tauto.
    + split; [by intros [? ?]|]. intros Hk. exfalso. apply Hout. by left.
  - intros k r. rewrite Hlookup. destruct (decide _) as [Hin|Hout]; [|done].
    intros [= <-]. unfold repo_stat_of. simpl. split; [|split].
    + apply length_filter_conj.
    + apply length_filter_conj.
    + intros Hnone.
      assert (Hno_pr : k ∉ pr_repo_key <$> all_prs).
      { intros [_ [? Hparts]]%Hpr_key. congruence. }
      assert (Hno_issue : k ∉ issue_repo_key <$> all_issues).
      { intros [_ [? Hparts]]%Hissue_key. congruence. }
      unfold zero_repo. f_equal; apply length_zero_iff_nil, filter_none.
      * intros x Hx Hk. apply Hno_pr, list_elem_of_fmap. eauto.
      * intros x Hx [Hk _]. apply Hno_pr, list_elem_of_fmap. eauto.
      * intros x Hx Hk. apply Hno_issue, list_elem_of_fmap. eauto.
      * intros x Hx [Hk _]. apply Hno_issue, list_elem_of_fmap. eauto.
Qed.

Lemma process_hackathon_tail_nothing (sl nm : string) (start_dt end_dt : pydatetime)
    (organization : option string) (token : string) (cache : cache_arg) (w : world) :
  organization = None ∨ organization = Some "" →
  ∃ r w1,
    process_hackathon_tail env fuel sl nm start_dt end_dt organization [] token cache w
      = (r, w1)
    ∧ (r = Val None ∨ ∃ e, r = Raise e)
    ∧ files w1 = files w ∧ requests_sent w1 = requests_sent w.
Proof.
  intros Horg. unfold process_hackathon_tail.
  unfold bind at 1. rewrite load_existing_data_world. unfold bind at 1.
  destruct (watermark_world (snapshot_on_disk w sl) w) as [[since|e0|] [Hw Hnd]];
    rewrite Hw; [| |done].
  - assert (Hresolve :
      resolve_repositories env fuel nm organization [] token cache w
      = (Val None, add_event (Log (WarnNoRepositories nm)) w)).
    { by destruct Horg as [->| ->]. }
    unfold bind at 1. rewrite Hresolve. eexists _, _. split; [reflexivity|].
    split; [by left|done].
  - eexists _, _. split; [reflexivity|]. split; [right; by eexists|done].
Qed.

(** For an event that names nothing [process_hackathon] returns None or
    raises, and has then sent and written nothing. *)
Lemma process_hackathon_names_nothing (h : Hackathon) (token : string)
    (cache : cache_arg) (w : world) :
  names_nothing h →
  ∃ r w1,
    process_hackathon env fuel h token cache w = (r, w1)
    ∧ (r = Val None ∨ ∃ e, r = Raise e)
    ∧ files w1 = files w ∧ requests_sent w1 = requests_sent w.
Proof.
  intros Hnone.
  destruct (process_hackathon_prefix h token cache w)
    as [[e He]|(sl & nm & start_dt & end_dt & organization & explicit_repos
                & _ & _ & _ & _ & Hgithub & ->)].
  - eexists _, _. split; [exact He|]. split; [right; by eexists|done].
  - assert (explicit_repos = [] ∧ (organization = None ∨ organization = Some ""))
      as [-> Horg].
    { unfold names_nothing in Hnone. unfold github_settings in Hgithub.
      destruct (github h) as [| |github_config];
        [injection Hgithub as <- <-; by auto|done|].
      destruct Hnone as [Horg Hexplicit].
      destruct (repositories github_config) as [| |explicit];
        [|done|]; injection Hgithub as <- <-; [by auto|].
      split; [by apply Hexplicit|done]. }
    by apply process_hackathon_tail_nothing.
Qed.

(** X20. An event that names no organization and no repository never gets a
    data file and costs no request, whatever else its configuration holds or
    lacks and whether it has ended or not: provided only that its end time
    parses to a time with an offset, so that the lifecycle test of line 577
    can compare it with the clock, its iteration of the loop of [main]
    returns normally. *)
Theorem event_without_repositories_writes_nothing (token : string) (h : Hackathon)
    (w w' : world) (r : result unit) :
  has_aware_end h →
  names_nothing h →
  main_body env fuel token h w = (r, w') →
  r = Val tt ∧ files w' = files w ∧ requests_sent w' = requests_sent w.
Proof.
  intros [end_dt Hend] Hnone. unfold main_body, is_hackathon_active. rewrite Hend. simpl.
  unfold bind, now, ret, lift, get_world. simpl.
  match goal with |- context [if ?c then _ else _] => destruct c end;
    [by intros [= <- <-]|].
  unfold try_except, log.
  destruct (process_hackathon_names_nothing h token SharedCache w Hnone)
    as (r1 & w1 & -> & [->|[e ->]] & Hfiles & Hsent); by intros [= <- <-].
Qed.

End Snapshots.

Section Frame.
Import Fetcher Pipeline.
Variable env : environment.
Variable fuel : nat.
Variable slugs : list string.

Lemma writes_nothing {A} (m : M A) :
  (∀ w r w', m w = (r, w') → files w' = files w ∧ stats_json w' = stats_json w) →
  writes_at_most slugs m.
Proof.
  intros Hm w r w' Hrun. destruct (Hm w r w' Hrun) as [-> ->]. done.
Qed.

Lemma writes_ret {A} (a : A) : writes_at_most slugs (ret a).
Proof. apply writes_nothing. by intros w r w' [= <- <-]. Qed.

Lemma writes_raise {A} (e : exn) : writes_at_most slugs (raise (A := A) e).
Proof. apply writes_nothing. by intros w r w' [= <- <-]. Qed.

Lemma writes_diverge {A} : writes_at_most slugs (diverge (A := A)).
Proof. apply writes_nothing. by intros w r w' [= <- <-]. Qed.

Lemma writes_lift {A} (x : result A) : writes_at_most slugs (lift x).
Proof. apply writes_nothing. by intros w r w' [= <- <-]. Qed.

Lemma writes_sleep (ms : Z) : writes_at_most slugs (sleep ms).
Proof. apply writes_nothing. by intros w r w' [= <- <-]. Qed.

Lemma writes_log (l : log_line) : writes_at_most slugs (log l).
Proof. apply writes_nothing. by intros w r w' [= <- <-]. Qed.

Lemma writes_now : writes_at_most slugs (now env).
Proof. apply writes_nothing. by intros w r w' [= <- <-]. Qed.

Lemma writes_get_world : writes_at_most slugs get_world.
Proof. apply writes_nothing. by intros w r w' [= <- <-]. Qed.

Lemma writes_cache_store (org : string) (repos : list string) :
  writes_at_most slugs (cache_store org repos).
Proof. apply writes_nothing. by intros w r w' [= <- <-]. Qed.

Lemma writes_cache_reset : writes_at_most slugs cache_reset.
Proof. apply writes_nothing. by intros w r w' [= <- <-]. Qed.

Lemma writes_write_file (slug : string) (s : Snapshot) :
  slug ∈ slugs → writes_at_most slugs (write_file slug s).
Proof.
  intros Hin w r w' [= <- <-]. split; [|done]. intros k Hk. simpl.
  apply lookup_insert_ne. by intros ->.
Qed.

Lemma writes_bind {A B} (m : M A) (f : A → M B) :
  writes_at_most slugs m → (∀ a, writes_at_most slugs (f a)) →
  writes_at_most slugs (bind m f).
Proof.
  intros Hm Hf w r w'. unfold bind.
  destruct (m w) as [[a|e|] w1] eqn:Hrun; destruct (Hm _ _ _ Hrun) as [Hfiles Hsum].
  - intros Hrun2. destruct (Hf a _ _ _ Hrun2) as [Hfiles2 Hsum2].
    split; [|congruence]. intros k Hk. by rewrite Hfiles2, Hfiles.
  - by intros [= <- <-].
  - by intros [= <- <-].
Qed.

Lemma writes_try_except {A} (m : M A) (handler : exn → M A) :
  writes_at_most slugs m → (∀ e, writes_at_most slugs (handler e)) →
  writes_at_most slugs (try_except m handler).
Proof.
  intros Hm Hh w r w'. unfold try_except.
  destruct (m w) as [[a|e|] w1] eqn:Hrun; destruct (Hm _ _ _ Hrun) as [Hfiles Hsum].
  - by intros [= <- <-].
  - intros Hrun2. destruct (Hh e _ _ _ Hrun2) as [Hfiles2 Hsum2].
    split; [|congruence]. intros k Hk. by rewrite Hfiles2, Hfiles.
  - by intros [= <- <-].
Qed.

Lemma writes_for_each {A S} (l : list A) (body : S → A → M S) (s : S) :
  (∀ s x, x ∈ l → writes_at_most slugs (body s x)) →
  writes_at_most slugs (for_each l body s).
Proof.
  revert s. induction l as [|x l IH]; intros s Hbody; simpl.
  - apply writes_ret.
  - apply writes_bind; [apply Hbody; left|].
    intros s'. apply IH. intros s0 y Hy. apply Hbody. by right.
Qed.

Ltac writes_step :=
  match goal with
  | |- writes_at_most _ (ret _) => apply writes_ret
  | |- writes_at_most _ (raise _) => apply writes_raise
  | |- writes_at_most _ diverge => apply writes_diverge
  | |- writes_at_most _ (lift _) => apply writes_lift
  | |- writes_at_most _ (sleep _) => apply writes_sleep
  | |- writes_at_most _ (log _) => apply writes_log
  | |- writes_at_most _ (now _) => apply writes_now
  | |- writes_at_most _ get_world => apply writes_get_world
  | |- writes_at_most _ (cache_store _ _) => apply writes_cache_store
  | |- writes_at_most _ (bind _ _) => apply writes_bind; [|intros ?]
  | |- writes_at_most _ (try_except _ _) => apply writes_try_except; [|intros ?]
  | |- writes_at_most _ (for_each _ _ _) => apply writes_for_each; intros ? ? _
  | |- writes_at_most _ (match ?x with _ => _ end) => destruct x
  | |- writes_at_most _ ((match ?x with _ => _ end) _) => destruct x
  end.

Lemma writes_make_request (u : api_url) (token : string) (retry_count : nat) :
  writes_at_most slugs (make_request env u token retry_count).
Proof.
  apply writes_nothing. intros w r w' Hrun.
  by apply make_request_loop_frame in Hrun as (_ & ? & ? & _).
Qed.

Lemma writes_fetch_all_pages (base_url : listing) (token : string) :
  writes_at_most slugs (fetch_all_pages env fuel base_url token).
Proof.
  unfold fetch_all_pages.
  assert (Hloop : ∀ n page all_items,
            writes_at_most slugs (fetch_pages_loop env n base_url token page all_items));
    [|apply Hloop].
  induction n as [|n IH]; intros page all_items; simpl.
  - apply writes_diverge.
  - apply writes_bind; [apply (writes_make_request (PageUrl base_url page))|].
    intros [[|x items]|]; repeat writes_step. apply IH.
Qed.

Lemma writes_process_hackathon (h : Hackathon) (token : string) (cache : cache_arg) :
  writes_at_most slugs (process_hackathon env fuel h token cache).
Proof.
  unfold process_hackathon, subscript, subscript_field, github_settings, fromisoformat,
    load_existing_data, watermark,
    resolve_repositories, fetch_all_prs, fetch_all_reviews, fetch_all_issues,
    fetch_all_metadata, fetch_org_repos, fetch_pull_requests, fetch_reviews_for_pr,
    fetch_issues, fetch_repo_metadata.
  repeat writes_step;
    match goal with
    | |- writes_at_most _ (fetch_all_pages _ _ ?l _) => apply (writes_fetch_all_pages l)
    | |- writes_at_most _ (make_request _ ?u _ _) => apply (writes_make_request u)
    end.
Qed.

Lemma writes_main_body (token : string) (h : Hackathon) :
  file_slug h ∈ slugs → writes_at_most slugs (main_body env fuel token h).
Proof.
  intros Hin. unfold main_body, is_hackathon_active, fromisoformat.
  repeat writes_step;
    first [apply writes_process_hackathon | by apply writes_write_file].
Qed.

End Frame.

Section Files.
Import Fetcher Pipeline.
Variable env : environment.
Variable fuel : nat.

(** X21. A run writes no data file but those of the events of its
    configuration, each under the slug of its event ("unknown" for an event
    without slug): every other file of the directory is after the run what it
    was before, however the run ends.  The summary is written by a run that
    completes and by no other. *)
Theorem main_writes_only_configured_files (config : option (list Hackathon))
    (token : string) (w w' : world) (r : result exit_status) :
  main env fuel config token w = (r, w') →
  (∀ k, k ∉ file_slug <$> default [] config → files w' !! k = files w !! k)
  ∧ (r ≠ Val Completed → stats_json w' = stats_json w).
Proof.
  destruct config as [[|h hs]|]; try by intros [= <- <-].
  simpl default.
  assert (Hloop : writes_at_most (file_slug <$> h :: hs)
                    (main_loop env fuel token (h :: hs))).
  { unfold main_loop. apply writes_for_each. intros [] x Hx.
    apply writes_main_body. by apply list_elem_of_fmap_2. }
  unfold main. unfold bind at 1, cache_reset at 1. unfold bind at 1.
  match goal with |- context [main_loop env fuel token (h :: hs) ?w0] =>
    destruct (main_loop env fuel token (h :: hs) w0) as [[[]|e|] w1] eqn:Hrun
  end; destruct (Hloop _ _ _ Hrun) as [Hfiles Hsummary]; simpl in Hfiles, Hsummary.
  - unfold bind, lift, now, write_summary, ret.
    destruct (summary_repositories (h :: hs)); intros [= <- <-]; simpl; by split.
  - intros [= <- <-]. by split.
  - intros [= <- <-]. by split.
Qed.

(** X24. With an end time that parses to a time with an offset on every
    event, no failure of an event stops the run: whatever the service
    answers and whatever else an event lacks, the loop over the events
    raises nothing.  The run then ends in one of three ways.  It is still
    paging when the fuel ends.  Or the loop that counts the repositories of
    the summary (lines 602-605) raises, which it does only on an event whose
    "github" key cannot be read, one that holds null there or under
    "repositories".  Or it has completed, and the summary it has written is
    drawn from the configuration alone, stamped with the clock: it lists
    every event in the order of the configuration, those that failed or were
    passed over included, under the name and times of the first. *)
Theorem main_survives_event_failures (token : string) (hackathons : list Hackathon)
    (w w' : world) (r : result exit_status) :
  hackathons ≠ [] →
  Forall has_aware_end hackathons →
  main env fuel (Some hackathons) token w = (r, w') →
  r = Diverge
  ∨ (∃ e, r = Raise e ∧ summary_repositories hackathons = Raise e
          ∧ ¬ Forall github_readable hackathons)
  ∨ r = Val Completed
    ∧ ∃ all_repos summary,
        summary_repositories hackathons = Val all_repos
        ∧ stats_json w' = Some summary
        ∧ summary = summary_of (clock env (events w')) hackathons all_repos
        ∧ sm_lastUpdated summary = clock env (events w')
        ∧ se_slug <$> sm_hackathons summary = (λ h, default "" (slug h)) <$> hackathons
        ∧ sm_hackathonName summary = default "" (head hackathons ≫= name).
Proof.
  intros Hne Hall. destruct hackathons as [|h hs]; [done|].
  unfold main. unfold bind at 1, cache_reset at 1. unfold bind at 1.
  match goal with |- context [main_loop env fuel token (h :: hs) ?w0] =>
    destruct (main_loop env fuel token (h :: hs) w0) as [[[]|e|] w1] eqn:Hrun
  end.
  - unfold bind, lift, now, write_summary, ret.
    destruct (summary_repositories (h :: hs)) as [all_repos|e|] eqn:Hsum.
    + intros [= <- <-]. right. right. split; [done|].
      eexists all_repos, _. split; [done|]. split; [done|]. simpl.
      split; [done|]. split; [done|]. split; [|done].
      f_equal. by rewrite <- list_fmap_compose.
    + intros [= <- <-]. right. left. exists e. split; [done|]. split; [done|].
      intros [all_repos Hval]%summary_repositories_readable. congruence.
    + by apply summary_repositories_returns in Hsum.
  - by apply main_loop_never_raises in Hrun.
  - intros [= <- <-]. by left.
Qed.

End Files.

(** ** The further properties on concrete inputs *)

Section ExtraExamples.
Import Aggregator Fetcher Pipeline.

(** X1 on records of a resolved repository, of one that was not resolved and
    of none: the map has the two resolved repositories, acme/gadgets and
    "unknown". *)
Lemma repo_stats_defensive_union_witness :
  returns_daily window_start window_end
  ∧ ∃ st,
      process_hackathon_stats scattered_prs [] scenario_issues
        (Aware window_start) (Aware window_end) ["acme/widgets"; "acme/idle"] = Val st
      ∧ is_Some (repoStats st !! "acme/idle")
      ∧ is_Some (repoStats st !! "acme/gadgets")
      ∧ is_Some (repoStats st !! "unknown")
      ∧ size (repoStats st) = 4%nat.
Proof.
  assert (Hreturns : returns_daily window_start window_end)
    by (right; vm_compute; reflexivity).
  split; [exact Hreturns|].
  destruct (repo_stats_defensive_union scattered_prs [] scenario_issues
              window_start window_end ["acme/widgets"; "acme/idle"] Hreturns)
    as (st & Hst & Hkeys).
  exists st. split; [exact Hst|]. split; [|split; [|split]].
  - apply Hkeys. left. apply list_elem_of_further, list_elem_of_here.
  - apply Hkeys. right. left. eexists. split.
    + apply list_elem_of_further, list_elem_of_here.
    + reflexivity.
  - apply Hkeys. right. left. eexists. split.
    + apply list_elem_of_further, list_elem_of_further, list_elem_of_here.
    + reflexivity.
  - vm_compute in Hst. injection Hst as <-. vm_compute. reflexivity.
Defined.

(** X2 on the same records: the counters of acme/widgets. *)
Lemma repo_stats_count_records_witness :
  returns_daily window_start window_end
  ∧ ∃ st,
      process_hackathon_stats scattered_prs [] scenario_issues
        (Aware window_start) (Aware window_end) ["acme/widgets"; "acme/idle"] = Val st
      ∧ repoStats st !! "acme/widgets"
        = Some {| repo_total := 1; repo_merged := 1;
                  repo_issues := 1; repo_closedIssues := 1 |}
      ∧ (totalIssues st, closedIssues st) = (1, 1)%nat.
Proof.
  assert (Hreturns : returns_daily window_start window_end)
    by (right; vm_compute; reflexivity).
  split; [exact Hreturns|].
  destruct (repo_stats_count_records scattered_prs [] scenario_issues
              window_start window_end ["acme/widgets"; "acme/idle"] Hreturns)
    as (st & Hst & Hcount & Htotal & Hclosed).
  exists st. split; [exact Hst|]. split.
  - destruct (repoStats st !! "acme/widgets") as [r|] eqn:Hr.
    + rewrite (Hcount _ r Hr). vm_compute. reflexivity.
    + vm_compute in Hst. injection Hst as <-. vm_compute in Hr. discriminate Hr.
  - rewrite Htotal, Hclosed. reflexivity.
Defined.

(** X3 on the same records: Jan 2 saw two pull requests created and none
    merged. *)
Lemma daily_activity_counts_witness :
  returns_daily window_start window_end
  ∧ ∃ st,
      process_hackathon_stats scattered_prs [] scenario_issues
        (Aware window_start) (Aware window_end) ["acme/widgets"; "acme/idle"] = Val st
      ∧ dailyActivity st !! (jan_1_2024 + 1)
        = Some {| day_total := 2; day_merged := 0 |}
      ∧ dailyActivity st !! (jan_1_2024 + 7) = None.
Proof.
  assert (Hreturns : returns_daily window_start window_end)
    by (right; vm_compute; reflexivity).
  split; [exact Hreturns|].
  destruct (daily_activity_counts scattered_prs [] scenario_issues
              window_start window_end ["acme/widgets"; "acme/idle"] Hreturns)
    as (st & Hst & Hdaily).
  exists st. split; [exact Hst|]. rewrite !Hdaily. split; vm_compute; reflexivity.
Defined.

(** X4 on the same records: a merge on Jan 8, after the window, is in the map
    of merged pull requests and in no bucket. *)
Lemma daily_merged_prs_counts_witness :
  returns_daily window_start window_end
  ∧ ∃ st,
      process_hackathon_stats scattered_prs [] scenario_issues
        (Aware window_start) (Aware window_end) ["acme/widgets"; "acme/idle"] = Val st
      ∧ dailyMergedPRs st !! (jan_1_2024 + 7) = Some 1%nat
      ∧ dailyMergedPRs st !! (jan_1_2024 + 1) = None.
Proof.
  assert (Hreturns : returns_daily window_start window_end)
    by (right; vm_compute; reflexivity).
  split; [exact Hreturns|].
  destruct (daily_merged_prs_counts scattered_prs [] scenario_issues
              window_start window_end ["acme/widgets"; "acme/idle"] Hreturns)
    as (st & Hst & Hmerged & _).
  exists st. split; [exact Hst|]. rewrite !Hmerged. split; vm_compute; reflexivity.
Defined.

(** X5 on the mixed records. *)
Lemma leaderboard_entries_distinct_witness :
  returns_daily window_start window_end
  ∧ ∃ st,
      process_hackathon_stats mixed_prs mixed_reviews [] (Aware window_start) (Aware window_end) []
        = Val st
      ∧ NoDup (username <$> leaderboard st)
      ∧ (length (leaderboard st) ≤ participantCount st)%nat
      ∧ participantCount st = 4%nat.
Proof.
  assert (Hreturns : returns_daily window_start window_end)
    by (right; vm_compute; reflexivity).
  split; [exact Hreturns|].
  destruct (leaderboard_entries_distinct mixed_prs mixed_reviews [] window_start
              window_end [] Hreturns) as (st & Hst & Hnd & _ & Hlen & _).
  exists st. split; [exact Hst|]. split; [exact Hnd|]. split; [exact Hlen|].
  vm_compute in Hst. injection Hst as <-. reflexivity.
Defined.

(** X6 on the mixed records: three credited merges out of five, two counted
    reviews. *)
Lemma leaderboard_counts_add_up_witness :
  returns_daily window_start window_end
  ∧ ∃ st,
      process_hackathon_stats mixed_prs mixed_reviews [] (Aware window_start) (Aware window_end) []
        = Val st
      ∧ sum_list_with mergedCount (leaderboard st) = 3%nat
      ∧ mergedPRs st = 5%nat
      ∧ sum_list_with reviewCount (reviewLeaderboard st) = 2%nat.
Proof.
  assert (Hreturns : returns_daily window_start window_end)
    by (right; vm_compute; reflexivity).
  split; [exact Hreturns|].
  destruct (leaderboard_counts_add_up mixed_prs mixed_reviews [] window_start
              window_end [] Hreturns) as (st & Hst & Hm & _ & Hr).
  exists st. split; [exact Hst|]. rewrite Hm, Hr.
  split; [vm_compute; reflexivity|]. split; [|vm_compute; reflexivity].
  vm_compute in Hst. injection Hst as <-. reflexivity.
Defined.

(** X7 on an upstream that answers 500 to everything, with a token. *)
Lemma make_request_only_requests_its_url_witness :
  let run := make_request failing_upstream (RepoUrl "acme" "widgets") "s3cret" 3
               empty_world in
  (∃ new, events run.2 = new ++ []
          ∧ ∀ ev, ev ∈ new →
              ev = Request (RepoUrl "acme" "widgets") (Some "Bearer s3cret")
              ∨ ∃ ms, ev = Sleep ms)
  ∧ requests_sent run.2 = 3%nat
  ∧ files run.2 = ∅.
Proof.
  intros run.
  destruct (make_request_only_requests_its_url failing_upstream
              (RepoUrl "acme" "widgets") "s3cret" 3 empty_world run.2 run.1)
    as (Hevents & Hfiles & _).
  - vm_compute. reflexivity.
  - split; [exact Hevents|]. split; [vm_compute; reflexivity|exact Hfiles].
Defined.

(** X8 on an upstream that refuses three times, without hint, with a
    reset an hour ahead and with a reset in the past, while the clock runs:
    three requests, and sleeps of 60 s, 300 s and 10 s. *)
Lemma make_request_rate_limited_witness :
  make_request throttling_upstream (RepoUrl "acme" "widgets") "" 3 empty_world
  = (Val None,
     {| events := [ Sleep 10000; Request (RepoUrl "acme" "widgets") None;
                    Sleep 300000; Request (RepoUrl "acme" "widgets") None;
                    Sleep 60000; Request (RepoUrl "acme" "widgets") None ];
        files := ∅; stats_json := None; org_repos_cache := ∅ |}).
Proof.
  destruct (make_request_rate_limited throttling_upstream (RepoUrl "acme" "widgets") ""
              empty_world 429 403 429
              None (Some (unix_seconds noon_jan_2 + 3600))
              (Some (unix_seconds noon_jan_2 - 100))) as [Hrun _].
  - reflexivity.
  - left. reflexivity.
  - vm_compute. reflexivity.
  - right. reflexivity.
  - vm_compute. reflexivity.
  - left. reflexivity.
  - rewrite Hrun. vm_compute. reflexivity.
Defined.

(** X9 on a listing of 101 repositories: two requests, 101 items. *)
Lemma fetch_all_pages_concatenates_witness :
  ∃ w', fetch_all_pages (fixed_env full_then_short noon_jan_2) 2 (OrgReposL "acme") ""
          empty_world
        = (Val (hundred_repos ++ [acme_widgets]), w')
        ∧ requests_sent w' = 2%nat.
Proof.
  destruct (fetch_all_pages_concatenates full_then_short noon_jan_2 (OrgReposL "acme") ""
              (λ _, hundred_repos) 1 [acme_widgets] 2 empty_world)
    as (w' & Hrun & Hreq).
  - intros p Hp. assert (p = 1%nat) as -> by lia.
    split; [reflexivity|]. unfold full_page, hundred_repos. rewrite length_replicate.
    reflexivity.
  - reflexivity.
  - simpl. unfold per_page. lia.
  - lia.
  - exists w'. split; [|exact Hreq].
    rewrite Hrun. reflexivity.
Defined.

(** X10 on a listing without end, three pages allowed. *)
Lemma fetch_all_pages_endless_witness :
  ∃ w', fetch_all_pages (fixed_env always_full noon_jan_2) 3 (OrgReposL "acme") ""
          empty_world = (Diverge, w')
        ∧ requests_sent w' = 3%nat.
Proof.
  destruct (fetch_all_pages_endless always_full noon_jan_2 (OrgReposL "acme") ""
              (λ _, hundred_repos) 3 empty_world) as (w' & Hrun & Hreq).
  - intros p Hp. split; [reflexivity|].
    unfold full_page, hundred_repos. rewrite length_replicate. reflexivity.
  - exists w'. split; [exact Hrun|exact Hreq].
Defined.

(** X11 on a listing whose second page answers 500: the first page is
    returned as the whole listing. *)
Lemma fetch_all_pages_truncates_witness :
  is_error (full_then_error (PageUrl (OrgReposL "acme") 2))
  ∧ ∃ w', fetch_all_pages (fixed_env full_then_error noon_jan_2) 2 (OrgReposL "acme") ""
            empty_world = (Val hundred_repos, w').
Proof.
  assert (Herr : is_error (full_then_error (PageUrl (OrgReposL "acme") 2)))
    by (simpl; exact I).
  split; [exact Herr|].
  destruct (fetch_all_pages_truncates full_then_error noon_jan_2 (OrgReposL "acme") ""
              (λ _, hundred_repos) 1 2 empty_world) as [Htruncated _].
  - intros p Hp. assert (p = 1%nat) as -> by lia.
    split; [reflexivity|]. unfold full_page, hundred_repos. rewrite length_replicate.
    reflexivity.
  - lia.
  - destruct (Htruncated Herr) as (w' & Hrun). exists w'.
    rewrite Hrun. reflexivity.
Defined.

(** X12 on a listing of a pull request, an issue of the window and an issue
    after it: the second is returned, the first and the third are not. *)
Lemma fetch_issues_drops_pull_requests_witness :
  ∃ kept,
    (fetch_issues issues_upstream 1 "acme" "widgets" (Aware window_start) (Aware window_end) ""
       empty_world).1
    = Val (set_issue_repository "acme/widgets" <$> kept)
    ∧ issue_of false (utc jan_1_2024 10 0 0) None ∈ kept
    ∧ ¬ (issue_of true (utc jan_1_2024 9 0 0) None ∈ kept)
    ∧ (length kept ≤ 3)%nat.
Proof.
  destruct (fetch_issues_drops_pull_requests issues_upstream 1 "acme" "widgets"
              window_start window_end "" empty_world
              (fetch_all_pages issues_upstream 1 (IssuesL "acme" "widgets") ""
                 empty_world).2
              listed_issues)
    as (kept & Hrun & Hsub & Hkept).
  - vm_compute. reflexivity.
  - exists kept. rewrite Hrun. split; [reflexivity|]. split; [|split].
    + apply Hkept. split; [apply list_elem_of_further, list_elem_of_here|].
      split; [reflexivity|]. left. vm_compute. split; discriminate.
    + intros (_ & Hmarker & _)%Hkept. discriminate Hmarker.
    + apply sublist_length in Hsub. exact Hsub.
Defined.

(** X13 on the scenario, in full mode. *)
Lemma fetch_pull_requests_tags_sublist_witness :
  ∃ kept,
    (fetch_pull_requests scenario_upstream 1 "acme" "widgets" (Aware window_start) (Aware window_end) ""
       None empty_world).1
    = Val (set_pr_repository "acme/widgets" <$> kept)
    ∧ kept `sublist_of` scenario_prs
    ∧ kept = filter (λ pr, pr_relevant window_start window_end pr) scenario_prs.
Proof.
  destruct (fetch_pull_requests_tags_sublist scenario_upstream 1 "acme" "widgets"
              window_start window_end "" None empty_world
              (fetch_all_pages scenario_upstream 1
                 (PullsL "acme" "widgets" SortCreated) "" empty_world).2
              scenario_prs)
    as (kept & Hrun & Hsub & _ & Hfull).
  - vm_compute. reflexivity.
  - exists kept. rewrite Hrun. split; [reflexivity|]. split; [exact Hsub|].
    apply Hfull. reflexivity.
Defined.

(** X14 on acme/widgets, and on paths that are refused. *)
Lemma repo_parts_round_trip_witness :
  repo_parts "acme/widgets" = Some ("acme", "widgets")
  ∧ repo_parts ("acme" +:+ "/" +:+ "widgets") = Some ("acme", "widgets")
  ∧ repo_parts "acme/widgets/docs" ≠ Some ("acme", "widgets/docs")
  ∧ repo_parts "widgets" = None.
Proof.
  destruct (repo_parts_round_trip "acme/widgets" "acme" "widgets") as [Hiff Hagain].
  destruct (repo_parts_round_trip "acme/widgets/docs" "acme" "widgets/docs")
    as [Hdocs _].
  assert (Hparts : repo_parts "acme/widgets" = Some ("acme", "widgets")).
  { apply Hiff. split; [reflexivity|]. split; reflexivity. }
  split; [exact Hparts|]. split; [exact (Hagain Hparts)|]. split; [|reflexivity].
  intros (_ & _ & Hslash)%Hdocs. discriminate Hslash.
Defined.

(** X15 on an upstream whose every answer makes [make_request] raise, for an
    event that has a snapshot on disk and names an organization, and for an
    event whose "github" key holds null. *)
Lemma process_hackathon_isolates_fetch_failures_witness :
  returns_daily window_start window_end
  ∧ (make_request garbled_upstream (RepoUrl "acme" "widgets") "" 3
       world_with_snapshot).1 = Raise ValueError
  ∧ (∀ e' w',
       process_hackathon garbled_upstream 1 widgets_of_acme "" SharedCache
         world_with_snapshot ≠ (Raise e', w'))
  ∧ process_hackathon garbled_upstream 1 event_with_null_github "" SharedCache
      world_with_snapshot = (Raise AttributeError, world_with_snapshot).
Proof.
  assert (Hreturns : returns_daily window_start window_end)
    by (right; vm_compute; reflexivity).
  split; [exact Hreturns|]. split; [vm_compute; reflexivity|]. split.
  - apply (process_hackathon_isolates_fetch_failures garbled_upstream 1
             widgets_of_acme "" SharedCache world_with_snapshot
             "widgets" "widgets" window_start window_end).
    + reflexivity.
    + reflexivity.
    + reflexivity.
    + reflexivity.
    + exact Hreturns.
    + intros snap last_updated Hfile Hstamp.
      vm_compute in Hfile. injection Hfile as <-.
      vm_compute in Hstamp. injection Hstamp as <-.
      vm_compute. split; discriminate.
    + simpl. discriminate.
  - destruct (process_hackathon_isolates_fetch_failures garbled_upstream 1
                event_with_null_github "" SharedCache world_with_snapshot
                "nulled" "nulled" window_start window_end) as [_ Hnull].
    + reflexivity.
    + reflexivity.
    + reflexivity.
    + reflexivity.
    + exact Hreturns.
    + intros snap last_updated Hfile. vm_compute in Hfile. discriminate.
    + destruct Hnull as (e' & Hrun & _); [simpl; tauto|].
      rewrite Hrun. f_equal. f_equal. vm_compute in Hrun. congruence.
Defined.

(** X16 on the scenario a week after its end, the data file on disk. *)
Lemma ended_events_cost_nothing_witness :
  Forall (frozen a_week_later world_with_snapshot) [widgets_event]
  ∧ ∃ w' t all_repos,
      main a_week_later 1 (Some [widgets_event]) "" world_with_snapshot
        = (Val Completed, w')
      ∧ requests_sent w' = 0%nat
      ∧ files w' = files world_with_snapshot
      ∧ stats_json w' = Some (summary_of t [widgets_event] all_repos).
Proof.
  assert (Hfrozen : Forall (frozen a_week_later world_with_snapshot) [widgets_event]).
  { apply List.Forall_cons; [|apply List.Forall_nil].
    exists window_end. split; [reflexivity|]. split; [vm_compute; reflexivity|].
    eexists. vm_compute. reflexivity. }
  split; [exact Hfrozen|].
  destruct (ended_events_cost_nothing a_week_later 1 "" [widgets_event]
              world_with_snapshot) as [_ Hreadable].
  - discriminate.
  - exact Hfrozen.
  - destruct Hreadable as (w' & t & all_repos & Hrun & Hreq & Hfiles & Hsummary).
    + apply List.Forall_cons; [|apply List.Forall_nil]. simpl. discriminate.
    + exists w', t, all_repos. split; [exact Hrun|]. split; [|split; assumption].
      rewrite Hreq. reflexivity.
Defined.

(** X17 on an organization listing that cannot be decoded, an explicit list
    that names acme/widgets twice. *)
Lemma org_listing_failure_falls_back_witness :
  (fetch_org_repos garbled_upstream 1 "acme" "" empty_world).1 = Raise ValueError
  ∧ (resolve_repositories garbled_upstream 1 "Widgets" (Some "acme")
       ["acme/widgets"; "acme/widgets"] "" SharedCache empty_world).1
    = Val (Some ["acme/widgets"; "acme/widgets"])
  ∧ org_repos_cache
      (resolve_repositories garbled_upstream 1 "Widgets" (Some "acme")
         ["acme/widgets"; "acme/widgets"] "" SharedCache empty_world).2 = ∅.
Proof.
  split; [vm_compute; reflexivity|].
  destruct (org_listing_failure_falls_back garbled_upstream 1 "Widgets" "acme" ""
              ["acme/widgets"; "acme/widgets"] SharedCache empty_world
              (fetch_org_repos garbled_upstream 1 "acme" "" empty_world).2 ValueError)
    as [Hcache Hrun].
  - discriminate.
  - reflexivity.
  - vm_compute. reflexivity.
  - rewrite Hrun. split; [reflexivity|]. vm_compute. reflexivity.
Defined.

(** X18 on an incremental run at midday Jan 2, the snapshot of that midday
    on disk: of the three pull requests of the listing the one updated since
    is collected and counted, and no other. *)
Lemma process_hackathon_collects_witness :
  ∃ snap w' all_prs,
    process_hackathon incremental_upstream 1 widgets_event "" SharedCache
      world_with_snapshot = (Val (Some snap), w')
    ∧ totalPRs (snap_stats snap) = length all_prs
    ∧ length all_prs = 1%nat
    ∧ ∀ pr, pr ∈ all_prs →
        pr_repository pr = Some "acme/widgets"
        ∧ in_closed_window window_start window_end pr
        ∧ noon_jan_2 - timedelta_minutes 5 ≤ pr_updated_at pr.
Proof.
  destruct (process_hackathon incremental_upstream 1 widgets_event "" SharedCache
              world_with_snapshot) as [[[snap|]|e|] w'] eqn:Hrun;
    [|vm_compute in Hrun; discriminate Hrun..].
  destruct (process_hackathon_collects incremental_upstream 1 widgets_event ""
              SharedCache world_with_snapshot w' snap Hrun)
    as (since & all_prs & new & all_reviews & all_issues & repo_data & stats
        & w1 & w2 & w3 & _ & _ & _ & _ & _ & Htotal & Hfacts).
  exists snap, w', all_prs. split; [reflexivity|].
  vm_compute in Hrun. injection Hrun as <- _.
  split; [exact Htotal|]. split; [by rewrite <- Htotal|].
  intros pr Hpr.
  destruct (Hfacts pr Hpr)
    as ((repo_path & Hrepo & _ & Htag) & (s & e & Hs & He & Hwindow) & Hfresh).
  simpl in Hrepo, Hs, He. apply list_elem_of_singleton in Hrepo as ->.
  injection Hs as <-. injection He as <-.
  split; [exact Htag|]. split; [exact Hwindow|].
  apply (Hfresh (snapshot_at noon_jan_2) noon_jan_2); reflexivity.
Defined.

(** X19 on the scenario at midday Jan 2. *)
Lemma process_hackathon_snapshot_witness :
  ∃ snap w',
    process_hackathon scenario_upstream 1 widgets_event "" SharedCache empty_world
      = (Val (Some snap), w')
    ∧ (snap_slug snap, snap_repositories snap) = ("widgets", ["acme/widgets"])
    ∧ lastUpdated snap = Some noon_jan_2
    ∧ (load_existing_data "widgets" (write_file "widgets" snap w').2).1 = Val (Some snap)
    ∧ (watermark (Some snap) (write_file "widgets" snap w').2).1
      = Val (Some (noon_jan_2 - timedelta_minutes 5)).
Proof.
  destruct (process_hackathon scenario_upstream 1 widgets_event "" SharedCache
              empty_world) as [[[snap|]|e|] w'] eqn:Hrun;
    [|vm_compute in Hrun; discriminate Hrun..].
  destruct (process_hackathon_snapshot scenario_upstream 1 widgets_event ""
              SharedCache empty_world w' snap Hrun)
    as (Hslug & _ & _ & _ & _ & Hrepos & _ & Hstamp & Hload & Hwatermark).
  injection Hslug as Hslug.
  exists snap, w'. split; [reflexivity|]. split; [|split; [exact Hstamp|split]].
  - rewrite <- Hslug. f_equal.
    vm_compute in Hrun. injection Hrun as <- _. reflexivity.
  - rewrite Hslug, Hload. reflexivity.
  - rewrite Hslug, Hwatermark; [reflexivity|]. vm_compute. split; discriminate.
Defined.

(** X20 on an event that names nothing, and on one whose "github" key holds
    null. *)
Lemma event_without_repositories_writes_nothing_witness :
  main_body scenario_upstream 1 "" bare_event empty_world
  = (Val tt, add_event (Log (WarnNoRepositories "bare")) empty_world)
  ∧ (main_body scenario_upstream 1 "" event_with_null_github empty_world).1 = Val tt
  ∧ files (main_body scenario_upstream 1 "" event_with_null_github empty_world).2 = ∅
  ∧ requests_sent (main_body scenario_upstream 1 "" event_with_null_github empty_world).2
    = 0%nat.
Proof.
  split.
  - destruct (event_without_repositories_writes_nothing scenario_upstream 1 "" bare_event
                empty_world
                (main_body scenario_upstream 1 "" bare_event empty_world).2
                (main_body scenario_upstream 1 "" bare_event empty_world).1)
      as (Hr & Hfiles & Hreq).
    + eexists. reflexivity.
    + split; [left; reflexivity|]. intros explicit_repos [= <-]. reflexivity.
    + reflexivity.
    + vm_compute. reflexivity.
  - destruct (event_without_repositories_writes_nothing scenario_upstream 1 ""
                event_with_null_github empty_world
                (main_body scenario_upstream 1 "" event_with_null_github empty_world).2
                (main_body scenario_upstream 1 "" event_with_null_github empty_world).1)
      as (Hr & Hfiles & Hreq).
    + eexists. reflexivity.
    + exact I.
    + reflexivity.
    + split; [exact Hr|]. split; [exact Hfiles|exact Hreq].
Defined.

(** X21 on the scenario, run beside the data file of another project. *)
Lemma main_writes_only_configured_files_witness :
  let run := main scenario_upstream 1 (Some [widgets_event]) "" world_with_other_file in
  run.1 = Val Completed
  ∧ files run.2 !! "gadgets" = Some Unreadable
  ∧ files run.2 !! "widgets" ≠ files world_with_other_file !! "widgets".
Proof.
  intros run.
  destruct (main_writes_only_configured_files scenario_upstream 1 (Some [widgets_event])
              "" world_with_other_file run.2 run.1) as [Hfiles _].
  - vm_compute. reflexivity.
  - split; [vm_compute; reflexivity|]. split.
    + rewrite Hfiles; [vm_compute; reflexivity|].
      intros [Heq|Hin%elem_of_nil]%elem_of_cons; [discriminate Heq|exact Hin].
    + vm_compute. discriminate.
Defined.


(** X23 on an event that lists acme/widgets and a path without slash. *)
Lemma snapshot_repo_stats_keys_witness :
  ∃ snap w',
    process_hackathon scenario_upstream 1 event_with_bad_path "" SharedCache empty_world
      = (Val (Some snap), w')
    ∧ is_Some (repoStats (snap_stats snap) !! "acme/widgets")
    ∧ repoStats (snap_stats snap) !! "widgets" = Some zero_repo
    ∧ ¬ is_Some (repoStats (snap_stats snap) !! "unknown").
Proof.
  destruct (process_hackathon scenario_upstream 1 event_with_bad_path "" SharedCache
              empty_world) as [[[snap|]|e|] w'] eqn:Hrun;
    [|vm_compute in Hrun; discriminate Hrun..].
  destruct (snapshot_repo_stats_keys scenario_upstream 1 event_with_bad_path ""
              SharedCache empty_world w' snap Hrun) as [Hkeys Hentries].
  assert (Hrepos : snap_repositories snap = ["acme/widgets"; "widgets"]).
  { vm_compute in Hrun. injection Hrun as <- _. reflexivity. }
  exists snap, w'. split; [reflexivity|]. split; [|split].
  - apply Hkeys. rewrite Hrepos. apply list_elem_of_here.
  - destruct (proj2 (Hkeys "widgets")) as [r Hr].
    { rewrite Hrepos. apply list_elem_of_further, list_elem_of_here. }
    rewrite Hr. f_equal. apply (Hentries "widgets" r Hr). reflexivity.
  - intros Hin%Hkeys. rewrite Hrepos in Hin.
    apply elem_of_cons in Hin as [Heq|Hin]; [discriminate Heq|].
    apply elem_of_cons in Hin as [Heq|Hin]; [discriminate Heq|].
    by apply elem_of_nil in Hin.
Defined.

(** X24 on a configuration whose first event lacks its start time, against
    an upstream that cannot be decoded. *)
Lemma main_survives_event_failures_witness :
  let run := main garbled_upstream 1 (Some missing_start_time) "" empty_world in
  Forall has_aware_end missing_start_time
  ∧ run.1 = Val Completed
  ∧ ∃ summary, stats_json run.2 = Some summary
               ∧ sm_lastUpdated summary = noon_jan_2
               ∧ sm_repositories summary = 2%nat
               ∧ se_slug <$> sm_hackathons summary = ["broken"; "widgets"].
Proof.
  intros run.
  assert (Hends : Forall has_aware_end missing_start_time).
  { repeat (apply List.Forall_cons; [eexists; reflexivity|]). apply List.Forall_nil. }
  split; [exact Hends|].
  destruct (main_survives_event_failures garbled_upstream 1 "" missing_start_time
              empty_world run.2 run.1) as [Hdiverge|[Hraise|[Hdone Hsummary]]].
  - discriminate.
  - exact Hends.
  - vm_compute. reflexivity.
  - vm_compute in Hdiverge. discriminate Hdiverge.
  - destruct Hraise as (e & Hraise & _). vm_compute in Hraise. discriminate Hraise.
  - split; [exact Hdone|].
    destruct Hsummary as (all_repos & summary & Hrepos & Hwritten & Hsum & Hstamp
                          & Hslugs & _).
    exists summary. split; [exact Hwritten|]. split; [rewrite Hstamp; reflexivity|].
    split; [|rewrite Hslugs; reflexivity].
    rewrite Hsum. vm_compute in Hrepos. injection Hrepos as <-. vm_compute. reflexivity.
Defined.

End ExtraExamples.
